(** * D1-Inspector: the query execution gateway

    A shallow embedding of the server side of D1-Inspector that runs SQL
    against Cloudflare D1: the remote client [CloudflareD1Service]
    (server/services/cloudflare.ts), the in-memory store [MemStorage]
    (server/storage.ts) and the two Express handlers
    [GET /api/databases/:id/tables/:table/rows] and
    [POST /api/databases/:id/query] (server/routes.ts).

    JavaScript strings are modelled as [string] (their UTF-8 bytes), numbers
    that the handlers compute with as [Z], JSON data as [JSValue].  What a
    handler reads from its surroundings (the clock, [randomUUID], the answer
    of [fetch], [NODE_ENV]) is a field of an environment record, one field
    per program point, and the theorems quantify over all of them.

    The second part embeds what surrounds the gateway: the other maps of
    the store (keys, databases, saved queries, chat messages) with the
    handlers that manage them, [listDatabases], the schema handler,
    [convertToCSV], the pages of the results table in the client
    (query-results.tsx) and the data that server/index.ts stores in
    development. *)

From Stdlib Require Import String Ascii ZArith List Bool Lia DecimalString DecimalPos.
From Stdlib Require Import Permutation Sorted.
Import ListNotations.
Open Scope string_scope.
Open Scope Z_scope.

(** ** The JavaScript built-ins the code relies on *)

Module JS.

(** [String.prototype.toLowerCase], on the ASCII letters.  The only other
    code points that lower-case into ASCII are U+212A (to k) and U+0130 (to i
    followed by U+0307); no signature searched for below contains a k or
    ends in an i, so they cannot create or destroy a match. *)
Definition lower_char (c : ascii) : ascii :=
  let n := nat_of_ascii c in
  if andb (Nat.leb 65 n) (Nat.leb n 90) then ascii_of_nat (n + 32) else c.

Fixpoint toLowerCase (s : string) : string :=
  match s with
  | EmptyString => EmptyString
  | String c s' => String (lower_char c) (toLowerCase s')
  end.

(** [String.prototype.includes]: [pat] occurs somewhere in [s]. *)
Fixpoint includes (s pat : string) : bool :=
  if prefix pat s then true
  else match s with
       | EmptyString => false
       | String _ s' => includes s' pat
       end.

(** [Array.prototype.join]. *)
Definition join (sep : string) (l : list string) : string := String.concat sep l.

(** JSON data, as [any] in the TypeScript source.  [JNum z] is an integral
    number, [JDec m e] the decimal literal m / 10^e (0.35 is [JDec 35 2]). *)
#[local] Unset Elimination Schemes.
Inductive JSValue : Type :=
| JUndefined
| JNull
| JBool (b : bool)
| JNum (z : Z)
| JDec (m : Z) (e : nat)
| JStr (s : string)
| JArr (items : list JSValue)
| JObj (fields : list (string * JSValue)).
#[local] Set Elimination Schemes.

(** An object literal or a parsed JSON object: its properties in order. *)
Definition JSObject : Type := list (string * JSValue).

(** Property read [o.k]: [undefined] when the object has no such key. *)
Fixpoint prop (o : JSObject) (k : string) : JSValue :=
  match o with
  | [] => JUndefined
  | (k', v) :: o' => if String.eqb k' k then v else prop o' k
  end.

(** [v === "s"] for a string literal. *)
Definition strictEqStr (v : JSValue) (s : string) : bool :=
  match v with
  | JStr s' => String.eqb s' s
  | _ => false
  end.

(** What [JSON.stringify] keeps of an object: a key whose value is
    [undefined] is dropped. *)
Definition hasField (o : JSObject) (k : string) : bool :=
  match prop o k with
  | JUndefined => false
  | _ => true
  end.

(** The double quote character, U+0022. *)
Definition dquote : string := String (ascii_of_nat 34) EmptyString.

(** *** Numbers *)

(** A JavaScript number that is [NaN] or integral.  Beyond 2^53 in
    magnitude [Num z] stands for the double nearest to [z]; the comparisons
    the handlers make (with 0, 1 and 100) give the same answer for both. *)
Inductive JSNumber : Type :=
| NaN
| Num (z : Z).

Definition isNaN (n : JSNumber) : bool :=
  match n with NaN => true | Num _ => false end.

(** [n < k] and [n > k]; every comparison with [NaN] is false. *)
Definition lt (n : JSNumber) (k : Z) : bool :=
  match n with NaN => false | Num z => z <? k end.

Definition gt (n : JSNumber) (k : Z) : bool :=
  match n with NaN => false | Num z => k <? z end.

(** [n || d] on numbers: [NaN] and [0] are falsy. *)
Definition orDefault (n : JSNumber) (d : Z) : Z :=
  match n with
  | NaN => d
  | Num z => if z =? 0 then d else z
  end.

(** White space skipped by [parseInt] (StrWhiteSpaceChar: WhiteSpace and
    LineTerminator).  A string is its UTF-8 bytes, so a white space
    character is one, two or three bytes.  One byte: TAB, LF, VT, FF, CR
    and SP. *)
Definition isWhiteSpace (c : ascii) : bool :=
  let n := nat_of_ascii c in
  orb (andb (Nat.leb 9 n) (Nat.leb n 13)) (Nat.eqb n 32).

(** Two bytes: U+00A0, the no-break space (C2 A0). *)
Definition isWhiteSpace2 (c1 c2 : ascii) : bool :=
  andb (Nat.eqb (nat_of_ascii c1) 194) (Nat.eqb (nat_of_ascii c2) 160).

(** Three bytes: U+1680 (E1 9A 80); U+2000 to U+200A, the line and
    paragraph separators U+2028 and U+2029, U+202F (E2 80 and 80 to 8A, A8,
    A9, AF); U+205F (E2 81 9F); U+3000 (E3 80 80); U+FEFF (EF BB BF). *)
Definition isWhiteSpace3 (c1 c2 c3 : ascii) : bool :=
  let b1 := nat_of_ascii c1 in
  let b2 := nat_of_ascii c2 in
  let b3 := nat_of_ascii c3 in
  if Nat.eqb b1 225 then andb (Nat.eqb b2 154) (Nat.eqb b3 128)
  else if Nat.eqb b1 226 then
    orb (andb (Nat.eqb b2 128)
           (orb (andb (Nat.leb 128 b3) (Nat.leb b3 138))
              (orb (Nat.eqb b3 168) (orb (Nat.eqb b3 169) (Nat.eqb b3 175)))))
        (andb (Nat.eqb b2 129) (Nat.eqb b3 159))
  else if Nat.eqb b1 227 then andb (Nat.eqb b2 128) (Nat.eqb b3 128)
  else if Nat.eqb b1 239 then andb (Nat.eqb b2 187) (Nat.eqb b3 191)
  else false.

Fixpoint trimStart (s : string) : string :=
  match s with
  | EmptyString => EmptyString
  | String c1 s1 =>
      if isWhiteSpace c1 then trimStart s1
      else
        match s1 with
        | EmptyString => s
        | String c2 s2 =>
            if isWhiteSpace2 c1 c2 then trimStart s2
            else
              match s2 with
              | EmptyString => s
              | String c3 s3 => if isWhiteSpace3 c1 c2 c3 then trimStart s3 else s
              end
        end
  end.

(** The value of a character as a digit: 0-9, then a-z or A-Z for 10-35. *)
Definition digitValue (c : ascii) : option Z :=
  let n := nat_of_ascii c in
  if andb (Nat.leb 48 n) (Nat.leb n 57) then Some (Z.of_nat (n - 48))
  else if andb (Nat.leb 97 n) (Nat.leb n 122) then Some (Z.of_nat (n - 87))
  else if andb (Nat.leb 65 n) (Nat.leb n 90) then Some (Z.of_nat (n - 55))
  else None.

(** The value of the longest prefix of [s] made of digits of the radix,
    read after the digits [acc]; [seen] tells whether a digit has been
    read. *)
Fixpoint parseDigits (radix : Z) (s : string) (seen : bool) (acc : Z) : JSNumber :=
  match s with
  | EmptyString => if seen then Num acc else NaN
  | String c s' =>
      match digitValue c with
      | Some d =>
          if d <? radix then parseDigits radix s' true (radix * acc + d)
          else if seen then Num acc else NaN
      | None => if seen then Num acc else NaN
      end
  end.

(** [parseInt(s, radix)], and [parseInt(s)] when [radix] is [None]: leading
    white space is skipped, one sign is read, a prefix 0x or 0X is skipped
    when the radix is 16 or not given, then comes the longest run of
    digits of the radix; [NaN] when there is none.  Whatever follows the
    digits is ignored. *)
Definition parseInt (s : string) (radix : option Z) : JSNumber :=
  let (negative, unsigned) :=
    match trimStart s with
    | String "-" r => (true, r)
    | String "+" r => (false, r)
    | r => (false, r)
    end in
  let (R, stripPrefix) :=
    match radix with
    | None => (10, true)
    | Some r => if r =? 0 then (10, true) else (r, r =? 16)
    end in
  if orb (R <? 2) (36 <? R) then NaN
  else
    let (R, digits) :=
      match unsigned with
      | String "0" (String "x" r) | String "0" (String "X" r) =>
          if stripPrefix then (16, r) else (R, unsigned)
      | _ => (R, unsigned)
      end in
    match parseDigits R digits false 0 with
    | NaN => NaN
    | Num z => Num (if negative then - z else z)
    end.

(** The integers a double holds exactly. *)
Definition maxSafe : Z := 2 ^ 53.

Definition isSafe (z : Z) : bool := Z.abs z <=? maxSafe.

(** The decimal digits of an integer, with a minus sign when negative. *)
Definition decimal (z : Z) : string := NilZero.string_of_int (Z.to_int z).

Section NumberToString.

(** [Number::toString] writes an integer that a double holds exactly with
    its decimal digits.  Beyond that range the digits are those of the
    nearest double, in exponent notation from 1e21 on: that rendering is a
    parameter. *)
Variable beyondSafe : Z -> string.

Definition Number_toString (z : Z) : string :=
  if isSafe z then decimal z else beyondSafe z.

(** A number inside a template literal. *)
Definition interpolate (n : JSNumber) : string :=
  match n with
  | NaN => "NaN"
  | Num z => Number_toString z
  end.

End NumberToString.

(** A number inside the argument of [res.json]: [NaN] is written [null]. *)
Definition numberValue (n : JSNumber) : JSValue :=
  match n with
  | NaN => JNull
  | Num z => JNum z
  end.

(** [l.slice(from, to)] for 0 <= from <= to. *)
Definition slice {A : Type} (l : list A) (from to : Z) : list A :=
  firstn (Z.to_nat (to - from)) (skipn (Z.to_nat from) l).

End JS.

(** ** The HTTP exchange with the Cloudflare API and the errors thrown *)

Module Wire.
Import JS.

(** An element of [errors] in the response envelope; only [message] is ever
    read, and it may be missing. *)
Record D1Error : Type := { message : option string }.

(** [result] of the envelope: every field is optional. *)
Record D1Result : Type := {
  results : option (list JSObject);
  duration : option JSValue;
  changes : option Z;
  count : option Z
}.

(** [interface CloudflareD1Response]. *)
Record CloudflareD1Response : Type := {
  success : bool;
  errors : list D1Error;
  result : option D1Result
}.

(** The body of a response: JSON that fits the envelope, or text on which
    [response.json()] rejects with a [SyntaxError] of the given message. *)
Inductive Body : Type :=
| Json (data : CloudflareD1Response)
| NotJson (syntaxError : string).

(** What [fetch] resolves to. *)
Record HttpResponse : Type := {
  status : Z;
  statusText : string;
  body : Body
}.

(** [response.ok]: the status is in the range 200-299. *)
Definition ok (r : HttpResponse) : bool :=
  andb (200 <=? status r) (status r <=? 299).

(** The request given to [fetch]: URL, bearer token and the [sql] of the
    JSON body. *)
Record FetchRequest : Type := {
  url : string;
  bearer : string;
  sql : string
}.

(** The errors that reach a handler's [catch]: the two classes declared in
    services/cloudflare.ts, and any other [Error] (the [TypeError] of a
    rejected [fetch], the [SyntaxError] of [response.json()]) with the name
    of its constructor and its message. *)
Inductive JSError : Type :=
| CloudflareUserError (message : string) (originalErrors : list D1Error)
| CloudflareSystemError (message : string) (statusCode : option Z)
    (originalErrors : list D1Error)
| OtherError (name : string) (message : string).

(** [fetch] either resolves to a response or rejects (connection refused,
    DNS failure, ...) with an error that is neither of the two classes. *)
Inductive FetchOutcome : Type :=
| Responded (r : HttpResponse)
| Rejected (name : string) (message : string).

(** [error.message] and [error.constructor.name]. *)
Definition errorMessage (e : JSError) : string :=
  match e with
  | CloudflareUserError m _ => m
  | CloudflareSystemError m _ _ => m
  | OtherError _ m => m
  end.

Definition constructorName (e : JSError) : string :=
  match e with
  | CloudflareUserError _ _ => "CloudflareUserError"
  | CloudflareSystemError _ _ _ => "CloudflareSystemError"
  | OtherError n _ => n
  end.

End Wire.

(** ** server/storage.ts *)

Module Storage.
Import JS.

(** A JavaScript [Map] with string keys: its entries in insertion order.
    [set] on a key that is present replaces the value where it stands, on a
    new key it appends. *)
Definition JSMap (V : Type) : Type := list (string * V).

Fixpoint Map_set {V : Type} (k : string) (v : V) (m : JSMap V) : JSMap V :=
  match m with
  | [] => [(k, v)]
  | (k', v') :: m' =>
      if String.eqb k' k then (k, v) :: m' else (k', v') :: Map_set k v m'
  end.

Definition Map_values {V : Type} (m : JSMap V) : list V := map snd m.

(** [type ApiKey]. *)
Record ApiKey : Type := {
  keyId : string;
  keyName : string;
  cloudflareToken : string;
  accountId : string;
  isActive : option bool
}.

(** [type InsertQueryResult]: what the handler hands to the cache. *)
Record InsertQueryResult : Type := {
  insQueryHash : string;
  insDatabaseId : string;
  insResults : list JSObject;
  insExecutionTime : option string;
  insRowCount : option string
}.

(** [type QueryResult]: a cache entry.  [createdAt] is in milliseconds. *)
Record QueryResult : Type := {
  id : string;
  queryHash : string;
  databaseId : string;
  results : list JSObject;
  executionTime : option string;
  rowCount : option string;
  createdAt : option Z
}.

(** [class MemStorage], with the two maps the gateway reads and writes (the
    maps of databases, saved queries and chat messages are not touched by
    the handlers below). *)
Record MemStorage : Type := {
  apiKeys : JSMap ApiKey;
  queryResults : JSMap QueryResult
}.

(** [getActiveApiKey]: the first key, in insertion order, whose [isActive]
    is truthy. *)
Definition getActiveApiKey (st : MemStorage) : option ApiKey :=
  find (fun key => match isActive key with Some true => true | _ => false end)
       (Map_values (apiKeys st)).

(** [createQueryResult]: the entry gets the identifier drawn from
    [randomUUID()] and the time of [new Date()], and is stored under that
    identifier. *)
Definition createQueryResult (insertResult : InsertQueryResult)
    (uuid : string) (now : Z) (st : MemStorage) : QueryResult * MemStorage :=
  let queryResult := {|
    id := uuid;
    queryHash := insQueryHash insertResult;
    databaseId := insDatabaseId insertResult;
    results := insResults insertResult;
    executionTime := insExecutionTime insertResult;
    rowCount := insRowCount insertResult;
    createdAt := Some now |} in
  (queryResult,
   {| apiKeys := apiKeys st;
      queryResults := Map_set uuid queryResult (queryResults st) |}).

(** [getQueryResult]: the first entry, in insertion order, with this hash
    and this database. *)
Definition getQueryResult (h : string) (db : string) (st : MemStorage)
    : option QueryResult :=
  find (fun r => andb (String.eqb (queryHash r) h) (String.eqb (databaseId r) db))
       (Map_values (queryResults st)).

End Storage.

(** ** Effects of a request handler *)

Module Eff.
Import JS Wire Storage.

(** [console.log] or [console.error]. *)
Inductive Console : Type := Log | Error.

(** One line written to the console: the tag and the object given to
    [JSON.stringify]. *)
Record LogEntry : Type := {
  console : Console;
  tag : string;
  data : JSObject
}.

(** What a handler can change or emit: the store (the [storage] singleton),
    the requests sent with [fetch], the lines logged, oldest first. *)
Record World : Type := {
  storage : MemStorage;
  calls : list FetchRequest;
  logs : list LogEntry
}.

(** A computation returns normally or throws. *)
Inductive Completion (A : Type) : Type :=
| Normal (a : A)
| Throw (e : JSError).
Arguments Normal {A} a.
Arguments Throw {A} e.

Definition M (A : Type) : Type := World -> Completion A * World.

Definition ret {A : Type} (a : A) : M A := fun w => (Normal a, w).

Definition bind {A B : Type} (c : M A) (k : A -> M B) : M B :=
  fun w =>
    match c w with
    | (Normal a, w') => k a w'
    | (Throw e, w') => (Throw e, w')
    end.

Definition throw {A : Type} (e : JSError) : M A := fun w => (Throw e, w).

(** [try { c } catch (error) { h error }]. *)
Definition tryCatch {A : Type} (c : M A) (h : JSError -> M A) : M A :=
  fun w =>
    match c w with
    | (Normal a, w') => (Normal a, w')
    | (Throw e, w') => h e w'
    end.

(** [await fetch(...)]: the request is sent, and the outcome is what the
    network gives back. *)
Definition fetch (req : FetchRequest) (outcome : FetchOutcome) : M HttpResponse :=
  fun w =>
    let w' := {| storage := storage w; calls := calls w ++ [req]; logs := logs w |} in
    match outcome with
    | Responded r => (Normal r, w')
    | Rejected n m => (Throw (OtherError n m), w')
    end.

Definition consoleWrite (c : Console) (t : string) (d : JSObject) : M unit :=
  fun w =>
    (Normal tt,
     {| storage := storage w; calls := calls w;
        logs := logs w ++ [{| console := c; tag := t; data := d |}] |}).

(** The calls on the [storage] singleton. *)
Definition storage_getActiveApiKey : M (option ApiKey) :=
  fun w => (Normal (getActiveApiKey (storage w)), w).

Definition storage_getQueryResult (h db : string) : M (option QueryResult) :=
  fun w => (Normal (getQueryResult h db (storage w)), w).

Definition storage_createQueryResult (i : InsertQueryResult) (uuid : string)
    (now : Z) : M QueryResult :=
  fun w =>
    let (r, st) := createQueryResult i uuid now (storage w) in
    (Normal r, {| storage := st; calls := calls w; logs := logs w |}).

End Eff.

Notation "x <- c ;; k" := (Eff.bind c (fun x => k))
  (at level 61, c at next level, right associativity).
Notation "c ;;; k" := (Eff.bind c (fun _ => k))
  (at level 61, right associativity).

(** ** server/services/cloudflare.ts *)

Module Cloudflare.
Import JS Wire Eff.

(** [new CloudflareD1Service(accountId, apiToken)]. *)
Record CloudflareD1Service : Type := {
  accountId : string;
  apiToken : string
}.

Definition baseUrl : string := "https://api.cloudflare.com/client/v4".

(** What [executeQuery] resolves to. *)
Record QueryOutput : Type := {
  results : list JSObject;
  duration : option JSValue;
  changes : option Z;
  count : option Z
}.

(** [error.message?.toLowerCase() || ''], then the test of the callback
    given to [data.errors.some]. *)
Definition isSQLErrorMessage (e : D1Error) : bool :=
  let msg := match message e with
             | Some m => toLowerCase m
             | None => ""
             end in
  (includes msg "syntax error" ||
   includes msg "no such table" ||
   includes msg "no such column" ||
   includes msg "near " ||
   includes msg "sql error" ||
   includes msg "parse error" ||
   includes msg "duplicate column" ||
   (includes msg "table" && includes msg "already exists") ||
   includes msg "constraint")%bool.

Definition isSQLError (errs : list D1Error) : bool := existsb isSQLErrorMessage errs.

(** [data.errors.map(e => e.message).join(', ')]: a missing message is
    joined as the empty string. *)
Definition errorMessages (errs : list D1Error) : string :=
  join ", " (map (fun e => match message e with Some m => m | None => "" end) errs).

Definition schemaQuery : string :=
"
      SELECT 
        name, 
        type, 
        sql 
      FROM sqlite_master 
      WHERE type IN ('table', 'view') 
      ORDER BY name;
    ".

Definition mockSchema (databaseId : string) : list JSObject :=
  if String.eqb databaseId "db-test-1" then
    [[("name", JStr "users"); ("type", JStr "table");
      ("sql", JStr "CREATE TABLE users (id INTEGER PRIMARY KEY, name TEXT, email TEXT, created_at TEXT, status TEXT)")]]
  else if String.eqb databaseId "db-test-2" then
    [[("name", JStr "analytics"); ("type", JStr "table");
      ("sql", JStr "CREATE TABLE analytics (date TEXT, page_views INTEGER, unique_visitors INTEGER, bounce_rate REAL)")]]
  else [].

Section Service.

Variable beyondSafe : Z -> string.
Variable this : CloudflareD1Service.

(** [executeQuery(databaseId, query)]; [outcome] is what [fetch] yields. *)
Definition executeQuery (databaseId query : string) (outcome : FetchOutcome)
    : M QueryOutput :=
  response <- fetch {| url := baseUrl ++ "/accounts/" ++ accountId this
                              ++ "/d1/database/" ++ databaseId ++ "/query";
                       bearer := apiToken this;
                       sql := query |} outcome ;;
  if negb (ok response) then
    let statusCode := status response in
    if ((statusCode =? 401) || (statusCode =? 403))%bool then
      throw (CloudflareSystemError
               ("Authentication failed: " ++ statusText response) (Some statusCode) [])
    else
      throw (CloudflareSystemError
               ("HTTP error " ++ Number_toString beyondSafe statusCode ++ ": "
                ++ statusText response) (Some statusCode) [])
  else
    match body response with
    | NotJson m => throw (OtherError "SyntaxError" m)
    | Json data =>
        if negb (success data) then
          if isSQLError (errors data) then
            throw (CloudflareUserError (errorMessages (errors data)) (errors data))
          else
            throw (CloudflareSystemError (errorMessages (errors data)) None (errors data))
        else
          ret {| results := match result data with
                            | Some r => match Wire.results r with
                                        | Some rows => rows
                                        | None => []
                                        end
                            | None => []
                            end;
                 duration := match result data with
                             | Some r => Wire.duration r
                             | None => None
                             end;
                 changes := match result data with
                            | Some r => Wire.changes r
                            | None => None
                            end;
                 count := match result data with
                          | Some r => Wire.count r
                          | None => None
                          end |}
    end.

(** [getDatabaseSchema(databaseId)]; [development] is
    [process.env.NODE_ENV === "development"]. *)
Definition getDatabaseSchema (development : bool) (databaseId : string)
    (outcome : FetchOutcome) : M (list JSObject) :=
  if (development && String.eqb (apiToken this) "mock-token-for-testing")%bool then
    ret (mockSchema databaseId)
  else
    result <- executeQuery databaseId schemaQuery outcome ;;
    ret (results result).

End Service.

End Cloudflare.

(** ** server/routes.ts *)

Module Routes.
Import JS Wire Storage Eff Cloudflare.

(** What [res.status(...).json(...)] sends: [res.json] alone sends 200. *)
Record Response : Type := {
  statusCode : Z;
  payload : JSObject
}.

(** The row objects as the JSON array given to [res.json]. *)
Definition rowsValue (rows : list JSObject) : JSValue := JArr (map JObj rows).

Definition optString (s : option string) : JSValue :=
  match s with Some x => JStr x | None => JNull end.

Definition optNumber (n : option Z) : JSValue :=
  match n with Some z => JNum z | None => JUndefined end.

Definition lengthOf {A : Type} (l : list A) : Z := Z.of_nat (length l).

(** The fixtures served with the mock token in development. *)
Definition user (i : Z) (name email created status : string) : JSObject :=
  [("id", JNum i); ("name", JStr name); ("email", JStr email);
   ("created_at", JStr created); ("status", JStr status)].

Definition analytics (date : string) (views visitors bounce : Z) : JSObject :=
  [("date", JStr date); ("page_views", JNum views);
   ("unique_visitors", JNum visitors); ("bounce_rate", JDec bounce 2)].

Definition mockUsers : list JSObject :=
  [ user 1 "Alice Johnson" "alice@example.com" "2024-01-15" "active";
    user 2 "Bob Smith" "bob@example.com" "2024-01-20" "active";
    user 3 "Carol Davis" "carol@example.com" "2024-02-01" "inactive";
    user 4 "David Wilson" "david@example.com" "2024-02-15" "active";
    user 5 "Eva Brown" "eva@example.com" "2024-03-01" "active" ].

Definition allUsers : list JSObject :=
  mockUsers ++
  [ user 6 "Frank Miller" "frank@example.com" "2024-03-10" "active";
    user 7 "Grace Lee" "grace@example.com" "2024-03-15" "inactive" ].

Definition mockAnalytics : list JSObject :=
  [ analytics "2024-03-01" 1250 820 35;
    analytics "2024-03-02" 1380 920 32;
    analytics "2024-03-03" 1150 750 38;
    analytics "2024-03-04" 1420 980 30;
    analytics "2024-03-05" 1320 850 34 ].

Definition allAnalytics : list JSObject :=
  mockAnalytics ++
  [ analytics "2024-03-06" 1480 1020 29;
    analytics "2024-03-07" 1350 880 33 ].

Definition isMock (development : bool) (apiKey : ApiKey) : bool :=
  (development && String.eqb (cloudflareToken apiKey) "mock-token-for-testing")%bool.

Definition serviceFor (apiKey : ApiKey) : CloudflareD1Service :=
  {| Cloudflare.accountId := Storage.accountId apiKey;
     apiToken := cloudflareToken apiKey |}.

Definition freshnessWindow : Z := 5 * 60 * 1000.

Section Handlers.

(** [createHash('md5').update(s).digest('hex')], from Node's crypto. *)
Variable md5hex : string -> string.

Variable beyondSafe : Z -> string.

(** The template [`${ms}ms`]. *)
Definition millis (ms : Z) : string := Number_toString beyondSafe ms ++ "ms".

(** *** GET /api/databases/:id/tables/:table/rows *)

(** What one request reads from outside: [NODE_ENV], the clock at each
    [Date.now()], the outcome of each [fetch], the time stamp of the log
    line. *)
Record TableEnv : Type := {
  tDevelopment : bool;
  tStartTime : Z;
  tSchemaFetch : FetchOutcome;
  tNotFoundTime : Z;
  tMockTime : Z;
  tSelectFetch : FetchOutcome;
  tSuccessTime : Z;
  tCatchTime : Z;
  tTimestamp : string
}.

(** The [SELECT] sent for a page of a table. *)
Definition browseQuery (tableName : string) (limitNum offsetNum : JSNumber) : string :=
  "SELECT * FROM " ++ dquote ++ tableName ++ dquote
  ++ " LIMIT " ++ interpolate beyondSafe limitNum
  ++ " OFFSET " ++ interpolate beyondSafe offsetNum.

Definition tableExists (schema : list JSObject) (tableName : string) : bool :=
  existsb (fun item => (strictEqStr (prop item "type") "table"
                        && strictEqStr (prop item "name") tableName)%bool) schema.

Definition invalidPage (message : string) : Response :=
  {| statusCode := 400;
     payload := [("message", JStr message); ("rows", JArr []);
                 ("rowCount", JNum 0); ("pageSize", JNum 0)] |}.

(** The [catch] block of the handler. *)
Definition tableRowsCatch (env : TableEnv) (databaseId tableName limit : string)
    (error : JSError) : M Response :=
  let executionTime := millis (tCatchTime env - tStartTime env) in
  let logData :=
    [("dbId", JStr databaseId); ("tableName", JStr tableName);
     ("duration", JStr executionTime);
     ("errorType", JStr (constructorName error));
     ("errorMessage", JStr (errorMessage error));
     ("timestamp", JStr (tTimestamp env))] in
  let failure (message : string) (code : Z) : Response :=
    {| statusCode := code;
       payload := [("message", JStr message); ("rows", JArr []);
                   ("rowCount", JNum 0);
                   ("pageSize", JNum (orDefault (parseInt limit (Some 10)) 50))] |} in
  match error with
  | CloudflareUserError m _ =>
      consoleWrite Log "[TABLE_ROWS USER_ERROR]" logData ;;;
      ret (failure m 400)
  | CloudflareSystemError _ _ _ =>
      consoleWrite Error "[TABLE_ROWS SYSTEM_ERROR]" logData ;;;
      ret (failure "Internal server error occurred while fetching table data" 500)
  | OtherError _ _ =>
      consoleWrite Error "[TABLE_ROWS UNKNOWN_ERROR]" logData ;;;
      ret (failure "Failed to fetch table data" 500)
  end.

Definition tableRowsSuccess (env : TableEnv) (databaseId tableName : string)
    (limitNum offsetNum : JSNumber) (now : Z) (rows : list JSObject) : M Response :=
  let executionTime := millis (now - tStartTime env) in
  consoleWrite Log "[TABLE_ROWS SUCCESS]"
    [("dbId", JStr databaseId); ("tableName", JStr tableName);
     ("duration", JStr executionTime); ("rowCount", JNum (lengthOf rows));
     ("pageSize", numberValue limitNum); ("offset", numberValue offsetNum);
     ("timestamp", JStr (tTimestamp env))] ;;;
  ret {| statusCode := 200;
         payload := [("rows", rowsValue rows); ("rowCount", JNum (lengthOf rows));
                     ("pageSize", numberValue limitNum)] |}.

(** The handler once the schema has been fetched: the membership check,
    then the fixtures or the [SELECT]. *)
Definition browseChecked (env : TableEnv) (databaseId tableName : string)
    (limitNum offsetNum : JSNumber) (apiKey : ApiKey) (schema : list JSObject)
    : M Response :=
  if negb (tableExists schema tableName) then
    let executionTime := millis (tNotFoundTime env - tStartTime env) in
    let message := "Table '" ++ tableName ++ "' does not exist" in
    consoleWrite Log "[TABLE_ROWS USER_ERROR]"
      [("dbId", JStr databaseId); ("tableName", JStr tableName);
       ("duration", JStr executionTime);
       ("errorType", JStr "TableNotFound");
       ("errorMessage", JStr message);
       ("timestamp", JStr (tTimestamp env))] ;;;
    ret {| statusCode := 400;
           payload := [("message", JStr message); ("rows", JArr []);
                       ("rowCount", JNum 0);
                       ("pageSize", numberValue limitNum)] |}
  else if isMock (tDevelopment env) apiKey then
    let from := match offsetNum with Num z => z | NaN => 0 end in
    let count := match limitNum with Num z => z | NaN => 0 end in
    let mockRows :=
      if (String.eqb databaseId "db-test-1" && String.eqb tableName "users")%bool
      then slice allUsers from (from + count)
      else if (String.eqb databaseId "db-test-2"
               && String.eqb tableName "analytics")%bool
      then slice allAnalytics from (from + count)
      else [] in
    tableRowsSuccess env databaseId tableName limitNum offsetNum
      (tMockTime env) mockRows
  else
    let query := browseQuery tableName limitNum offsetNum in
    result <- executeQuery beyondSafe (serviceFor apiKey) databaseId query
                (tSelectFetch env) ;;
    tableRowsSuccess env databaseId tableName limitNum offsetNum
      (tSuccessTime env) (results result).

(** The handler; [limitParam] and [offsetParam] are the query parameters,
    [None] when the URL does not give them. *)
Definition tableRowsRoute (env : TableEnv) (databaseId tableName : string)
    (limitParam offsetParam : option string) : M Response :=
  let limit := match limitParam with Some l => l | None => "50" end in
  let offset := match offsetParam with Some o => o | None => "0" end in
  tryCatch
    (let limitNum := parseInt limit (Some 10) in
     let offsetNum := parseInt offset (Some 10) in
     if (isNaN limitNum || lt limitNum 1 || gt limitNum 100)%bool then
       ret (invalidPage "Limit must be a number between 1 and 100")
     else if (isNaN offsetNum || lt offsetNum 0)%bool then
       ret (invalidPage "Offset must be a non-negative number")
     else
       apiKey <- storage_getActiveApiKey ;;
       match apiKey with
       | None => ret (invalidPage "No active API key configured")
       | Some apiKey =>
           schema <- getDatabaseSchema beyondSafe (serviceFor apiKey)
                       (tDevelopment env) databaseId (tSchemaFetch env) ;;
           browseChecked env databaseId tableName limitNum offsetNum apiKey schema
       end)
    (tableRowsCatch env databaseId tableName limit).

(** *** POST /api/databases/:id/query *)

Record QueryEnv : Type := {
  qDevelopment : bool;
  qStartTime : Z;
  qCheckTime : Z;
  qMockStart : Z;
  qMockEnd : Z;
  qFetch : FetchOutcome;
  qSuccessTime : Z;
  qCatchTime : Z;
  qUuid : string;
  qCreatedAt : Z;
  qTimestamp : string
}.

(** [cached && cached.createdAt &&
     Date.now() - cached.createdAt.getTime() < 5 * 60 * 1000]. *)
Definition isFresh (now : Z) (cached : QueryResult) : bool :=
  match createdAt cached with
  | Some t => now - t <? freshnessWindow
  | None => false
  end.

(** The cached entry when that test passes. *)
Definition freshHit (now : Z) (cached : option QueryResult) : option QueryResult :=
  match cached with
  | Some hit => if isFresh now hit then Some hit else None
  | None => None
  end.

(** The answer to a cache hit. *)
Definition cachedResponse (cached : QueryResult) : Response :=
  let rowCount := match Storage.rowCount cached with
                  | Some "" | None => "0"
                  | Some n => n
                  end in
  {| statusCode := 200;
     payload := [("results", rowsValue (Storage.results cached));
                 ("executionTime", optString (executionTime cached));
                 ("rowCount", JNum (orDefault (parseInt rowCount None) 0));
                 ("cached", JBool true)] |}.

Definition mockResults (id query : string) : list JSObject :=
  if includes (toLowerCase query) "select" then
    if String.eqb id "db-test-1" then mockUsers
    else if String.eqb id "db-test-2" then mockAnalytics
    else []
  else [].

(** The [catch] block of the handler. *)
Definition queryCatch (env : QueryEnv) (id queryHash : string) (error : JSError)
    : M Response :=
  let executionTime := millis (qCatchTime env - qStartTime env) in
  let logData :=
    [("dbId", JStr id); ("queryHash", JStr queryHash);
     ("duration", JStr executionTime);
     ("errorType", JStr (constructorName error));
     ("errorMessage", JStr (errorMessage error));
     ("timestamp", JStr (qTimestamp env))] in
  let failure (message : string) (code : Z) : Response :=
    {| statusCode := code;
       payload := [("message", JStr message); ("results", JArr []);
                   ("rowCount", JNum 0); ("executionTime", JStr executionTime)] |} in
  match error with
  | CloudflareUserError m _ =>
      consoleWrite Log "[QUERY USER_ERROR]" logData ;;;
      ret (failure m 400)
  | CloudflareSystemError _ _ _ =>
      consoleWrite Error "[QUERY SYSTEM_ERROR]" logData ;;;
      ret (failure "Internal server error occurred while executing query" 500)
  | OtherError _ _ =>
      consoleWrite Error "[QUERY UNKNOWN_ERROR]" logData ;;;
      ret (failure "Failed to execute query" 500)
  end.

(** The handler; [id] is the database of the URL and [query] the property
    of that name in the JSON body, a string when it is there and [None]
    when it is missing.  Nothing throws before [queryHash] is assigned, so
    the [catch] block always sees the hash of the query. *)
Definition queryRoute (env : QueryEnv) (id : string) (query : option string)
    : M Response :=
  match query with
  | None | Some "" =>
      ret {| statusCode := 400; payload := [("message", JStr "Query is required")] |}
  | Some query =>
      apiKey <- storage_getActiveApiKey ;;
      match apiKey with
      | None =>
          ret {| statusCode := 400;
                 payload := [("message", JStr "No active API key configured")] |}
      | Some apiKey =>
          let queryHash := md5hex query in
          tryCatch
            (cached <- storage_getQueryResult queryHash id ;;
             match freshHit (qCheckTime env) cached with
             | Some hit => ret (cachedResponse hit)
             | None =>
                 if isMock (qDevelopment env) apiKey then
                   let mockResults := mockResults id query in
                   let executionTime := millis (qMockEnd env - qMockStart env) in
                   storage_createQueryResult
                     {| insQueryHash := queryHash;
                        insDatabaseId := id;
                        insResults := mockResults;
                        insExecutionTime := Some executionTime;
                        insRowCount :=
                          Some (Number_toString beyondSafe (lengthOf mockResults)) |}
                     (qUuid env) (qCreatedAt env) ;;;
                   ret {| statusCode := 200;
                          payload := [("results", rowsValue mockResults);
                                      ("executionTime", JStr executionTime);
                                      ("rowCount", JNum (lengthOf mockResults));
                                      ("changes", JNum 0);
                                      ("cached", JBool false)] |}
                 else
                   let cloudflare := serviceFor apiKey in
                   result <- executeQuery beyondSafe cloudflare id query (qFetch env) ;;
                   let executionTime := millis (qSuccessTime env - qStartTime env) in
                   consoleWrite Log "[QUERY SUCCESS]"
                     [("dbId", JStr id); ("queryHash", JStr queryHash);
                      ("duration", JStr executionTime);
                      ("rowCount", JNum (lengthOf (results result)));
                      ("timestamp", JStr (qTimestamp env))] ;;;
                   storage_createQueryResult
                     {| insQueryHash := queryHash;
                        insDatabaseId := id;
                        insResults := results result;
                        insExecutionTime := Some executionTime;
                        insRowCount :=
                          Some (Number_toString beyondSafe (lengthOf (results result))) |}
                     (qUuid env) (qCreatedAt env) ;;;
                   ret {| statusCode := 200;
                          payload := [("results", rowsValue (results result));
                                      ("executionTime", JStr executionTime);
                                      ("rowCount", JNum (lengthOf (results result)));
                                      ("changes", optNumber (changes result));
                                      ("cached", JBool false)] |}
             end)
            (queryCatch env id queryHash)
      end
  end.

End Handlers.

End Routes.

(** ** The gateway's contract, in the words of its specification *)

Module Spec.
Import JS Wire Storage Eff Cloudflare Routes.

(** [pat] occurs in [s]. *)
Definition occurs (pat s : string) : Prop := exists a b, s = a ++ pat ++ b.

(** The text of an attached error message. *)
Definition messageText (e : D1Error) : string :=
  match message e with Some m => m | None => "" end.

(** A lower-cased message carries one of the signatures of a mistake in the
    user's SQL. *)
Definition userSignature (msg : string) : Prop :=
  occurs "syntax error" msg \/
  occurs "no such table" msg \/
  occurs "no such column" msg \/
  occurs "near " msg \/
  occurs "sql error" msg \/
  occurs "parse error" msg \/
  occurs "duplicate column" msg \/
  (occurs "table" msg /\ occurs "already exists" msg) \/
  occurs "constraint" msg.

(** Some attached message matches some signature. *)
Definition anyUserSignature (errs : list D1Error) : Prop :=
  Exists (fun e => userSignature (toLowerCase (messageText e))) errs.

(** The remote execution fails at the transport (the connection fails or
    the status is not 2xx) or in the application (2xx with
    [success: false]). *)
Definition transportFailure (o : FetchOutcome) : Prop :=
  match o with
  | Rejected _ _ => True
  | Responded r => ok r = false
  end.

Definition applicationFailure (o : FetchOutcome) : Prop :=
  match o with
  | Rejected _ _ => False
  | Responded r =>
      ok r = true /\ exists data, body r = Json data /\ success data = false
  end.

(** A page request the planner accepts: limit in [1,100], offset >= 0. *)
Definition validLimit (n : JSNumber) : Prop := exists z, n = Num z /\ 1 <= z <= 100.

Definition validOffset (n : JSNumber) : Prop := exists z, n = Num z /\ 0 <= z.

(** [tableName] appears in the schema with kind [table]. *)
Definition listedAsTable (schema : list JSObject) (tableName : string) : Prop :=
  exists item, In item schema /\ prop item "type" = JStr "table"
               /\ prop item "name" = JStr tableName.

(** The well-formed shape of a failure: an empty array under [rowsKey] and
    a row count of zero. *)
Definition failureShape (rowsKey : string) (r : Response) : Prop :=
  prop (payload r) rowsKey = JArr [] /\ prop (payload r) "rowCount" = JNum 0.

(** The world after one more request has gone out. *)
Definition sent (req : FetchRequest) (w : World) : World :=
  {| storage := storage w; calls := calls w ++ [req]; logs := logs w |}.

(** The request [executeQuery] sends. *)
Definition queryRequest (this : CloudflareD1Service) (databaseId query : string)
    : FetchRequest :=
  {| url := baseUrl ++ "/accounts/" ++ Cloudflare.accountId this
            ++ "/d1/database/" ++ databaseId ++ "/query";
     bearer := apiToken this;
     sql := query |}.

(** The query handler reaches the remote call: the query is not empty, a
    key is active and is not the mock token in development, and the cache
    has no fresh entry under the hash of the query. *)
Definition reachesRemote (md5hex : string -> string) (env : QueryEnv)
    (id q : string) (w : World) (key : ApiKey) : Prop :=
  q <> "" /\
  getActiveApiKey (storage w) = Some key /\
  isMock (qDevelopment env) key = false /\
  freshHit (qCheckTime env) (getQueryResult (md5hex q) id (storage w)) = None.

(** The remote execution fails, at the transport or in the application. *)
Definition remoteFailure (o : FetchOutcome) : Prop :=
  transportFailure o \/ applicationFailure o.

(** The parameters of a page request as the handler reads them. *)
Definition limitOf (limitParam : option string) : JSNumber :=
  parseInt (match limitParam with Some l => l | None => "50" end) (Some 10).

Definition offsetOf (offsetParam : option string) : JSNumber :=
  parseInt (match offsetParam with Some o => o | None => "0" end) (Some 10).

(** A parameter that is a number as the specification has it: a decimal
    numeral, that is an optional minus sign and then digits, at least one,
    and nothing else. *)
Fixpoint allDigits (s : string) : bool :=
  match s with
  | EmptyString => true
  | String c s' =>
      (Nat.leb 48 (nat_of_ascii c) && Nat.leb (nat_of_ascii c) 57 && allDigits s')%bool
  end.

Definition numeral (s : string) : bool :=
  match s with
  | EmptyString => false
  | String "-" EmptyString => false
  | String "-" digits => allDigits digits
  | digits => allDigits digits
  end.

End Spec.

(** ** Concrete requests *)

Module Sample.
Import JS Wire Storage Eff Cloudflare Routes.

(** Stand-ins for the two parameters of the handlers, to run them on
    concrete requests; the theorems hold for every choice. *)
Definition md5hex (s : string) : string := "md5:" ++ s.

Definition beyondSafe (z : Z) : string := decimal z.

Definition key : ApiKey :=
  {| keyId := "key-1"; keyName := "production"; cloudflareToken := "token";
     Storage.accountId := "account"; isActive := Some true |}.

(** A store with an active key and an empty cache. *)
Definition store : MemStorage :=
  {| apiKeys := [("key-1", key)]; queryResults := [] |}.

Definition world : World := {| storage := store; calls := []; logs := [] |}.

Definition usersQuery : string := "SELECT * FROM users".

(** 200 with [success: true] and the given rows, three rows changed. *)
Definition succeeded (rows : list JSObject) : CloudflareD1Response :=
  {| success := true; errors := [];
     result := Some {| Wire.results := Some rows; Wire.duration := None;
                       Wire.changes := Some 3; Wire.count := None |} |}.

(** 200 with [success: false] and the given messages. *)
Definition failed (messages : list string) : CloudflareD1Response :=
  {| success := false;
     errors := map (fun m => {| message := Some m |}) messages;
     result := None |}.

Definition answer (data : CloudflareD1Response) : HttpResponse :=
  {| status := 200; statusText := "OK"; body := Json data |}.

Definition aliceRow : JSObject := [("id", JNum 1); ("name", JStr "Alice")].

Definition bobRow : JSObject := [("id", JNum 2); ("name", JStr "Bob")].

(** A request to the query handler that starts at [start]. *)
Definition queryEnv (start : Z) (uuid : string) (o : FetchOutcome) : QueryEnv :=
  {| qDevelopment := false;
     qStartTime := start;
     qCheckTime := start + 1;
     qMockStart := start + 1;
     qMockEnd := start + 1;
     qFetch := o;
     qSuccessTime := start + 20;
     qCatchTime := start + 30;
     qUuid := uuid;
     qCreatedAt := start + 21;
     qTimestamp := "2024-03-01T00:00:00.000Z" |}.

(** The cache holding one entry for the users query on db-1, created at
    time 0. *)
Definition oldEntry : QueryResult :=
  {| id := "entry-0"; queryHash := md5hex usersQuery; databaseId := "db-1";
     Storage.results := [aliceRow]; executionTime := Some "12ms";
     rowCount := Some "1"; createdAt := Some 0 |}.

Definition usedWorld : World :=
  {| storage := {| apiKeys := [("key-1", key)];
                   queryResults := [("entry-0", oldEntry)] |};
     calls := []; logs := [] |}.

(** The schema of a database with one table and one view. *)
Definition schemaRows : list JSObject :=
  [ [("name", JStr "users"); ("type", JStr "table"); ("sql", JStr "CREATE TABLE users (id INTEGER)")];
    [("name", JStr "recent"); ("type", JStr "view"); ("sql", JStr "CREATE VIEW recent AS SELECT 1")] ].

Definition tableEnv (select : FetchOutcome) : TableEnv :=
  {| tDevelopment := false;
     tStartTime := 1000;
     tSchemaFetch := Responded (answer (succeeded schemaRows));
     tNotFoundTime := 1010;
     tMockTime := 1010;
     tSelectFetch := select;
     tSuccessTime := 1020;
     tCatchTime := 1030;
     tTimestamp := "2024-03-01T00:00:00.000Z" |}.

End Sample.

(** ** server/storage.ts: the other maps of [MemStorage] *)

Module Store.
Import JS Storage.

(** [Map.prototype.get], [has] and [delete]. *)
Fixpoint Map_get {V : Type} (k : string) (m : JSMap V) : option V :=
  match m with
  | [] => None
  | (k', v) :: m' => if String.eqb k' k then Some v else Map_get k m'
  end.

Definition Map_has {V : Type} (k : string) (m : JSMap V) : bool :=
  match Map_get k m with Some _ => true | None => false end.

Definition Map_delete {V : Type} (k : string) (m : JSMap V) : JSMap V :=
  filter (fun e => negb (String.eqb (fst e) k)) m.

(** The keys of a [Map] are distinct. *)
Definition wellFormed {V : Type} (m : JSMap V) : Prop := NoDup (map fst m).

(** *** API keys *)

(** A stored [ApiKey]: the fields the gateway reads, and [createdAt]. *)
Record ApiKeyRow : Type := {
  key : ApiKey;
  keyCreatedAt : option Z
}.

(** [type InsertApiKey]. *)
Record InsertApiKey : Type := {
  newName : string;
  newToken : string;
  newAccountId : string;
  newIsActive : option bool
}.

(** [Partial<ApiKey>]: [None] for a property the object does not have. *)
Record ApiKeyUpdates : Type := {
  setKeyId : option string;
  setKeyName : option string;
  setToken : option string;
  setAccountId : option string;
  setIsActive : option (option bool);
  setKeyCreatedAt : option (option Z)
}.

Definition orKeep {A : Type} (update : option A) (old : A) : A :=
  match update with Some v => v | None => old end.

(** [createApiKey]: the spread of the insert is overridden by the new
    identifier, the time of creation and [isActive: true]. *)
Definition createApiKey (insertApiKey : InsertApiKey) (uuid : string) (now : Z)
    (apiKeys : JSMap ApiKeyRow) : ApiKeyRow * JSMap ApiKeyRow :=
  let apiKey := {|
    key := {| keyId := uuid;
              keyName := newName insertApiKey;
              cloudflareToken := newToken insertApiKey;
              Storage.accountId := newAccountId insertApiKey;
              isActive := Some true |};
    keyCreatedAt := Some now |} in
  (apiKey, Map_set uuid apiKey apiKeys).

Definition getApiKeys (apiKeys : JSMap ApiKeyRow) : list ApiKeyRow :=
  Map_values apiKeys.

Definition truthy (b : option bool) : bool :=
  match b with Some true => true | _ => false end.

Definition getActiveApiKey (apiKeys : JSMap ApiKeyRow) : option ApiKeyRow :=
  find (fun k => truthy (isActive (key k))) (Map_values apiKeys).

(** [{ ...apiKey, ...updates }]. *)
Definition applyKeyUpdates (apiKey : ApiKeyRow) (updates : ApiKeyUpdates) : ApiKeyRow :=
  {| key := {| keyId := orKeep (setKeyId updates) (keyId (key apiKey));
               keyName := orKeep (setKeyName updates) (keyName (key apiKey));
               cloudflareToken := orKeep (setToken updates) (cloudflareToken (key apiKey));
               Storage.accountId :=
                 orKeep (setAccountId updates) (Storage.accountId (key apiKey));
               isActive := orKeep (setIsActive updates) (isActive (key apiKey)) |};
     keyCreatedAt := orKeep (setKeyCreatedAt updates) (keyCreatedAt apiKey) |}.

Definition updateApiKey (id : string) (updates : ApiKeyUpdates)
    (apiKeys : JSMap ApiKeyRow) : option ApiKeyRow * JSMap ApiKeyRow :=
  match Map_get id apiKeys with
  | None => (None, apiKeys)
  | Some apiKey =>
      let updated := applyKeyUpdates apiKey updates in
      (Some updated, Map_set id updated apiKeys)
  end.

Definition deleteApiKey (id : string) (apiKeys : JSMap ApiKeyRow)
    : bool * JSMap ApiKeyRow :=
  (Map_has id apiKeys, Map_delete id apiKeys).

(** The store of the gateway, seen from the map of stored keys. *)
Definition gatewayStore (apiKeys : JSMap ApiKeyRow) (cache : JSMap QueryResult)
    : MemStorage :=
  {| Storage.apiKeys := map (fun e => (fst e, key (snd e))) apiKeys;
     queryResults := cache |}.

(** *** Databases *)

(** [type Database]. *)
Record Database : Type := {
  dbId : string;
  dbName : string;
  dbAccountId : string;
  dbCreatedAt : option Z;
  dbIsActive : option bool
}.

(** [type InsertDatabase]. *)
Record InsertDatabase : Type := {
  newDbId : string;
  newDbName : string;
  newDbAccountId : string;
  newDbIsActive : option bool
}.

Record DatabaseUpdates : Type := {
  setDbId : option string;
  setDbName : option string;
  setDbAccountId : option string;
  setDbCreatedAt : option (option Z);
  setDbIsActive : option (option bool)
}.

(** [createDatabase]: stored under the identifier of the database itself. *)
Definition createDatabase (insertDatabase : InsertDatabase) (now : Z)
    (databases : JSMap Database) : Database * JSMap Database :=
  let database := {| dbId := newDbId insertDatabase;
                     dbName := newDbName insertDatabase;
                     dbAccountId := newDbAccountId insertDatabase;
                     dbCreatedAt := Some now;
                     dbIsActive := Some true |} in
  (database, Map_set (dbId database) database databases).

Definition getDatabases (databases : JSMap Database) : list Database :=
  filter (fun db => truthy (dbIsActive db)) (Map_values databases).

Definition getDatabase (id : string) (databases : JSMap Database) : option Database :=
  Map_get id databases.

Definition applyDbUpdates (database : Database) (updates : DatabaseUpdates) : Database :=
  {| dbId := orKeep (setDbId updates) (dbId database);
     dbName := orKeep (setDbName updates) (dbName database);
     dbAccountId := orKeep (setDbAccountId updates) (dbAccountId database);
     dbCreatedAt := orKeep (setDbCreatedAt updates) (dbCreatedAt database);
     dbIsActive := orKeep (setDbIsActive updates) (dbIsActive database) |}.

Definition updateDatabase (id : string) (updates : DatabaseUpdates)
    (databases : JSMap Database) : option Database * JSMap Database :=
  match Map_get id databases with
  | None => (None, databases)
  | Some database =>
      let updated := applyDbUpdates database updates in
      (Some updated, Map_set id updated databases)
  end.

(** *** Saved queries *)

(** [type SavedQuery]. *)
Record SavedQuery : Type := {
  sqId : string;
  sqName : string;
  sqDescription : option string;
  sqlQuery : string;
  sqDatabaseId : string;
  sqCreatedAt : option Z;
  sqUpdatedAt : option Z
}.

(** [type InsertSavedQuery]. *)
Record InsertSavedQuery : Type := {
  newSqName : string;
  newSqDescription : option string;
  newSqlQuery : string;
  newSqDatabaseId : string
}.

Record SavedQueryUpdates : Type := {
  setSqId : option string;
  setSqName : option string;
  setSqDescription : option (option string);
  setSqlQuery : option string;
  setSqDatabaseId : option string;
  setSqCreatedAt : option (option Z)
}.

(** [createSavedQuery]; the two [new Date()] are read one after the other. *)
Definition createSavedQuery (insertQuery : InsertSavedQuery) (uuid : string)
    (created updated : Z) (savedQueries : JSMap SavedQuery)
    : SavedQuery * JSMap SavedQuery :=
  let savedQuery := {| sqId := uuid;
                       sqName := newSqName insertQuery;
                       sqDescription := newSqDescription insertQuery;
                       sqlQuery := newSqlQuery insertQuery;
                       sqDatabaseId := newSqDatabaseId insertQuery;
                       sqCreatedAt := Some created;
                       sqUpdatedAt := Some updated |} in
  (savedQuery, Map_set uuid savedQuery savedQueries).

(** [getSavedQueries(databaseId?)]: the filter applies when the argument is
    truthy, so neither when it is missing nor when it is the empty string. *)
Definition getSavedQueries (databaseId : option string)
    (savedQueries : JSMap SavedQuery) : list SavedQuery :=
  match databaseId with
  | None | Some "" => Map_values savedQueries
  | Some db => filter (fun q => String.eqb (sqDatabaseId q) db) (Map_values savedQueries)
  end.

Definition getSavedQuery (id : string) (savedQueries : JSMap SavedQuery)
    : option SavedQuery :=
  Map_get id savedQueries.

(** [{ ...query, ...updates, updatedAt: new Date() }]. *)
Definition applySqUpdates (query : SavedQuery) (updates : SavedQueryUpdates) (now : Z)
    : SavedQuery :=
  {| sqId := orKeep (setSqId updates) (sqId query);
     sqName := orKeep (setSqName updates) (sqName query);
     sqDescription := orKeep (setSqDescription updates) (sqDescription query);
     sqlQuery := orKeep (setSqlQuery updates) (sqlQuery query);
     sqDatabaseId := orKeep (setSqDatabaseId updates) (sqDatabaseId query);
     sqCreatedAt := orKeep (setSqCreatedAt updates) (sqCreatedAt query);
     sqUpdatedAt := Some now |}.

Definition updateSavedQuery (id : string) (updates : SavedQueryUpdates) (now : Z)
    (savedQueries : JSMap SavedQuery) : option SavedQuery * JSMap SavedQuery :=
  match Map_get id savedQueries with
  | None => (None, savedQueries)
  | Some query =>
      let updated := applySqUpdates query updates now in
      (Some updated, Map_set id updated savedQueries)
  end.

Definition deleteSavedQuery (id : string) (savedQueries : JSMap SavedQuery)
    : bool * JSMap SavedQuery :=
  (Map_has id savedQueries, Map_delete id savedQueries).

(** *** Chat messages *)

(** [type ChatMessage]. *)
Record ChatMessage : Type := {
  msgId : string;
  content : string;
  role : string;
  msgDatabaseId : option string;
  generatedQuery : option string;
  msgCreatedAt : option Z
}.

(** [type InsertChatMessage]. *)
Record InsertChatMessage : Type := {
  newContent : string;
  newRole : string;
  newMsgDatabaseId : option string;
  newGeneratedQuery : option string
}.

Definition createChatMessage (insertMessage : InsertChatMessage) (uuid : string)
    (now : Z) (chatMessages : JSMap ChatMessage) : ChatMessage * JSMap ChatMessage :=
  let chatMessage := {| msgId := uuid;
                        content := newContent insertMessage;
                        role := newRole insertMessage;
                        msgDatabaseId := newMsgDatabaseId insertMessage;
                        generatedQuery := newGeneratedQuery insertMessage;
                        msgCreatedAt := Some now |} in
  (chatMessage, Map_set uuid chatMessage chatMessages).

(** [m.databaseId === databaseId] for a string [databaseId]. *)
Definition inDatabase (databaseId : string) (m : ChatMessage) : bool :=
  match msgDatabaseId m with
  | Some db => String.eqb db databaseId
  | None => false
  end.

Definition timeOf (m : ChatMessage) : Z :=
  match msgCreatedAt m with Some t => t | None => 0 end.

(** [Array.prototype.sort] with the comparator
    [(a, b) => a.createdAt.getTime() - b.createdAt.getTime()]: the sort is
    stable, so a message goes before the later messages of the same time. *)
Fixpoint insertByTime (x : ChatMessage) (l : list ChatMessage) : list ChatMessage :=
  match l with
  | [] => [x]
  | y :: l' => if timeOf x <=? timeOf y then x :: y :: l' else y :: insertByTime x l'
  end.

Definition sortByTime (l : list ChatMessage) : list ChatMessage :=
  fold_right insertByTime [] l.

(** [databaseId ? messages.filter(m => m.databaseId === databaseId) : messages]:
    the filter applies when the argument is truthy. *)
Definition filteredMessages (databaseId : option string) (messages : list ChatMessage)
    : list ChatMessage :=
  match databaseId with
  | None | Some "" => messages
  | Some db => filter (inDatabase db) messages
  end.

(** [getChatMessages(databaseId?)].  With two messages or more the
    comparator reads every [createdAt], and throws a [TypeError] on one
    that is [null]: the result is then [None]. *)
Definition getChatMessages (databaseId : option string)
    (chatMessages : JSMap ChatMessage) : option (list ChatMessage) :=
  let messages := Map_values chatMessages in
  let filtered := filteredMessages databaseId messages in
  if (Nat.leb 2 (length filtered)
      && existsb (fun m => match msgCreatedAt m with None => true | Some _ => false end)
           filtered)%bool
  then None
  else Some (sortByTime filtered).

(** [clearChatHistory(databaseId?)]: the messages of the database are
    deleted by identifier, one after the other; without a database the map
    is emptied. *)
Definition clearChatHistory (databaseId : option string)
    (chatMessages : JSMap ChatMessage) : bool * JSMap ChatMessage :=
  match databaseId with
  | None | Some "" => (true, [])
  | Some db =>
      (true,
       fold_left (fun m e => if inDatabase db (snd e) then Map_delete (fst e) m else m)
         chatMessages chatMessages)
  end.

End Store.

(** ** server/services/cloudflare.ts: listing the databases *)

Module Listing.
Import JS Wire Eff Cloudflare.

(** An element of [result] in [CloudflareDatabaseListResponse]. *)
Record RemoteDatabase : Type := {
  uuid : string;
  name : string;
  created_at : string;
  version : string;
  running_in_region : string
}.

(** The body of the answer: JSON that fits
    [CloudflareDatabaseListResponse], or text that [response.json()]
    rejects. *)
Inductive ListBody : Type :=
| ListJson (success : bool) (errors : list D1Error)
    (result : option (list RemoteDatabase))
| ListNotJson (syntaxError : string).

Record ListResponse : Type := {
  listStatus : Z;
  listStatusText : string;
  listBody : ListBody
}.

Inductive ListOutcome : Type :=
| ListResponded (r : ListResponse)
| ListRejected (name : string) (message : string).

(** The [GET] that [listDatabases] sends. *)
Record ListRequest : Type := {
  listUrl : string;
  listBearer : string
}.

(** [listDatabases()]: the request sent, and what the call resolves to or
    throws.  Its failures are plain [Error]s, not the two classes. *)
Definition listDatabases (this : CloudflareD1Service) (outcome : ListOutcome)
    : ListRequest * Completion (list RemoteDatabase) :=
  ({| listUrl := baseUrl ++ "/accounts/" ++ Cloudflare.accountId this ++ "/d1/database";
      listBearer := apiToken this |},
   match outcome with
   | ListRejected n m => Throw (OtherError n m)
   | ListResponded response =>
       if negb ((200 <=? listStatus response) && (listStatus response <=? 299))%bool then
         Throw (OtherError "Error"
                  ("Failed to list databases: " ++ listStatusText response))
       else
         match listBody response with
         | ListNotJson m => Throw (OtherError "SyntaxError" m)
         | ListJson success errors result =>
             if negb success then
               Throw (OtherError "Error"
                        ("Cloudflare API error: " ++ errorMessages errors))
             else Normal (match result with Some dbs => dbs | None => [] end)
         end
   end).

End Listing.

(** ** server/routes.ts: keys, databases, schema, saved queries *)

Module Admin.
Import JS Wire Storage Eff Cloudflare Routes Store Listing.

(** What a handler sends when the body is not always an object. *)
Record Reply : Type := {
  replyStatus : Z;
  replyBody : JSValue
}.

Definition messageReply (status : Z) (message : string) : Reply :=
  {| replyStatus := status; replyBody := JObj [("message", JStr message)] |}.

Definition successReply : Reply :=
  {| replyStatus := 200; replyBody := JObj [("success", JBool true)] |}.

(** [{ isActive: false }]. *)
Definition deactivate : ApiKeyUpdates :=
  {| setKeyId := None; setKeyName := None; setToken := None; setAccountId := None;
     setIsActive := Some (Some false); setKeyCreatedAt := None |}.

Section Handlers.

(** [Date.prototype.toISOString], which [res.json] applies to a date. *)
Variable toISOString : Z -> string.

Variable beyondSafe : Z -> string.

Definition dateValue (d : option Z) : JSValue :=
  match d with Some t => JStr (toISOString t) | None => JNull end.

Definition boolValue (b : option bool) : JSValue :=
  match b with Some v => JBool v | None => JNull end.

(** The key as the handlers answer it: without the token. *)
Definition safeApiKey (apiKey : ApiKeyRow) : JSValue :=
  JObj [("id", JStr (keyId (key apiKey)));
        ("name", JStr (keyName (key apiKey)));
        ("accountId", JStr (Storage.accountId (key apiKey)));
        ("isActive", boolValue (isActive (key apiKey)));
        ("createdAt", dateValue (keyCreatedAt apiKey))].

(** The loop that deactivates the keys listed by [getApiKeys]. *)
Definition deactivateAll (existingKeys : list ApiKeyRow) (apiKeys : JSMap ApiKeyRow)
    : JSMap ApiKeyRow :=
  fold_left (fun m k => snd (updateApiKey (keyId (key k)) deactivate m))
    existingKeys apiKeys.

(** [POST /api/api-keys]; [parsed] is what [insertApiKeySchema.parse] gives
    for the body, the error it throws or the data. *)
Definition postApiKey (parsed : JSError + InsertApiKey) (outcome : ListOutcome)
    (uuid : string) (now : Z) (apiKeys : JSMap ApiKeyRow)
    : Reply * JSMap ApiKeyRow * list ListRequest :=
  match parsed with
  | inl error => (messageReply 400 (errorMessage error), apiKeys, [])
  | inr data =>
      let cloudflare := {| Cloudflare.accountId := newAccountId data;
                           apiToken := newToken data |} in
      match listDatabases cloudflare outcome with
      | (request, Throw error) =>
          (messageReply 400 (errorMessage error), apiKeys, [request])
      | (request, Normal _) =>
          let existingKeys := getApiKeys apiKeys in
          let deactivated := deactivateAll existingKeys apiKeys in
          let (apiKey, stored) := createApiKey data uuid now deactivated in
          ({| replyStatus := 200; replyBody := safeApiKey apiKey |}, stored, [request])
      end
  end.

(** [GET /api/api-keys]. *)
Definition getApiKeysRoute (apiKeys : JSMap ApiKeyRow) : Reply :=
  {| replyStatus := 200; replyBody := JArr (map safeApiKey (getApiKeys apiKeys)) |}.

(** [DELETE /api/api-keys/:id]. *)
Definition deleteApiKeyRoute (id : string) (apiKeys : JSMap ApiKeyRow)
    : Reply * JSMap ApiKeyRow :=
  let (success, remaining) := deleteApiKey id apiKeys in
  if negb success then (messageReply 404 "API key not found", remaining)
  else (successReply, remaining).

(** [DELETE /api/saved-queries/:id]. *)
Definition deleteSavedQueryRoute (id : string) (savedQueries : JSMap SavedQuery)
    : Reply * JSMap SavedQuery :=
  let (success, remaining) := deleteSavedQuery id savedQueries in
  if negb success then (messageReply 404 "Saved query not found", remaining)
  else (successReply, remaining).

(** The element of the answer for a database of the remote list. *)
Definition listedDatabase (db : RemoteDatabase) : JSValue :=
  JObj [("id", JStr (uuid db)); ("uuid", JStr (uuid db)); ("name", JStr (name db));
        ("created_at", JStr (created_at db)); ("version", JStr (version db));
        ("running_in_region", JStr (running_in_region db))].

(** The loop of [GET /api/databases] over the remote list: each database is
    stored, at the time the clock gives for its position. *)
Fixpoint mirrorDatabases (accountId : string) (clock : nat -> Z) (position : nat)
    (remote : list RemoteDatabase) (databases : JSMap Database) : JSMap Database :=
  match remote with
  | [] => databases
  | db :: rest =>
      mirrorDatabases accountId clock (S position) rest
        (snd (createDatabase {| newDbId := uuid db; newDbName := name db;
                                newDbAccountId := accountId;
                                newDbIsActive := None |}
                (clock position) databases))
  end.

(** The element of the answer for a stored database, with the mock token:
    [created_at] falls back on the current time. *)
Definition mockDatabase (clock : nat -> Z) (position : nat) (db : Database) : JSValue :=
  JObj [("id", JStr (dbId db)); ("uuid", JStr (dbId db)); ("name", JStr (dbName db));
        ("created_at",
         JStr (match dbCreatedAt db with
               | Some t => toISOString t
               | None => toISOString (clock position)
               end));
        ("version", JStr "1.0"); ("running_in_region", JStr "dev")].

Fixpoint mapWithPosition {A B : Type} (f : nat -> A -> B) (position : nat) (l : list A)
    : list B :=
  match l with
  | [] => []
  | x :: rest => f position x :: mapWithPosition f (S position) rest
  end.

(** [GET /api/databases]. *)
Definition getDatabasesRoute (development : bool) (outcome : ListOutcome)
    (clock : nat -> Z) (apiKeys : JSMap ApiKeyRow) (databases : JSMap Database)
    : Reply * JSMap Database * list ListRequest :=
  match getActiveApiKey apiKeys with
  | None => (messageReply 400 "No active API key configured", databases, [])
  | Some apiKey =>
      if isMock development (key apiKey) then
        ({| replyStatus := 200;
            replyBody := JArr (mapWithPosition (mockDatabase clock) 0 (getDatabases databases)) |},
         databases, [])
      else
        match listDatabases (serviceFor (key apiKey)) outcome with
        | (request, Throw error) =>
            (messageReply 500 (errorMessage error), databases, [request])
        | (request, Normal cloudflareResponse) =>
            ({| replyStatus := 200; replyBody := JArr (map listedDatabase cloudflareResponse) |},
             mirrorDatabases (Storage.accountId (key apiKey)) clock 0
               cloudflareResponse databases,
             [request])
        end
  end.

(** [GET /api/databases/:id/schema]. *)
Definition schemaRoute (development : bool) (outcome : FetchOutcome) (id : string)
    : M Reply :=
  tryCatch
    (apiKey <- storage_getActiveApiKey ;;
     match apiKey with
     | None => ret (messageReply 400 "No active API key configured")
     | Some apiKey =>
         schema <- getDatabaseSchema beyondSafe (serviceFor apiKey) development id
                     outcome ;;
         ret {| replyStatus := 200; replyBody := rowsValue schema |}
     end)
    (fun error => ret (messageReply 500 (errorMessage error))).

End Handlers.

End Admin.

(** ** convertToCSV (server/routes.ts and client/src/lib/export.ts) *)

Module Csv.
Import JS.

(** The line feed, U+000A. *)
Definition newline : string := String (ascii_of_nat 10) EmptyString.

(** The global [value.replace] of the handler: every double quote is
    written twice. *)
Fixpoint doubleQuotes (s : string) : string :=
  match s with
  | EmptyString => EmptyString
  | String c s' =>
      if Ascii.eqb c (ascii_of_nat 34) then String c (String c (doubleQuotes s'))
      else String c (doubleQuotes s')
  end.

Section Convert.

Variable beyondSafe : Z -> string.

(** [Number::toString] of the decimal m / 10^e. *)
Variable fractionToString : Z -> nat -> string.

(** [ToString]: an array is its elements joined with commas, [null] and
    [undefined] among them as the empty string; an object is the text
    [object Object] in brackets. *)
Fixpoint toString (v : JSValue) : string :=
  match v with
  | JUndefined => "undefined"
  | JNull => "null"
  | JBool true => "true"
  | JBool false => "false"
  | JNum z => Number_toString beyondSafe z
  | JDec m e => fractionToString m e
  | JStr s => s
  | JArr items =>
      join "," (map (fun item => match item with
                                 | JUndefined | JNull => ""
                                 | _ => toString item
                                 end) items)
  | JObj _ => "[object Object]"
  end.

(** One value of a row as [join] writes it: a string with a comma or a
    double quote is wrapped in double quotes, its own quotes doubled; any
    other value is left to [join]. *)
Definition cell (value : JSValue) : string :=
  match value with
  | JStr text =>
      if (includes text "," || includes text dquote)%bool
      then dquote ++ doubleQuotes text ++ dquote
      else text
  | JUndefined | JNull => ""
  | _ => toString value
  end.

Definition rowLine (headers : list string) (row : JSObject) : string :=
  join "," (map (fun header => cell (prop row header)) headers).

(** [convertToCSV(data)]; [None] is a missing [data].  The headers are
    [Object.keys] of the first row: a row lists its properties in that
    order. *)
Definition convertToCSV (data : option (list JSObject)) : string :=
  match data with
  | None | Some [] => ""
  | Some (first :: rest) =>
      let headers := map fst first in
      let csvHeaders := join "," headers in
      let csvRows := map (rowLine headers) (first :: rest) in
      join newline (csvHeaders :: csvRows)
  end.

End Convert.

End Csv.

(** ** client: the pages of the results table (query-results.tsx) *)

Module Client.
Import JS.

Definition itemsPerPage : Z := 10.

(** [sortedData.slice(startIndex, startIndex + itemsPerPage)], for a page
    from 1 on. *)
Definition paginatedData {A : Type} (sortedData : list A) (currentPage : Z) : list A :=
  let startIndex := (currentPage - 1) * itemsPerPage in
  slice sortedData startIndex (startIndex + itemsPerPage).

(** [Math.ceil(sortedData.length / itemsPerPage)]: the quotient rounded
    up, for a length that is not negative. *)
Definition totalPages {A : Type} (sortedData : list A) : Z :=
  (Z.of_nat (length sortedData) + itemsPerPage - 1) / itemsPerPage.

(** The two arrows: [Math.max(1, prev - 1)] and
    [Math.min(totalPages, prev + 1)]. *)
Definition previousPage (prev : Z) : Z := Z.max 1 (prev - 1).

Definition nextPage (total prev : Z) : Z := Z.min total (prev + 1).

(** The two numbers of "Showing a-b of n results". *)
Definition showingFrom (currentPage : Z) : Z := (currentPage - 1) * itemsPerPage + 1.

Definition showingTo {A : Type} (sortedData : list A) (currentPage : Z) : Z :=
  Z.min (currentPage * itemsPerPage) (Z.of_nat (length sortedData)).

End Client.

(** ** Conditions on the store and its callers *)

Module StoreSpec.
Import JS Wire Storage Eff Store Listing.

(** Every key is stored under its own identifier. *)
Definition keysOwnIds (apiKeys : JSMap ApiKeyRow) : Prop :=
  forall k v, In (k, v) apiKeys -> keyId (key v) = k.

(** Two stored keys that differ at most in their tokens. *)
Definition sameButToken (a b : ApiKeyRow) : Prop :=
  keyId (key a) = keyId (key b) /\ keyName (key a) = keyName (key b)
  /\ Storage.accountId (key a) = Storage.accountId (key b)
  /\ isActive (key a) = isActive (key b) /\ keyCreatedAt a = keyCreatedAt b.

(** Every saved query is stored under its own identifier. *)
Definition queriesOwnIds (savedQueries : JSMap SavedQuery) : Prop :=
  forall k v, In (k, v) savedQueries -> sqId v = k.

(** The answer that lets [listDatabases] resolve: 2xx, JSON, [success]. *)
Definition listAccepted (outcome : ListOutcome) : Prop :=
  exists response errors result,
    outcome = ListResponded response
    /\ 200 <= listStatus response <= 299
    /\ listBody response = ListJson true errors result.

(** The calls that write chat messages. *)
Inductive ChatCall : Type :=
| Create (insertMessage : InsertChatMessage) (uuid : string) (now : Z)
| Clear (databaseId : option string).

Definition chatStep (chatMessages : JSMap ChatMessage) (c : ChatCall)
    : JSMap ChatMessage :=
  match c with
  | Create i uuid now => snd (createChatMessage i uuid now chatMessages)
  | Clear db => snd (clearChatHistory db chatMessages)
  end.

(** Earlier or at the same time. *)
Definition notLater (a b : ChatMessage) : Prop := timeOf a <= timeOf b.

(** The page numbers 1, ..., n. *)
Definition pageNumbers (n : nat) : list Z := map Z.of_nat (seq 1 n).

End StoreSpec.

(** ** server/index.ts: the data added in development *)

Module Startup.
Import JS Storage Store.

(** [process.env.X] as a condition: set, and not to the empty string. *)
Definition isSet (variable : option string) : bool :=
  match variable with
  | None | Some "" => false
  | Some _ => true
  end.

Definition valueOf (variable : option string) : string :=
  match variable with Some v => v | None => "" end.

(** What the server stores before the routes are registered, starting from
    the empty store, when [app.get("env")] is [development]:
    [accountIdVar] and [tokenVar] are CLOUDFLARE_ACCOUNT_ID and
    CLOUDFLARE_API_TOKEN, [clock] gives the successive times of creation. *)
Definition seed (appDevelopment : bool) (accountIdVar tokenVar : option string)
    (uuid : string) (clock : nat -> Z) : JSMap ApiKeyRow * JSMap Database :=
  if appDevelopment then
    if (isSet accountIdVar && isSet tokenVar)%bool then
      (snd (createApiKey {| newName := "Real Cloudflare Account";
                            newToken := valueOf tokenVar;
                            newAccountId := valueOf accountIdVar;
                            newIsActive := Some true |} uuid (clock 0%nat) []),
       [])
    else
      let apiKeys :=
        snd (createApiKey {| newName := "Mock Development Key";
                             newToken := "mock-token-for-testing";
                             newAccountId := "mock-account-id";
                             newIsActive := Some true |} uuid (clock 0%nat) []) in
      let databases :=
        snd (createDatabase {| newDbId := "db-test-1"; newDbName := "Users Database";
                               newDbAccountId := "mock-account-id";
                               newDbIsActive := None |} (clock 1%nat) []) in
      let databases :=
        snd (createDatabase {| newDbId := "db-test-2"; newDbName := "Analytics Database";
                               newDbAccountId := "mock-account-id";
                               newDbIsActive := None |} (clock 2%nat) databases) in
      (apiKeys, databases)
  else ([], []).

End Startup.

(** ** Concrete stores and requests for the handlers above *)

Module Fixture.
Import JS Wire Storage Eff Cloudflare Routes Store Listing Admin.

(** Stand-ins for the two conversions the handlers take as parameters. *)
Definition toISOString (t : Z) : string := "T+" ++ decimal t.

Definition fractionToString (m : Z) (e : nat) : string :=
  decimal m ++ "e-" ++ decimal (Z.of_nat e).

Definition remoteUsers : RemoteDatabase :=
  {| uuid := "db-1"; name := "users"; created_at := "2024-01-01T00:00:00.000Z";
     version := "production"; running_in_region := "WEUR" |}.

(** 200 with [success: true] and one database. *)
Definition accepted : ListOutcome :=
  ListResponded {| listStatus := 200; listStatusText := "OK";
                   listBody := ListJson true [] (Some [remoteUsers]) |}.

(** U+00A0, the no-break space, as a query string gives it (%C2%A0). *)
Definition nbsp : string :=
  String (ascii_of_nat 194) (String (ascii_of_nat 160) EmptyString).

(** The store of keys with the key of [Sample], created at time 5. *)
Definition oldKey : ApiKeyRow := {| key := Sample.key; keyCreatedAt := Some 5 |}.

Definition keys : JSMap ApiKeyRow := [("key-1", oldKey)].

(** The same key with another token. *)
Definition keysOtherToken : JSMap ApiKeyRow :=
  [("key-1",
    {| key := {| keyId := "key-1"; keyName := "production";
                 cloudflareToken := "another-token";
                 Storage.accountId := "account"; isActive := Some true |};
       keyCreatedAt := Some 5 |})].

Definition newKey (token : string) : InsertApiKey :=
  {| newName := "staging"; newToken := token; newAccountId := "account-2";
     newIsActive := None |}.

(** A world over a store of keys and a cache, before any request. *)
Definition worldOf (apiKeys : JSMap ApiKeyRow) (cache : JSMap QueryResult) : World :=
  {| storage := gatewayStore apiKeys cache; calls := []; logs := [] |}.

(** The development store with the mock key. *)
Definition mockKey : ApiKey :=
  {| keyId := "key-0"; keyName := "Mock Development Key";
     cloudflareToken := "mock-token-for-testing";
     Storage.accountId := "mock-account-id"; isActive := Some true |}.

Definition mockWorld : World :=
  {| storage := {| apiKeys := [("key-0", mockKey)]; queryResults := [] |};
     calls := []; logs := [] |}.

Definition mockQueryEnv : QueryEnv :=
  {| qDevelopment := true; qStartTime := 1000; qCheckTime := 1001;
     qMockStart := 1001; qMockEnd := 1002;
     qFetch := Rejected "TypeError" "fetch failed";
     qSuccessTime := 1020; qCatchTime := 1030; qUuid := "entry-1";
     qCreatedAt := 1021; qTimestamp := "2024-03-01T00:00:00.000Z" |}.

Definition mockTableEnv : TableEnv :=
  {| tDevelopment := true; tStartTime := 1000;
     tSchemaFetch := Rejected "TypeError" "fetch failed";
     tNotFoundTime := 1010; tMockTime := 1010;
     tSelectFetch := Rejected "TypeError" "fetch failed";
     tSuccessTime := 1020; tCatchTime := 1030;
     tTimestamp := "2024-03-01T00:00:00.000Z" |}.

Definition savedReport : SavedQuery :=
  {| sqId := "q-1"; sqName := "report"; sqDescription := None;
     sqlQuery := "SELECT 1"; sqDatabaseId := "db-1";
     sqCreatedAt := Some 10; sqUpdatedAt := Some 10 |}.

Definition savedQueries : JSMap SavedQuery := [("q-1", savedReport)].

Definition countUsers : InsertSavedQuery :=
  {| newSqName := "count"; newSqDescription := Some "users";
     newSqlQuery := "SELECT COUNT(*) FROM users"; newSqDatabaseId := "db-1" |}.

Definition said (id text : string) (db : option string) (time : Z) : ChatMessage :=
  {| msgId := id; content := text; role := "user"; msgDatabaseId := db;
     generatedQuery := None; msgCreatedAt := Some time |}.

(** Three messages, the second stored before an earlier one. *)
Definition chat : JSMap ChatMessage :=
  [("m-1", said "m-1" "first" (Some "db-1") 10);
   ("m-2", said "m-2" "third" (Some "db-1") 30);
   ("m-3", said "m-3" "second" (Some "db-2") 20)].

End Fixture.

(** ** Properties *)

Import JS Wire Storage Eff Cloudflare Routes Spec.

(** *** Strings *)

Lemma prefix_occurs (pat s : string) :
  prefix pat s = true <-> exists b, s = pat ++ b.
Proof.
  revert s. induction pat as [|c pat IH]; intros s; simpl.
  - split; [intros _; exists s; reflexivity | intros _; destruct s; reflexivity].
  - destruct s as [|d s].
    + split; [discriminate | intros [b Hb]; discriminate].
    + simpl. destruct (ascii_dec c d) as [->|Hne].
      * rewrite IH. split; intros [b Hb]; exists b; [now rewrite Hb | now inversion Hb].
      * split; [discriminate | intros [b Hb]; inversion Hb; congruence].
Qed.

Lemma includes_unfold (s pat : string) :
  includes s pat =
  if prefix pat s then true
  else match s with
       | EmptyString => false
       | String _ s' => includes s' pat
       end.
Proof. destruct s; reflexivity. Qed.

Lemma includes_occurs (s pat : string) :
  includes s pat = true <-> occurs pat s.
Proof.
  unfold occurs. induction s as [|c s IH]; rewrite includes_unfold.
  - destruct (prefix pat "") eqn:Hp.
    + split; [intros _ | reflexivity].
      apply prefix_occurs in Hp. destruct Hp as [b Hb]. exists "", b. exact Hb.
    + split; [discriminate|]. intros (a & b & Hab).
      destruct a; [|discriminate]. simpl in Hab.
      assert (prefix pat "" = true) by (apply prefix_occurs; eauto). congruence.
  - destruct (prefix pat (String c s)) eqn:Hp.
    + split; [intros _ | reflexivity].
      apply prefix_occurs in Hp. destruct Hp as [b Hb]. exists "", b. exact Hb.
    + rewrite IH. split.
      * intros (a & b & Hab). exists (String c a), b. simpl. now rewrite Hab.
      * intros (a & b & Hab). destruct a as [|d a]; simpl in Hab.
        -- assert (prefix pat (String c s) = true) by (apply prefix_occurs; eauto).
           congruence.
        -- inversion Hab. eauto.
Qed.

Lemma includes_false (s pat : string) :
  includes s pat = false <-> ~ occurs pat s.
Proof.
  rewrite <- includes_occurs. destruct (includes s pat); split; congruence.
Qed.

(** *** The store *)

Section MapSet.

Context {V : Type}.
Variable f : V -> bool.

(** Writing under a key the map does not hold appends the entry, so the
    first match of a search stays the first match. *)
Lemma find_Map_set_fresh (k : string) (v : V) (m : JSMap V) (e : V) :
  ~ In k (map fst m) ->
  find f (Map_values m) = Some e ->
  find f (Map_values (Map_set k v m)) = Some e.
Proof.
  unfold Map_values. induction m as [|[k' v'] m IH]; simpl; [discriminate|].
  intros Hk Hfind. destruct (String.eqb_spec k' k) as [->|Hne]; [tauto|].
  simpl. destruct (f v'); [exact Hfind|]. apply IH; tauto.
Qed.

(** When nothing matched before, a matching entry written under any key is
    the one found. *)
Lemma find_Map_set_none (k : string) (v : V) (m : JSMap V) :
  f v = true ->
  find f (Map_values m) = None ->
  find f (Map_values (Map_set k v m)) = Some v.
Proof.
  unfold Map_values. intros Hv. induction m as [|[k' v'] m IH]; simpl.
  - now rewrite Hv.
  - destruct (f v') eqn:Hv'; [discriminate|]. intros Hfind.
    destruct (String.eqb k' k); simpl.
    + now rewrite Hv.
    + rewrite Hv'. now apply IH.
Qed.

End MapSet.

(** A cache entry is only ever returned for the hash and the database it
    was stored under. *)
Lemma getQueryResult_key (h db : string) (st : MemStorage) (e : QueryResult) :
  getQueryResult h db st = Some e -> queryHash e = h /\ databaseId e = db.
Proof.
  unfold getQueryResult. intros H. apply find_some in H. destruct H as [_ H].
  apply andb_true_iff in H. destruct H as [H1 H2].
  now apply String.eqb_eq in H1, H2.
Qed.

Lemma getQueryResult_other_database (h db db' : string) (st : MemStorage)
    (e : QueryResult) :
  getQueryResult h db' st = Some e -> databaseId e = db -> db' = db.
Proof. intros H <-. now apply getQueryResult_key in H. Qed.

(** The first execution of a pair creates its entry. *)
Lemma getQueryResult_created (i : InsertQueryResult) (uuid : string) (now : Z)
    (st : MemStorage) :
  getQueryResult (insQueryHash i) (insDatabaseId i) st = None ->
  getQueryResult (insQueryHash i) (insDatabaseId i)
    (snd (createQueryResult i uuid now st))
  = Some (fst (createQueryResult i uuid now st)).
Proof.
  unfold getQueryResult, createQueryResult. simpl. intros H.
  apply find_Map_set_none; [|exact H].
  simpl. now rewrite !String.eqb_refl.
Qed.

(** An entry that is already there hides every entry stored after it. *)
Lemma getQueryResult_shadowed (h db : string) (i : InsertQueryResult)
    (uuid : string) (now : Z) (st : MemStorage) (e : QueryResult) :
  ~ In uuid (map fst (queryResults st)) ->
  getQueryResult h db st = Some e ->
  getQueryResult h db (snd (createQueryResult i uuid now st)) = Some e.
Proof.
  unfold getQueryResult, createQueryResult. simpl. intros Hk H.
  now apply find_Map_set_fresh.
Qed.

Lemma createQueryResult_apiKeys (i : InsertQueryResult) (uuid : string) (now : Z)
    (st : MemStorage) :
  getActiveApiKey (snd (createQueryResult i uuid now st)) = getActiveApiKey st.
Proof. reflexivity. Qed.

(** C5.  The code does not give last-write-wins: [createQueryResult] stores
    every entry under a new identifier and [getQueryResult] returns the
    first match in insertion order, so after two puts for one pair
    (fingerprint, database) a get returns the rows and the creation time of
    the earlier put, not those of the later one. *)
Theorem later_put_does_not_supersede
    (st : MemStorage) (i1 i2 : InsertQueryResult) (u1 u2 : string) (t1 t2 : Z) :
  insQueryHash i2 = insQueryHash i1 ->
  insDatabaseId i2 = insDatabaseId i1 ->
  getQueryResult (insQueryHash i1) (insDatabaseId i1) st = None ->
  let st1 := snd (createQueryResult i1 u1 t1 st) in
  ~ In u2 (map fst (queryResults st1)) ->
  let st2 := snd (createQueryResult i2 u2 t2 st1) in
  exists e,
    getQueryResult (insQueryHash i1) (insDatabaseId i1) st2 = Some e
    /\ id e = u1
    /\ Storage.results e = insResults i1
    /\ createdAt e = Some t1.
Proof.
  intros Hh Hd Hnone st1 Hfresh st2.
  exists (fst (createQueryResult i1 u1 t1 st)). split.
  - unfold st2. apply getQueryResult_shadowed; [exact Hfresh|].
    unfold st1. now apply getQueryResult_created.
  - repeat split.
Qed.

(** *** The remote client *)

Lemma isSQLErrorMessage_spec (e : D1Error) :
  isSQLErrorMessage e = true <-> userSignature (toLowerCase (messageText e)).
Proof.
  unfold isSQLErrorMessage, userSignature, messageText.
  assert (E : match message e with Some m => toLowerCase m | None => "" end
              = toLowerCase match message e with Some m => m | None => "" end)
    by (destruct (message e); reflexivity).
  rewrite E.
  repeat rewrite orb_true_iff. rewrite andb_true_iff.
  repeat rewrite includes_occurs. tauto.
Qed.

Lemma isSQLError_spec (errs : list D1Error) :
  isSQLError errs = true <-> anyUserSignature errs.
Proof.
  unfold isSQLError, anyUserSignature. rewrite existsb_exists, Exists_exists.
  split; intros (e & He & H); exists e; split; trivial;
    now apply isSQLErrorMessage_spec.
Qed.

Lemma errorMessages_join (errs : list D1Error) :
  errorMessages errs = join ", " (map messageText errs).
Proof. reflexivity. Qed.

Ltac run :=
  unfold bind, ret, throw, tryCatch, fetch, consoleWrite,
    storage_getActiveApiKey, storage_getQueryResult, storage_createQueryResult.

Section Client.

Variable beyondSafe : Z -> string.
Variable this : CloudflareD1Service.
Variables databaseId query : string.

(** Whatever the outcome, [executeQuery] sends exactly one request and
    touches neither the store nor the log. *)
Lemma executeQuery_sends (o : FetchOutcome) (w : World) :
  snd (executeQuery beyondSafe this databaseId query o w)
  = sent (queryRequest this databaseId query) w.
Proof.
  unfold executeQuery. run. destruct o as [r|n m]; simpl; [|reflexivity].
  destruct (ok r); simpl.
  - destruct (body r) as [data|m]; [|reflexivity].
    destruct (success data); simpl; [reflexivity|].
    destruct (isSQLError (errors data)); reflexivity.
  - destruct ((status r =? 401) || (status r =? 403))%bool; reflexivity.
Qed.

(** A rejected [fetch] reaches the caller as it is. *)
Lemma executeQuery_rejected (n m : string) (w : World) :
  fst (executeQuery beyondSafe this databaseId query (Rejected n m) w)
  = Throw (OtherError n m).
Proof. reflexivity. Qed.

(** A response outside 2xx is thrown as a [CloudflareSystemError] that
    carries the status code. *)
Lemma executeQuery_not_ok (r : HttpResponse) (w : World) :
  ok r = false ->
  exists m, fst (executeQuery beyondSafe this databaseId query (Responded r) w)
            = Throw (CloudflareSystemError m (Some (status r)) []).
Proof.
  intros H. unfold executeQuery. run. simpl. rewrite H. simpl.
  destruct ((status r =? 401) || (status r =? 403))%bool;
    eexists; reflexivity.
Qed.

(** [success: false] with a recognised message is a [CloudflareUserError],
    otherwise a [CloudflareSystemError] without a status code; both carry
    the joined messages. *)
Lemma executeQuery_application_failure (r : HttpResponse)
    (data : CloudflareD1Response) (w : World) :
  ok r = true -> body r = Json data -> success data = false ->
  fst (executeQuery beyondSafe this databaseId query (Responded r) w)
  = if isSQLError (errors data)
    then Throw (CloudflareUserError (errorMessages (errors data)) (errors data))
    else Throw (CloudflareSystemError (errorMessages (errors data)) None (errors data)).
Proof.
  intros Hok Hb Hs. unfold executeQuery. run. simpl.
  rewrite Hok, Hb, Hs. simpl.
  destruct (isSQLError (errors data)); reflexivity.
Qed.

(** [success: true] resolves to the rows and the counters of the result. *)
Lemma executeQuery_success (r : HttpResponse) (data : CloudflareD1Response)
    (w : World) :
  ok r = true -> body r = Json data -> success data = true ->
  exists out,
    fst (executeQuery beyondSafe this databaseId query (Responded r) w) = Normal out
    /\ changes out = match result data with
                     | Some res => Wire.changes res
                     | None => None
                     end
    /\ results out = match result data with
                     | Some res => match Wire.results res with
                                   | Some rows => rows
                                   | None => []
                                   end
                     | None => []
                     end.
Proof.
  intros Hok Hb Hs. unfold executeQuery. run. simpl.
  rewrite Hok, Hb, Hs. simpl. eexists. split; [reflexivity|]. split; reflexivity.
Qed.

End Client.

(** *** POST /api/databases/:id/query *)

Section QueryRoute.

Variable md5hex : string -> string.
Variable beyondSafe : Z -> string.


Lemma queryRoute_remote_throw env id q w key e w1 :
  reachesRemote md5hex env id q w key ->
  executeQuery beyondSafe (serviceFor key) id q (qFetch env) w = (Throw e, w1) ->
  queryRoute md5hex beyondSafe env id (Some q) w = queryCatch beyondSafe env id (md5hex q) e w1.
Proof.
  intros (Hq & Hkey & Hmock & Hmiss) Hex.
  unfold Routes.queryRoute. destruct q as [|c q]; [contradiction|].
  run. rewrite Hkey, Hmiss, Hmock, Hex. reflexivity.
Qed.

Lemma queryRoute_remote_normal env id q w key result w1 :
  reachesRemote md5hex env id q w key ->
  executeQuery beyondSafe (serviceFor key) id q (qFetch env) w = (Normal result, w1) ->
  let executionTime := millis beyondSafe (qSuccessTime env - qStartTime env) in
  queryRoute md5hex beyondSafe env id (Some q) w =
  (Normal {| statusCode := 200;
             payload := [("results", rowsValue (results result));
                         ("executionTime", JStr executionTime);
                         ("rowCount", JNum (lengthOf (results result)));
                         ("changes", optNumber (changes result));
                         ("cached", JBool false)] |},
   {| storage :=
        snd (createQueryResult
               {| insQueryHash := md5hex q;
                  insDatabaseId := id;
                  insResults := results result;
                  insExecutionTime := Some executionTime;
                  insRowCount :=
                    Some (Number_toString beyondSafe (lengthOf (results result))) |}
               (qUuid env) (qCreatedAt env) (storage w1));
      calls := calls w1;
      logs := logs w1 ++
        [{| console := Log; tag := "[QUERY SUCCESS]";
            data := [("dbId", JStr id); ("queryHash", JStr (md5hex q));
                     ("duration", JStr executionTime);
                     ("rowCount", JNum (lengthOf (results result)));
                     ("timestamp", JStr (qTimestamp env))] |}] |}).
Proof.
  intros (Hq & Hkey & Hmock & Hmiss) Hex.
  unfold Routes.queryRoute. destruct q as [|c q]; [contradiction|].
  run. rewrite Hkey, Hmiss, Hmock, Hex. reflexivity.
Qed.

(** C1.  An HTTP 2xx answer with [success: false] is classified by its
    messages.  If some attached message, lower-cased, contains one of the
    signatures ("syntax error", "no such table", "no such column", "near ",
    "sql error", "parse error", "duplicate column", both "table" and
    "already exists", "constraint"), [executeQuery] throws a
    [CloudflareUserError], and the handler answers 400 with the joined
    messages of the remote service as its message.  If no message matches,
    [executeQuery] throws a [CloudflareSystemError]. *)
Theorem application_failure_classified
    (env : QueryEnv) (id q : string) (w : World) (key : ApiKey)
    (r : HttpResponse) (data : CloudflareD1Response) :
  reachesRemote md5hex env id q w key ->
  qFetch env = Responded r ->
  ok r = true -> body r = Json data -> success data = false ->
  let thrown := fst (executeQuery beyondSafe (serviceFor key) id q (qFetch env) w) in
  let joined := join ", " (map messageText (errors data)) in
  (anyUserSignature (errors data) ->
     thrown = Throw (CloudflareUserError joined (errors data)) /\
     exists resp,
       fst (queryRoute md5hex beyondSafe env id (Some q) w) = Normal resp
       /\ statusCode resp = 400
       /\ prop (payload resp) "message" = JStr joined)
  /\
  (~ anyUserSignature (errors data) ->
     thrown = Throw (CloudflareSystemError joined None (errors data))).
Proof.
  intros Hreach Hf Hok Hb Hs. cbv zeta.
  pose proof (executeQuery_application_failure beyondSafe (serviceFor key) id q
                r data w Hok Hb Hs) as Hthrown.
  rewrite <- Hf in Hthrown. rewrite errorMessages_join in Hthrown.
  split; intros Hsig.
  - apply isSQLError_spec in Hsig. rewrite Hsig in Hthrown. split; [exact Hthrown|].
    destruct (executeQuery beyondSafe (serviceFor key) id q (qFetch env) w)
      as [c w1] eqn:Hex.
    simpl in Hthrown. subst c.
    rewrite (queryRoute_remote_throw env id q w key _ w1 Hreach Hex).
    eexists. split; [reflexivity|]. split; reflexivity.
  - destruct (isSQLError (errors data)) eqn:E; [|exact Hthrown].
    apply isSQLError_spec in E. contradiction.
Qed.

(** The [catch] block answers and logs; the store and the requests sent
    stay as they are. *)
Lemma queryCatch_world (env : QueryEnv) (id h : string) (e : JSError) (w : World) :
  exists resp entry,
    queryCatch beyondSafe env id h e w
    = (Normal resp,
       {| storage := storage w; calls := calls w; logs := logs w ++ [entry] |})
    /\ statusCode resp <> 200
    /\ failureShape "results" resp.
Proof.
  unfold queryCatch, failureShape. run.
  destruct e; simpl; do 2 eexists; (split; [reflexivity|]);
    (split; [discriminate | split; reflexivity]).
Qed.

Lemma remoteFailure_throws (this : CloudflareD1Service) (id q : string)
    (o : FetchOutcome) (w : World) :
  remoteFailure o ->
  exists e, fst (executeQuery beyondSafe this id q o w) = Throw e.
Proof.
  intros [Ht|Ha].
  - destruct o as [r|n m]; simpl in Ht.
    + destruct (executeQuery_not_ok beyondSafe this id q r w Ht) as [m Hm]. eauto.
    + eexists. reflexivity.
  - destruct o as [r|n m]; simpl in Ha; [|contradiction].
    destruct Ha as (Hok & data & Hb & Hs).
    rewrite (executeQuery_application_failure beyondSafe this id q r data w Hok Hb Hs).
    destruct (isSQLError (errors data)); eauto.
Qed.

(** Every answer other than 200 leaves the store as it was: only
    successful executions are cached. *)
Lemma only_success_is_cached
    (env : QueryEnv) (id : string) (query : option string) (w : World)
    (resp : Response) :
  fst (queryRoute md5hex beyondSafe env id query w) = Normal resp ->
  statusCode resp <> 200 ->
  storage (snd (queryRoute md5hex beyondSafe env id query w)) = storage w.
Proof.
  unfold Routes.queryRoute.
  destruct query as [[|c q]|]; simpl; try reflexivity.
  run. destruct (getActiveApiKey (storage w)) as [key|]; simpl; try reflexivity.
  destruct (freshHit (qCheckTime env)
              (getQueryResult (md5hex (String c q)) id (storage w))) as [hit|];
    simpl; [intros H; inversion H; subst; simpl; congruence|].
  destruct (isMock (qDevelopment env) key);
    simpl; [intros H; inversion H; subst; simpl; congruence|].
  pose proof (executeQuery_sends beyondSafe (serviceFor key) id (String c q)
                (qFetch env) w) as Hsent.
  destruct (executeQuery beyondSafe (serviceFor key) id (String c q) (qFetch env) w)
    as [[out|e] w1] eqn:Hex; simpl in Hsent; subst w1.
  - intros H. inversion H; subst; simpl; congruence.
  - destruct (queryCatch_world env id (md5hex (String c q)) e
                (sent (queryRequest (serviceFor key) id (String c q)) w))
      as (r & entry & Hc & _ & _).
    rewrite Hc. reflexivity.
Qed.

(** C4.  A call whose remote execution fails, at the transport or in the
    application, creates and modifies no cache entry: the store after the
    call is the store before it, and the answer is a failure. *)
Theorem failed_execution_leaves_cache
    (env : QueryEnv) (id : string) (query : option string) (w : World) :
  calls (snd (queryRoute md5hex beyondSafe env id query w)) <> calls w ->
  remoteFailure (qFetch env) ->
  storage (snd (queryRoute md5hex beyondSafe env id query w)) = storage w
  /\ exists resp,
       fst (queryRoute md5hex beyondSafe env id query w) = Normal resp
       /\ statusCode resp <> 200
       /\ failureShape "results" resp.
Proof.
  unfold Routes.queryRoute.
  destruct query as [[|c q]|]; simpl; try congruence.
  run. destruct (getActiveApiKey (storage w)) as [key|]; simpl; try congruence.
  destruct (freshHit (qCheckTime env)
              (getQueryResult (md5hex (String c q)) id (storage w))) as [hit|];
    simpl; [congruence|].
  destruct (isMock (qDevelopment env) key); simpl; [congruence|].
  intros _ Hfail.
  pose proof (executeQuery_sends beyondSafe (serviceFor key) id (String c q)
                (qFetch env) w) as Hsent.
  destruct (remoteFailure_throws (serviceFor key) id (String c q) (qFetch env) w Hfail)
    as [e He].
  destruct (executeQuery beyondSafe (serviceFor key) id (String c q) (qFetch env) w)
    as [c1 w1] eqn:Hex; simpl in Hsent, He; subst c1 w1.
  destruct (queryCatch_world env id (md5hex (String c q)) e
              (sent (queryRequest (serviceFor key) id (String c q)) w))
    as (resp & entry & Hc & Hst & Hshape).
  rewrite Hc. simpl. split; [reflexivity|]. eauto.
Qed.

Lemma queryRoute_hit env id q w key hit :
  q <> "" ->
  getActiveApiKey (storage w) = Some key ->
  freshHit (qCheckTime env) (getQueryResult (md5hex q) id (storage w)) = Some hit ->
  queryRoute md5hex beyondSafe env id (Some q) w = (Normal (cachedResponse hit), w).
Proof.
  intros Hq Hkey Hhit.
  unfold Routes.queryRoute. destruct q as [|c q]; [contradiction|].
  run. rewrite Hkey, Hhit. reflexivity.
Qed.

(** A response outside 2xx is answered with 500 and a fixed message; what
    the remote service said goes to the error log only. *)
Lemma http_error_is_system_error env id q w key r :
  reachesRemote md5hex env id q w key ->
  qFetch env = Responded r -> ok r = false ->
  exists detail,
    fst (executeQuery beyondSafe (serviceFor key) id q (qFetch env) w)
    = Throw (CloudflareSystemError detail (Some (status r)) [])
    /\ queryRoute md5hex beyondSafe env id (Some q) w
       = (Normal {| statusCode := 500;
                    payload :=
                      [("message",
                        JStr "Internal server error occurred while executing query");
                       ("results", JArr []); ("rowCount", JNum 0);
                       ("executionTime",
                        JStr (millis beyondSafe (qCatchTime env - qStartTime env)))] |},
          {| storage := storage w;
             calls := calls w ++ [queryRequest (serviceFor key) id q];
             logs := logs w ++
               [{| console := Error; tag := "[QUERY SYSTEM_ERROR]";
                   data :=
                     [("dbId", JStr id); ("queryHash", JStr (md5hex q));
                      ("duration",
                       JStr (millis beyondSafe (qCatchTime env - qStartTime env)));
                      ("errorType", JStr "CloudflareSystemError");
                      ("errorMessage", JStr detail);
                      ("timestamp", JStr (qTimestamp env))] |}] |}).
Proof.
  intros Hreach Hf Hok.
  pose proof (executeQuery_sends beyondSafe (serviceFor key) id q (qFetch env) w) as Hs.
  destruct (executeQuery_not_ok beyondSafe (serviceFor key) id q r w Hok) as [m Hm].
  rewrite <- Hf in Hm. exists m. split; [exact Hm|].
  destruct (executeQuery beyondSafe (serviceFor key) id q (qFetch env) w)
    as [c w1] eqn:Hex.
  simpl in Hm, Hs. subst c w1.
  rewrite (queryRoute_remote_throw env id q w key _ _ Hreach Hex). reflexivity.
Qed.

(** C3.  A connection error is not classified as a system error: a rejected
    [fetch] leaves [executeQuery] as the error it is, not as a
    [CloudflareSystemError], and the handler treats it as an unknown error:
    500 with the message "Failed to execute query", logged under
    [QUERY UNKNOWN_ERROR]. *)
Theorem connection_error_is_unknown_error env id q w key n m :
  reachesRemote md5hex env id q w key ->
  qFetch env = Rejected n m ->
  fst (executeQuery beyondSafe (serviceFor key) id q (qFetch env) w)
  = Throw (OtherError n m)
  /\ queryRoute md5hex beyondSafe env id (Some q) w
     = (Normal {| statusCode := 500;
                  payload :=
                    [("message", JStr "Failed to execute query");
                     ("results", JArr []); ("rowCount", JNum 0);
                     ("executionTime",
                      JStr (millis beyondSafe (qCatchTime env - qStartTime env)))] |},
        {| storage := storage w;
           calls := calls w ++ [queryRequest (serviceFor key) id q];
           logs := logs w ++
             [{| console := Error; tag := "[QUERY UNKNOWN_ERROR]";
                 data :=
                   [("dbId", JStr id); ("queryHash", JStr (md5hex q));
                    ("duration",
                     JStr (millis beyondSafe (qCatchTime env - qStartTime env)));
                    ("errorType", JStr n);
                    ("errorMessage", JStr m);
                    ("timestamp", JStr (qTimestamp env))] |}] |}).
Proof.
  intros Hreach Hf. rewrite Hf. split; [reflexivity|].
  assert (Hex : executeQuery beyondSafe (serviceFor key) id q (qFetch env) w
                = (Throw (OtherError n m),
                   sent (queryRequest (serviceFor key) id q) w))
    by (rewrite Hf; reflexivity).
  rewrite (queryRoute_remote_throw env id q w key _ _ Hreach Hex). reflexivity.
Qed.

(** C9.  The two early rejections of the query handler do not carry the
    shape of a failure: the answer to an empty query is 400 with a message
    only, without [results] and without [rowCount]. *)
Theorem empty_query_rejection_lacks_shape env id w :
  exists resp,
    queryRoute md5hex beyondSafe env id (Some "") w = (Normal resp, w)
    /\ statusCode resp = 400
    /\ payload resp = [("message", JStr "Query is required")]
    /\ hasField (payload resp) "results" = false
    /\ hasField (payload resp) "rowCount" = false
    /\ ~ failureShape "results" resp.
Proof.
  eexists. split; [reflexivity|]. repeat split.
  intros [H _]. discriminate.
Qed.

(** The same holds when the query is missing or no key is active. *)
Lemma missing_query_rejection env id w :
  queryRoute md5hex beyondSafe env id None w
  = (Normal {| statusCode := 400;
               payload := [("message", JStr "Query is required")] |}, w).
Proof. reflexivity. Qed.

Lemma no_credential_rejection env id q w :
  q <> "" -> getActiveApiKey (storage w) = None ->
  queryRoute md5hex beyondSafe env id (Some q) w
  = (Normal {| statusCode := 400;
               payload := [("message", JStr "No active API key configured")] |}, w).
Proof.
  intros Hq Hkey. unfold Routes.queryRoute. destruct q; [contradiction|].
  run. now rewrite Hkey.
Qed.

(** A first execution that succeeds: the answer, the entry it stores and
    the single request it sends. *)
Lemma first_execution env id q w key r data :
  reachesRemote md5hex env id q w key ->
  qFetch env = Responded r ->
  ok r = true -> body r = Json data -> success data = true ->
  exists out,
    fst (executeQuery beyondSafe (serviceFor key) id q (qFetch env) w) = Normal out
    /\ changes out = match result data with
                     | Some res => Wire.changes res
                     | None => None
                     end
    /\ let executionTime := millis beyondSafe (qSuccessTime env - qStartTime env) in
       let run := queryRoute md5hex beyondSafe env id (Some q) w in
       fst run
       = Normal {| statusCode := 200;
                   payload := [("results", rowsValue (results out));
                               ("executionTime", JStr executionTime);
                               ("rowCount", JNum (lengthOf (results out)));
                               ("changes", optNumber (changes out));
                               ("cached", JBool false)] |}
       /\ storage (snd run)
          = snd (createQueryResult
                   {| insQueryHash := md5hex q;
                      insDatabaseId := id;
                      insResults := results out;
                      insExecutionTime := Some executionTime;
                      insRowCount :=
                        Some (Number_toString beyondSafe (lengthOf (results out))) |}
                   (qUuid env) (qCreatedAt env) (storage w))
       /\ calls (snd run) = (calls w ++ [queryRequest (serviceFor key) id q])%list.
Proof.
  intros Hreach Hf Hok Hb Hs.
  destruct (executeQuery_success beyondSafe (serviceFor key) id q r data w Hok Hb Hs)
    as (out & Hout & Hch & _).
  pose proof (executeQuery_sends beyondSafe (serviceFor key) id q (qFetch env) w) as Hsent.
  rewrite <- Hf in Hout. exists out. split; [exact Hout|]. split; [exact Hch|].
  destruct (executeQuery beyondSafe (serviceFor key) id q (qFetch env) w)
    as [c w1] eqn:Hex.
  simpl in Hout, Hsent. subst c w1. cbv zeta.
  rewrite (queryRoute_remote_normal env id q w key out _ Hreach Hex).
  repeat split.
Qed.


(** An answer marked [cached: true] is the answer built from a fresh entry
    of the store, and the call that gave it changed nothing. *)
Lemma served_from_cache env id query w resp :
  fst (queryRoute md5hex beyondSafe env id query w) = Normal resp ->
  prop (payload resp) "cached" = JBool true ->
  exists q hit,
    query = Some q
    /\ getQueryResult (md5hex q) id (storage w) = Some hit
    /\ isFresh (qCheckTime env) hit = true
    /\ resp = cachedResponse hit
    /\ snd (queryRoute md5hex beyondSafe env id query w) = w.
Proof.
  unfold Routes.queryRoute.
  destruct query as [[|c q]|]; simpl;
    try (intros [= <-]; simpl; discriminate).
  run. destruct (getActiveApiKey (storage w)) as [key|]; simpl;
    try (intros [= <-]; simpl; discriminate).
  destruct (getQueryResult (md5hex (String c q)) id (storage w)) as [hit|] eqn:Hget;
    simpl.
  - destruct (isFresh (qCheckTime env) hit) eqn:Hfresh; simpl.
    + intros [= <-] _. exists (String c q), hit. auto.
    + destruct (isMock (qDevelopment env) key); simpl;
        [intros [= <-]; simpl; discriminate|].
      destruct (executeQuery beyondSafe (serviceFor key) id (String c q) (qFetch env) w)
        as [[out|e] w1]; simpl; [intros [= <-]; simpl; discriminate|].
      destruct e; simpl; intros [= <-]; simpl; discriminate.
  - destruct (isMock (qDevelopment env) key); simpl;
      [intros [= <-]; simpl; discriminate|].
    destruct (executeQuery beyondSafe (serviceFor key) id (String c q) (qFetch env) w)
      as [[out|e] w1]; simpl; [intros [= <-]; simpl; discriminate|].
    destruct e; simpl; intros [= <-]; simpl; discriminate.
Qed.


(** C2.  Two calls in a row with the same database and the same text,
    the second within the freshness window of the first, can both go to the
    remote service.  Once the pair has an expired entry, the entry stored by
    the first call comes after it in the map, [getQueryResult] still
    returns the expired one, and the second call executes again: two
    requests are sent and the second answer is not served from the cache.
    (On a pair the cache has never seen, the second call is a hit:
    [cold_cache_two_calls].) *)
Theorem expired_entry_defeats_cache env1 env2 id q w key e0 r data :
  q <> "" ->
  getActiveApiKey (storage w) = Some key ->
  isMock (qDevelopment env1) key = false ->
  isMock (qDevelopment env2) key = false ->
  getQueryResult (md5hex q) id (storage w) = Some e0 ->
  isFresh (qCheckTime env1) e0 = false ->
  isFresh (qCheckTime env2) e0 = false ->
  ~ In (qUuid env1) (map fst (queryResults (storage w))) ->
  qFetch env1 = Responded r ->
  ok r = true -> body r = Json data -> success data = true ->
  qCheckTime env2 - qCreatedAt env1 < freshnessWindow ->
  let run1 := queryRoute md5hex beyondSafe env1 id (Some q) w in
  let run2 := queryRoute md5hex beyondSafe env2 id (Some q) (snd run1) in
  let request := queryRequest (serviceFor key) id q in
  (exists resp1, fst run1 = Normal resp1 /\ statusCode resp1 = 200
                 /\ prop (payload resp1) "cached" = JBool false)
  /\ calls (snd run2) = (calls w ++ [request; request])%list
  /\ (forall resp2, fst run2 = Normal resp2 ->
      prop (payload resp2) "cached" <> JBool true).
Proof.
  intros Hq Hkey Hmock1 Hmock2 He0 Hstale1 Hstale2 Hfresh Hf Hok Hb Hs Hwin.
  cbv zeta.
  assert (Hreach1 : reachesRemote md5hex env1 id q w key).
  { repeat split; trivial. rewrite He0. simpl. now rewrite Hstale1. }
  destruct (first_execution env1 id q w key r data Hreach1 Hf Hok Hb Hs)
    as (out & _ & _ & Hrun & Hst & Hcalls).
  destruct (queryRoute md5hex beyondSafe env1 id (Some q) w) as [c1 w1] eqn:H1.
  cbn [fst snd] in Hrun, Hst, Hcalls |- *.
  split; [subst c1; eexists; repeat split|].
  assert (Hreach2 : reachesRemote md5hex env2 id q w1 key).
  { repeat split; trivial.
    - rewrite Hst. exact Hkey.
    - rewrite Hst.
      rewrite (getQueryResult_shadowed (md5hex q) id _ (qUuid env1) (qCreatedAt env1)
                 (storage w) e0 Hfresh He0).
      simpl. now rewrite Hstale2. }
  pose proof (executeQuery_sends beyondSafe (serviceFor key) id q (qFetch env2) w1)
    as Hsent.
  destruct (executeQuery beyondSafe (serviceFor key) id q (qFetch env2) w1)
    as [[out2|e] w2] eqn:Hex; cbn [snd] in Hsent; subst w2.
  - rewrite (queryRoute_remote_normal env2 id q w1 key out2 _ Hreach2 Hex).
    cbn [fst snd calls sent]. rewrite Hcalls, <- app_assoc. split; [reflexivity|].
    intros resp2 H. inversion H; subst resp2. simpl. discriminate.
  - rewrite (queryRoute_remote_throw env2 id q w1 key e _ Hreach2 Hex).
    destruct (queryCatch_world env2 id (md5hex q) e
                (sent (queryRequest (serviceFor key) id q) w1))
      as (resp & entry & Hc & _ & _).
    rewrite Hc. cbn [fst snd calls sent]. rewrite Hcalls, <- app_assoc.
    split; [reflexivity|].
    intros resp2 H. inversion H; subst resp2.
    clear - Hc. unfold Routes.queryCatch in Hc. revert Hc. run.
    destruct e; simpl; intros Hc; inversion Hc; subst; simpl; discriminate.
Qed.

End QueryRoute.

(** *** GET /api/databases/:id/tables/:table/rows *)

Lemma limit_check (n : JSNumber) :
  (isNaN n || lt n 1 || gt n 100)%bool = false <-> validLimit n.
Proof.
  unfold validLimit. destruct n as [|z]; simpl.
  - split; [discriminate | intros (z & H & _); discriminate].
  - rewrite orb_false_iff, Z.ltb_ge, Z.ltb_ge. split.
    + intros [H1 H2]. exists z. split; [reflexivity | lia].
    + intros (z' & H & Hz). inversion H; subst. lia.
Qed.

Lemma offset_check (n : JSNumber) :
  (isNaN n || lt n 0)%bool = false <-> validOffset n.
Proof.
  unfold validOffset. destruct n as [|z]; simpl.
  - split; [discriminate | intros (z & H & _); discriminate].
  - rewrite Z.ltb_ge. split.
    + intros H. exists z. split; [reflexivity | lia].
    + intros (z' & H & Hz). inversion H; subst. lia.
Qed.

Lemma strictEqStr_spec (v : JSValue) (s : string) :
  strictEqStr v s = true <-> v = JStr s.
Proof.
  destruct v; simpl; try (split; [discriminate | intros H; discriminate]).
  rewrite String.eqb_eq. split; [now intros -> | now intros [= ->]].
Qed.

Lemma tableExists_spec (schema : list JSObject) (tableName : string) :
  tableExists schema tableName = true <-> listedAsTable schema tableName.
Proof.
  unfold tableExists, listedAsTable. rewrite existsb_exists.
  split; intros (item & Hin & H); exists item; split; trivial.
  - apply andb_true_iff in H. now rewrite !strictEqStr_spec in H.
  - apply andb_true_iff. now rewrite !strictEqStr_spec.
Qed.

Section TableRoute.

Variable beyondSafe : Z -> string.

(** Fetching the schema sends nothing with the mock token in development,
    and otherwise the introspection query alone. *)
Lemma getDatabaseSchema_calls this development databaseId o w c w1 :
  getDatabaseSchema beyondSafe this development databaseId o w = (c, w1) ->
  storage w1 = storage w /\ logs w1 = logs w
  /\ (calls w1 = calls w
      \/ calls w1 = (calls w ++ [queryRequest this databaseId schemaQuery])%list).
Proof.
  unfold getDatabaseSchema.
  destruct (development && String.eqb (apiToken this) "mock-token-for-testing")%bool.
  - intros [= <- <-]. auto.
  - run.
    pose proof (executeQuery_sends beyondSafe this databaseId schemaQuery o w) as Hs.
    destruct (executeQuery beyondSafe this databaseId schemaQuery o w)
      as [[out|e] w'] eqn:Hex; cbn [snd] in Hs; subst w';
      intros [= <- <-]; auto.
Qed.

(** The handler after the checks that come before the schema is fetched. *)
Lemma tableRowsRoute_checked env databaseId tableName limitParam offsetParam w
    key schema w1 :
  validLimit (limitOf limitParam) -> validOffset (offsetOf offsetParam) ->
  getActiveApiKey (storage w) = Some key ->
  getDatabaseSchema beyondSafe (serviceFor key) (tDevelopment env) databaseId
    (tSchemaFetch env) w = (Normal schema, w1) ->
  tableRowsRoute beyondSafe env databaseId tableName limitParam offsetParam w
  = tryCatch
      (browseChecked beyondSafe env databaseId tableName
         (limitOf limitParam) (offsetOf offsetParam) key schema)
      (tableRowsCatch beyondSafe env databaseId tableName
         (match limitParam with Some l => l | None => "50" end)) w1.
Proof.
  intros Hl Ho Hkey Hschema.
  apply limit_check in Hl. apply offset_check in Ho.
  unfold limitOf, offsetOf in *. unfold tableRowsRoute. run.
  rewrite Hl, Ho, Hkey, Hschema. reflexivity.
Qed.

Lemma tableRowsRoute_invalid_limit env databaseId tableName limitParam offsetParam w :
  (isNaN (limitOf limitParam) || lt (limitOf limitParam) 1
   || gt (limitOf limitParam) 100)%bool = true ->
  tableRowsRoute beyondSafe env databaseId tableName limitParam offsetParam w
  = (Normal (invalidPage "Limit must be a number between 1 and 100"), w).
Proof.
  intros H. unfold limitOf in H. unfold tableRowsRoute. run. now rewrite H.
Qed.

Lemma tableRowsRoute_invalid_offset env databaseId tableName limitParam offsetParam w :
  validLimit (limitOf limitParam) ->
  (isNaN (offsetOf offsetParam) || lt (offsetOf offsetParam) 0)%bool = true ->
  tableRowsRoute beyondSafe env databaseId tableName limitParam offsetParam w
  = (Normal (invalidPage "Offset must be a non-negative number"), w).
Proof.
  intros Hl H. apply limit_check in Hl. unfold limitOf, offsetOf in *.
  unfold tableRowsRoute. run. now rewrite Hl, H.
Qed.

Lemma tableRowsRoute_no_key env databaseId tableName limitParam offsetParam w :
  validLimit (limitOf limitParam) -> validOffset (offsetOf offsetParam) ->
  getActiveApiKey (storage w) = None ->
  tableRowsRoute beyondSafe env databaseId tableName limitParam offsetParam w
  = (Normal (invalidPage "No active API key configured"), w).
Proof.
  intros Hl Ho Hkey. apply limit_check in Hl. apply offset_check in Ho.
  unfold limitOf, offsetOf in *. unfold tableRowsRoute. run.
  now rewrite Hl, Ho, Hkey.
Qed.

Lemma tableRowsRoute_schema_throw env databaseId tableName limitParam offsetParam w
    key e w1 :
  validLimit (limitOf limitParam) -> validOffset (offsetOf offsetParam) ->
  getActiveApiKey (storage w) = Some key ->
  getDatabaseSchema beyondSafe (serviceFor key) (tDevelopment env) databaseId
    (tSchemaFetch env) w = (Throw e, w1) ->
  tableRowsRoute beyondSafe env databaseId tableName limitParam offsetParam w
  = tableRowsCatch beyondSafe env databaseId tableName
      (match limitParam with Some l => l | None => "50" end) e w1.
Proof.
  intros Hl Ho Hkey Hschema. apply limit_check in Hl. apply offset_check in Ho.
  unfold limitOf, offsetOf in *. unfold tableRowsRoute. run.
  now rewrite Hl, Ho, Hkey, Hschema.
Qed.

(** The cases of a page request. *)
Lemma page_cases (limitParam offsetParam : option string) :
  (isNaN (limitOf limitParam) || lt (limitOf limitParam) 1
   || gt (limitOf limitParam) 100)%bool = true
  \/ (validLimit (limitOf limitParam)
      /\ (isNaN (offsetOf offsetParam) || lt (offsetOf offsetParam) 0)%bool = true)
  \/ (validLimit (limitOf limitParam) /\ validOffset (offsetOf offsetParam)).
Proof.
  destruct (isNaN (limitOf limitParam) || lt (limitOf limitParam) 1
            || gt (limitOf limitParam) 100)%bool eqn:El; [now left|].
  apply limit_check in El. right.
  destruct (isNaN (offsetOf offsetParam) || lt (offsetOf offsetParam) 0)%bool eqn:Eo;
    [now left|].
  apply offset_check in Eo. now right.
Qed.

(** C6, amended.  A page request whose limit, as [parseInt(limit, 10)]
    reads it (the integer in front of the text, after white space and a
    sign), is not a number in [1,100], or whose offset read the same way is
    not a number >= 0, is answered with 400 and the shape of a failure, and
    the world is left as it was: no request is sent to the remote
    service. *)
Theorem invalid_page_rejected_before_remote
    env databaseId tableName limitParam offsetParam w :
  ~ validLimit (limitOf limitParam) \/ ~ validOffset (offsetOf offsetParam) ->
  exists resp,
    tableRowsRoute beyondSafe env databaseId tableName limitParam offsetParam w
    = (Normal resp, w)
    /\ statusCode resp = 400
    /\ failureShape "rows" resp
    /\ calls (snd (tableRowsRoute beyondSafe env databaseId tableName
                     limitParam offsetParam w)) = calls w.
Proof.
  intros H.
  destruct (page_cases limitParam offsetParam) as [El|[[Hl Eo]|[Hl Ho]]].
  - rewrite (tableRowsRoute_invalid_limit env databaseId tableName _ _ w El).
    eexists. repeat split.
  - rewrite (tableRowsRoute_invalid_offset env databaseId tableName _ _ w Hl Eo).
    eexists. repeat split.
  - tauto.
Qed.

(** C7.  When the fetched schema does not list the table with kind
    [table], the answer is 400 with the message that the table does not
    exist, logged as [TableNotFound] on the ordinary console, and nothing
    is sent after the schema was fetched: the [SELECT] is never issued. *)
Theorem unknown_table_rejected_without_select
    env databaseId tableName limitParam offsetParam w key schema w1 :
  validLimit (limitOf limitParam) -> validOffset (offsetOf offsetParam) ->
  getActiveApiKey (storage w) = Some key ->
  getDatabaseSchema beyondSafe (serviceFor key) (tDevelopment env) databaseId
    (tSchemaFetch env) w = (Normal schema, w1) ->
  ~ listedAsTable schema tableName ->
  exists resp entry,
    tableRowsRoute beyondSafe env databaseId tableName limitParam offsetParam w
    = (Normal resp,
       {| storage := storage w1; calls := calls w1; logs := logs w1 ++ [entry] |})
    /\ statusCode resp = 400
    /\ prop (payload resp) "message"
       = JStr ("Table '" ++ tableName ++ "' does not exist")
    /\ failureShape "rows" resp
    /\ console entry = Log
    /\ prop (data entry) "errorType" = JStr "TableNotFound"
    /\ (forall c, In c (calls w1) -> In c (calls w) \/ sql c = schemaQuery).
Proof.
  intros Hl Ho Hkey Hschema Hno.
  rewrite (tableRowsRoute_checked env databaseId tableName limitParam offsetParam
             w key schema w1 Hl Ho Hkey Hschema).
  unfold browseChecked.
  destruct (tableExists schema tableName) eqn:E;
    [apply tableExists_spec in E; contradiction|].
  run. simpl. do 2 eexists. split; [reflexivity|]. repeat split.
  intros c Hc.
  destruct (getDatabaseSchema_calls _ _ _ _ _ _ _ Hschema) as (_ & _ & [Hs|Hs]);
    rewrite Hs in Hc; [now left|].
  apply in_app_or in Hc. destruct Hc as [Hc|[<-|[]]]; [now left | now right].
Qed.

Lemma small_is_safe (z : Z) : 1 <= z <= 100 -> isSafe z = true.
Proof.
  intros H. unfold isSafe, maxSafe. apply Z.leb_le.
  rewrite Z.abs_eq by lia. change (2 ^ 53) with 9007199254740992. lia.
Qed.

Lemma tableRowsSuccess_world env databaseId tableName limitNum offsetNum now rows w :
  exists resp entry,
    tableRowsSuccess beyondSafe env databaseId tableName limitNum offsetNum now rows w
    = (Normal resp,
       {| storage := storage w; calls := calls w; logs := logs w ++ [entry] |})
    /\ statusCode resp = 200.
Proof. unfold tableRowsSuccess. run. do 2 eexists. split; reflexivity. Qed.

Lemma tableRowsCatch_world env databaseId tableName limit e w :
  exists resp entry,
    tableRowsCatch beyondSafe env databaseId tableName limit e w
    = (Normal resp,
       {| storage := storage w; calls := calls w; logs := logs w ++ [entry] |})
    /\ statusCode resp <> 200
    /\ failureShape "rows" resp.
Proof.
  unfold tableRowsCatch, failureShape. run.
  destruct e; simpl; do 2 eexists; (split; [reflexivity|]);
    (split; [discriminate | split; reflexivity]).
Qed.

(** After the schema is fetched the handler sends nothing, or the [SELECT]
    for a table that the schema lists. *)
Lemma browseChecked_calls env databaseId tableName limitNum offsetNum key schema
    limit w1 :
  let run := tryCatch
               (browseChecked beyondSafe env databaseId tableName limitNum offsetNum
                  key schema)
               (tableRowsCatch beyondSafe env databaseId tableName limit) w1 in
  calls (snd run) = calls w1
  \/ (listedAsTable schema tableName
      /\ calls (snd run)
         = (calls w1 ++ [queryRequest (serviceFor key) databaseId
                           (browseQuery beyondSafe tableName limitNum offsetNum)])%list).
Proof.
  cbv zeta. unfold browseChecked.
  destruct (tableExists schema tableName) eqn:E; cbn [negb].
  - apply tableExists_spec in E.
    destruct (isMock (tDevelopment env) key).
    + unfold tryCatch.
      match goal with
      | |- context [tableRowsSuccess ?b ?e ?d ?t ?l ?o ?n ?r ?w] =>
          destruct (tableRowsSuccess_world e d t l o n r w) as (resp & entry & H & _)
      end.
      rewrite H. now left.
    + right. split; [exact E|]. unfold tryCatch, bind.
      pose proof (executeQuery_sends beyondSafe (serviceFor key) databaseId
                    (browseQuery beyondSafe tableName limitNum offsetNum)
                    (tSelectFetch env) w1) as Hsent.
      destruct (executeQuery beyondSafe (serviceFor key) databaseId
                  (browseQuery beyondSafe tableName limitNum offsetNum)
                  (tSelectFetch env) w1)
        as [[out|e] w2] eqn:Hex; cbn [snd] in Hsent; subst w2.
      * match goal with
        | |- context [tableRowsSuccess ?b ?e ?d ?t ?l ?o ?n ?r ?w] =>
            destruct (tableRowsSuccess_world e d t l o n r w) as (resp & entry & H & _)
        end.
        rewrite H. reflexivity.
      * match goal with
        | |- context [tableRowsCatch ?b ?e' ?d ?t ?l ?x ?w] =>
            destruct (tableRowsCatch_world e' d t l x w) as (resp & entry & H & _)
        end.
        rewrite H. reflexivity.
  - left. reflexivity.
Qed.

(** Whatever the request, what the handler sends is the introspection
    query, or the [SELECT] for a table that the fetched schema lists. *)
Lemma select_only_after_membership
    env databaseId tableName limitParam offsetParam w :
  exists sentNow,
    calls (snd (tableRowsRoute beyondSafe env databaseId tableName
                  limitParam offsetParam w)) = (calls w ++ sentNow)%list
    /\ forall c, In c sentNow -> sql c <> schemaQuery ->
       exists key schema w1,
         getActiveApiKey (storage w) = Some key
         /\ getDatabaseSchema beyondSafe (serviceFor key) (tDevelopment env)
              databaseId (tSchemaFetch env) w = (Normal schema, w1)
         /\ listedAsTable schema tableName
         /\ c = queryRequest (serviceFor key) databaseId
                  (browseQuery beyondSafe tableName
                     (limitOf limitParam) (offsetOf offsetParam)).
Proof.
  assert (Hnil : forall l : list FetchRequest, l = (l ++ [])%list)
    by (intros; now rewrite app_nil_r).
  destruct (page_cases limitParam offsetParam) as [El|[[Hl Eo]|[Hl Ho]]].
  { rewrite (tableRowsRoute_invalid_limit env databaseId tableName _ _ w El).
    exists []. split; [apply Hnil | intros c []]. }
  { rewrite (tableRowsRoute_invalid_offset env databaseId tableName _ _ w Hl Eo).
    exists []. split; [apply Hnil | intros c []]. }
  destruct (getActiveApiKey (storage w)) as [key|] eqn:Hkey.
  2:{ rewrite (tableRowsRoute_no_key env databaseId tableName _ _ w Hl Ho Hkey).
      exists []. split; [apply Hnil | intros c []]. }
  destruct (getDatabaseSchema beyondSafe (serviceFor key) (tDevelopment env)
              databaseId (tSchemaFetch env) w) as [[schema|e] w1] eqn:Hschema.
  - rewrite (tableRowsRoute_checked env databaseId tableName limitParam offsetParam
               w key schema w1 Hl Ho Hkey Hschema).
    destruct (getDatabaseSchema_calls _ _ _ _ _ _ _ Hschema) as (_ & _ & Hs).
    destruct (browseChecked_calls env databaseId tableName
                (limitOf limitParam) (offsetOf offsetParam) key schema
                (match limitParam with Some l => l | None => "50" end) w1)
      as [Hc|[Hlisted Hc]]; rewrite Hc.
    + destruct Hs as [Hs|Hs]; rewrite Hs; eexists; (split; [|intros c Hin Hne]).
      * apply Hnil.
      * destruct Hin.
      * reflexivity.
      * destruct Hin as [<-|[]]. now elim Hne.
    + destruct Hs as [Hs|Hs]; rewrite Hs; try rewrite <- app_assoc;
        eexists; (split; [reflexivity|]); intros c Hin Hne; simpl in Hin;
        repeat (destruct Hin as [<-|Hin]; [try (now elim Hne)|]);
        try contradiction; exists key, schema, w1; auto.
  - destruct (getDatabaseSchema_calls _ _ _ _ _ _ _ Hschema) as (_ & _ & Hs).
    rewrite (tableRowsRoute_schema_throw env databaseId tableName _ _ w key e w1
               Hl Ho Hkey Hschema).
    destruct (tableRowsCatch_world env databaseId tableName
                (match limitParam with Some l => l | None => "50" end) e w1)
      as (resp & entry & Hc & _).
    rewrite Hc. cbn [snd calls].
    destruct Hs as [Hs|Hs]; rewrite Hs; eexists; (split; [|intros c Hin Hne]).
    + apply Hnil.
    + destruct Hin.
    + reflexivity.
    + destruct Hin as [<-|[]]. now elim Hne.
Qed.

(** C8.  For a request that passes validation and whose table the fetched
    schema lists with kind [table], the text sent to the remote service is
    exactly SELECT * FROM, the table name between double quotes, LIMIT and
    the limit, OFFSET and the offset.  And whatever the request, a [SELECT]
    is sent only for a table name that passed the membership check. *)
Theorem browse_query_text
    env databaseId tableName limitParam offsetParam w key schema w1 :
  validLimit (limitOf limitParam) -> validOffset (offsetOf offsetParam) ->
  getActiveApiKey (storage w) = Some key ->
  isMock (tDevelopment env) key = false ->
  getDatabaseSchema beyondSafe (serviceFor key) (tDevelopment env) databaseId
    (tSchemaFetch env) w = (Normal schema, w1) ->
  listedAsTable schema tableName ->
  (exists l o,
     limitOf limitParam = Num l /\ offsetOf offsetParam = Num o /\
     calls (snd (tableRowsRoute beyondSafe env databaseId tableName
                   limitParam offsetParam w))
     = (calls w1 ++
        [{| url := baseUrl ++ "/accounts/" ++ Storage.accountId key
                   ++ "/d1/database/" ++ databaseId ++ "/query";
            bearer := cloudflareToken key;
            sql := "SELECT * FROM " ++ dquote ++ tableName ++ dquote
                   ++ " LIMIT " ++ decimal l
                   ++ " OFFSET " ++ Number_toString beyondSafe o |}])%list)
  /\
  (forall env' databaseId' tableName' limitParam' offsetParam' w',
   exists sentNow,
     calls (snd (tableRowsRoute beyondSafe env' databaseId' tableName'
                   limitParam' offsetParam' w')) = (calls w' ++ sentNow)%list
     /\ forall c, In c sentNow -> sql c <> schemaQuery ->
        exists key' schema' w1',
          getActiveApiKey (storage w') = Some key'
          /\ getDatabaseSchema beyondSafe (serviceFor key') (tDevelopment env')
               databaseId' (tSchemaFetch env') w' = (Normal schema', w1')
          /\ listedAsTable schema' tableName'
          /\ c = queryRequest (serviceFor key') databaseId'
                   (browseQuery beyondSafe tableName'
                      (limitOf limitParam') (offsetOf offsetParam'))).
Proof.
  intros Hl Ho Hkey Hmock Hschema Hlisted.
  split; [|intros; apply select_only_after_membership].
  destruct Hl as (l & Hl & Hlr). destruct Ho as (o & Ho & Hor).
  exists l, o. split; [exact Hl|]. split; [exact Ho|].
  rewrite (tableRowsRoute_checked env databaseId tableName limitParam offsetParam
             w key schema w1); trivial; try (eexists; eauto).
  rewrite Hl, Ho. unfold browseChecked.
  apply tableExists_spec in Hlisted. rewrite Hlisted, Hmock. cbn [negb].
  unfold tryCatch, bind.
  pose proof (executeQuery_sends beyondSafe (serviceFor key) databaseId
                (browseQuery beyondSafe tableName (Num l) (Num o))
                (tSelectFetch env) w1) as Hsent.
  assert (Hreq : queryRequest (serviceFor key) databaseId
                   (browseQuery beyondSafe tableName (Num l) (Num o))
                 = {| url := baseUrl ++ "/accounts/" ++ Storage.accountId key
                             ++ "/d1/database/" ++ databaseId ++ "/query";
                      bearer := cloudflareToken key;
                      sql := "SELECT * FROM " ++ dquote ++ tableName ++ dquote
                             ++ " LIMIT " ++ decimal l
                             ++ " OFFSET " ++ Number_toString beyondSafe o |}).
  { unfold queryRequest, browseQuery, interpolate, Number_toString at 1.
    rewrite (small_is_safe l Hlr). reflexivity. }
  rewrite Hreq in Hsent.
  destruct (executeQuery beyondSafe (serviceFor key) databaseId
              (browseQuery beyondSafe tableName (Num l) (Num o))
              (tSelectFetch env) w1)
    as [[out|e] w2] eqn:Hex; cbn [snd] in Hsent; subst w2.
  - match goal with
    | |- context [tableRowsSuccess ?b ?e ?d ?t ?l ?o ?n ?r ?w] =>
        destruct (tableRowsSuccess_world e d t l o n r w) as (resp & entry & H & _)
    end.
    rewrite H. reflexivity.
  - match goal with
    | |- context [tableRowsCatch ?b ?e' ?d ?t ?l ?x ?w] =>
        destruct (tableRowsCatch_world e' d t l x w) as (resp & entry & H & _)
    end.
    rewrite H. reflexivity.
Qed.

(** Every failure of the table handler carries the shape of a failure. *)
Lemma table_failures_well_formed
    env databaseId tableName limitParam offsetParam w resp w' :
  tableRowsRoute beyondSafe env databaseId tableName limitParam offsetParam w
  = (Normal resp, w') ->
  statusCode resp <> 200 ->
  failureShape "rows" resp.
Proof.
  destruct (page_cases limitParam offsetParam) as [El|[[Hl Eo]|[Hl Ho]]].
  { rewrite (tableRowsRoute_invalid_limit env databaseId tableName _ _ w El).
    intros [= <- <-] _. split; reflexivity. }
  { rewrite (tableRowsRoute_invalid_offset env databaseId tableName _ _ w Hl Eo).
    intros [= <- <-] _. split; reflexivity. }
  destruct (getActiveApiKey (storage w)) as [key|] eqn:Hkey.
  2:{ rewrite (tableRowsRoute_no_key env databaseId tableName _ _ w Hl Ho Hkey).
      intros [= <- <-] _. split; reflexivity. }
  destruct (getDatabaseSchema beyondSafe (serviceFor key) (tDevelopment env)
              databaseId (tSchemaFetch env) w) as [[schema|e] w1] eqn:Hschema.
  - rewrite (tableRowsRoute_checked env databaseId tableName limitParam offsetParam
               w key schema w1 Hl Ho Hkey Hschema).
    unfold browseChecked, tryCatch.
    destruct (tableExists schema tableName); cbn [negb].
    + destruct (isMock (tDevelopment env) key).
      * match goal with
        | |- context [tableRowsSuccess ?b ?e ?d ?t ?l ?o ?n ?r ?w] =>
            destruct (tableRowsSuccess_world e d t l o n r w) as (r1 & entry & H & Hst)
        end.
        rewrite H. intros [= <- <-]. congruence.
      * unfold bind.
        match goal with
        | |- context [executeQuery ?b ?s ?d ?q ?o ?w] =>
            destruct (executeQuery b s d q o w) as [[out|e] w2]
        end.
        -- match goal with
           | |- context [tableRowsSuccess ?b ?e ?d ?t ?l ?o ?n ?r ?w] =>
               destruct (tableRowsSuccess_world e d t l o n r w)
                 as (r1 & entry & H & Hst)
           end.
           rewrite H. intros [= <- <-]. congruence.
        -- match goal with
           | |- context [tableRowsCatch ?b ?e' ?d ?t ?l ?x ?w] =>
               destruct (tableRowsCatch_world e' d t l x w)
                 as (r1 & entry & H & _ & Hshape)
           end.
           rewrite H. intros [= <- <-] _. exact Hshape.
    + run. intros [= <- <-] _. split; reflexivity.
  - rewrite (tableRowsRoute_schema_throw env databaseId tableName _ _ w key e w1
               Hl Ho Hkey Hschema).
    match goal with
    | |- context [tableRowsCatch ?b ?e' ?d ?t ?l ?x ?w] =>
        destruct (tableRowsCatch_world e' d t l x w) as (r1 & entry & H & _ & Hshape)
    end.
    rewrite H. intros [= <- <-] _. exact Hshape.
Qed.

End TableRoute.

(** ** The scenarios of the specification, run *)

Example parseInt_reads_a_prefix :
  parseInt "5abc" (Some 10) = Num 5 /\ parseInt "abc" (Some 10) = NaN
  /\ parseInt " -1" (Some 10) = Num (-1) /\ parseInt "0x1F" (Some 10) = Num 0
  /\ parseInt "0x1F" None = Num 31 /\ parseInt "" None = NaN.
Proof. repeat split. Qed.

(** The page parameters are read by their integer prefix: a fraction, an
    exponent or letters after the digits do not make them invalid. *)
Example page_parameters_read_by_prefix :
  limitOf (Some "5abc") = Num 5 /\ limitOf (Some "1e3") = Num 1
  /\ limitOf (Some "100.9") = Num 100 /\ offsetOf (Some "-0.5") = Num 0
  /\ limitOf (Some "abc") = NaN /\ limitOf (Some "") = NaN
  /\ limitOf None = Num 50 /\ offsetOf None = Num 0.
Proof. repeat split. Qed.

(** White space in front is skipped, the characters outside ASCII
    included: the no-break space, the ideographic space, the byte order
    mark, the line separator. *)
Example parseInt_skips_white_space :
  parseInt (Fixture.nbsp ++ "5") (Some 10) = Num 5
  /\ parseInt (String (ascii_of_nat 227) (String (ascii_of_nat 128)
                 (String (ascii_of_nat 128) "7"))) (Some 10) = Num 7
  /\ parseInt (String (ascii_of_nat 239) (String (ascii_of_nat 187)
                 (String (ascii_of_nat 191) " 12"))) (Some 10) = Num 12
  /\ parseInt (String (ascii_of_nat 226) (String (ascii_of_nat 128)
                 (String (ascii_of_nat 168) "-3"))) (Some 10) = Num (-3)
  /\ parseInt (String (ascii_of_nat 226) (String (ascii_of_nat 128)
                 (String (ascii_of_nat 139) "5"))) (Some 10) = NaN
  /\ parseInt (String (ascii_of_nat 195) (String (ascii_of_nat 160) "5")) (Some 10) = NaN.
Proof. repeat split. Qed.

(** A limit of 5 after a no-break space passes validation and the SELECT
    is sent with LIMIT 5. *)
Example limit_after_no_break_space :
  exists resp w',
    tableRowsRoute Sample.beyondSafe
      (Sample.tableEnv (Responded (Sample.answer (Sample.succeeded [Sample.aliceRow]))))
      "db-1" "users" (Some (Fixture.nbsp ++ "5")) None Sample.world = (Normal resp, w')
    /\ statusCode resp = 200
    /\ map sql (calls w')
       = [schemaQuery;
          "SELECT * FROM " ++ dquote ++ "users" ++ dquote ++ " LIMIT 5 OFFSET 0"].
Proof. do 2 eexists. repeat split. Qed.

Example classify_syntax_error :
  isSQLError [{| message := Some ("near " ++ dquote ++ "SELET" ++ dquote
                                  ++ ": syntax error") |}] = true.
Proof. reflexivity. Qed.

Example classify_overloaded :
  isSQLError [{| message := Some "Database is overloaded, try again" |}] = false.
Proof. reflexivity. Qed.

Example classify_unauthorized :
  fst (executeQuery Sample.beyondSafe (serviceFor Sample.key) "db-1" Sample.usersQuery
         (Responded {| status := 401; statusText := "Unauthorized";
                       body := Json (Sample.failed ["syntax error"]) |})
         Sample.world)
  = Throw (CloudflareSystemError "Authentication failed: Unauthorized" (Some 401) []).
Proof. reflexivity. Qed.

Example classify_bad_gateway :
  fst (executeQuery Sample.beyondSafe (serviceFor Sample.key) "db-1" Sample.usersQuery
         (Responded {| status := 502; statusText := "Bad Gateway";
                       body := NotJson "Unexpected token <" |})
         Sample.world)
  = Throw (CloudflareSystemError "HTTP error 502: Bad Gateway" (Some 502) []).
Proof. reflexivity. Qed.

Example limit_zero_rejected :
  tableRowsRoute Sample.beyondSafe (Sample.tableEnv (Rejected "TypeError" "fetch failed"))
    "db-1" "users" (Some "0") None Sample.world
  = (Normal (invalidPage "Limit must be a number between 1 and 100"), Sample.world).
Proof. reflexivity. Qed.

Example offset_negative_rejected :
  tableRowsRoute Sample.beyondSafe (Sample.tableEnv (Rejected "TypeError" "fetch failed"))
    "db-1" "users" None (Some "-1") Sample.world
  = (Normal (invalidPage "Offset must be a non-negative number"), Sample.world).
Proof. reflexivity. Qed.

Example limit_not_a_number_rejected :
  tableRowsRoute Sample.beyondSafe (Sample.tableEnv (Rejected "TypeError" "fetch failed"))
    "db-1" "users" (Some "ten") None Sample.world
  = (Normal (invalidPage "Limit must be a number between 1 and 100"), Sample.world).
Proof. reflexivity. Qed.

(** The retry after a 403: system error, 500, fixed message, nothing
    cached. *)
Example forbidden_is_system_error :
  let run := queryRoute Sample.md5hex Sample.beyondSafe
               (Sample.queryEnv 1000 "entry-1"
                  (Responded {| status := 403; statusText := "Forbidden";
                                body := NotJson "" |}))
               "db-1" (Some Sample.usersQuery) Sample.world in
  fst run
  = Normal {| statusCode := 500;
              payload := [("message",
                           JStr "Internal server error occurred while executing query");
                          ("results", JArr []); ("rowCount", JNum 0);
                          ("executionTime", JStr "30ms")] |}
  /\ storage (snd run) = Sample.store
  /\ map tag (logs (snd run)) = ["[QUERY SYSTEM_ERROR]"]
  /\ map (fun l => prop (data l) "errorMessage") (logs (snd run))
     = [JStr "Authentication failed: Forbidden"].
Proof. repeat split. Qed.

(** ** The theorems on concrete requests *)

(** The query "SELECT * FROM users" fails remotely with "no such table:
    users": the answer is 400 with that message. *)
Lemma application_failure_classified_witness :
  exists resp,
    fst (queryRoute Sample.md5hex Sample.beyondSafe
           (Sample.queryEnv 1000 "entry-1"
              (Responded (Sample.answer (Sample.failed ["no such table: users"]))))
           "db-1" (Some Sample.usersQuery) Sample.world) = Normal resp
    /\ statusCode resp = 400
    /\ prop (payload resp) "message" = JStr "no such table: users".
Proof.
  refine (proj2 (proj1 (application_failure_classified Sample.md5hex Sample.beyondSafe
            (Sample.queryEnv 1000 "entry-1"
               (Responded (Sample.answer (Sample.failed ["no such table: users"]))))
            "db-1" Sample.usersQuery Sample.world Sample.key
            (Sample.answer (Sample.failed ["no such table: users"]))
            (Sample.failed ["no such table: users"]) _ _ _ _ _) _)).
  - repeat split; [discriminate | reflexivity ..].
  - reflexivity.
  - reflexivity.
  - reflexivity.
  - reflexivity.
  - apply Exists_cons_hd. right. left. exists "", ": users". reflexivity.
Defined.

(** With an expired entry for the users query in the cache, two calls 100
    milliseconds apart are both sent to the remote service. *)
Lemma expired_entry_defeats_cache_witness :
  let env1 := Sample.queryEnv 400000 "entry-1"
                (Responded (Sample.answer (Sample.succeeded [Sample.bobRow]))) in
  let env2 := Sample.queryEnv 400100 "entry-2"
                (Responded (Sample.answer (Sample.succeeded [Sample.bobRow]))) in
  let run1 := queryRoute Sample.md5hex Sample.beyondSafe env1 "db-1"
                (Some Sample.usersQuery) Sample.usedWorld in
  let run2 := queryRoute Sample.md5hex Sample.beyondSafe env2 "db-1"
                (Some Sample.usersQuery) (snd run1) in
  calls (snd run2)
  = [queryRequest (serviceFor Sample.key) "db-1" Sample.usersQuery;
     queryRequest (serviceFor Sample.key) "db-1" Sample.usersQuery].
Proof.
  refine (proj1 (proj2 (expired_entry_defeats_cache Sample.md5hex Sample.beyondSafe
            (Sample.queryEnv 400000 "entry-1"
               (Responded (Sample.answer (Sample.succeeded [Sample.bobRow]))))
            (Sample.queryEnv 400100 "entry-2"
               (Responded (Sample.answer (Sample.succeeded [Sample.bobRow]))))
            "db-1" Sample.usersQuery Sample.usedWorld Sample.key Sample.oldEntry
            (Sample.answer (Sample.succeeded [Sample.bobRow]))
            (Sample.succeeded [Sample.bobRow])
            _ _ _ _ _ _ _ _ _ _ _ _ _))).
  - discriminate.
  - reflexivity.
  - reflexivity.
  - reflexivity.
  - reflexivity.
  - reflexivity.
  - reflexivity.
  - simpl. intros [H|[]]. discriminate.
  - reflexivity.
  - reflexivity.
  - reflexivity.
  - reflexivity.
  - reflexivity.
Defined.

(** A refused connection is answered as an unknown error. *)
Lemma connection_error_is_unknown_error_witness :
  exists resp w',
    queryRoute Sample.md5hex Sample.beyondSafe
      (Sample.queryEnv 1000 "entry-1" (Rejected "TypeError" "fetch failed"))
      "db-1" (Some Sample.usersQuery) Sample.world = (Normal resp, w')
    /\ statusCode resp = 500
    /\ prop (payload resp) "message" = JStr "Failed to execute query"
    /\ map tag (logs w') = ["[QUERY UNKNOWN_ERROR]"].
Proof.
  destruct (connection_error_is_unknown_error Sample.md5hex Sample.beyondSafe
              (Sample.queryEnv 1000 "entry-1" (Rejected "TypeError" "fetch failed"))
              "db-1" Sample.usersQuery Sample.world Sample.key
              "TypeError" "fetch failed") as [_ H].
  - repeat split; [discriminate | reflexivity ..].
  - reflexivity.
  - rewrite H. do 2 eexists. repeat split.
Defined.

(** A query that the remote service rejects leaves the cache empty. *)
Lemma failed_execution_leaves_cache_witness :
  storage (snd (queryRoute Sample.md5hex Sample.beyondSafe
                  (Sample.queryEnv 1000 "entry-1"
                     (Responded (Sample.answer
                                   (Sample.failed ["no such table: users"]))))
                  "db-1" (Some Sample.usersQuery) Sample.world))
  = Sample.store.
Proof.
  refine (proj1 (failed_execution_leaves_cache Sample.md5hex Sample.beyondSafe
            (Sample.queryEnv 1000 "entry-1"
               (Responded (Sample.answer (Sample.failed ["no such table: users"]))))
            "db-1" (Some Sample.usersQuery) Sample.world _ _)).
  - vm_compute. discriminate.
  - right. simpl. split; [reflexivity|]. eexists. split; reflexivity.
Defined.

(** Two puts for one pair: the get returns the rows of the first. *)
Lemma later_put_does_not_supersede_witness :
  let first := {| insQueryHash := "h"; insDatabaseId := "db-1";
                  insResults := [Sample.aliceRow];
                  insExecutionTime := Some "5ms"; insRowCount := Some "1" |} in
  let second := {| insQueryHash := "h"; insDatabaseId := "db-1";
                   insResults := [Sample.bobRow];
                   insExecutionTime := Some "7ms"; insRowCount := Some "1" |} in
  exists e,
    getQueryResult "h" "db-1"
      (snd (createQueryResult second "entry-2" 20
              (snd (createQueryResult first "entry-1" 10 Sample.store)))) = Some e
    /\ id e = "entry-1"
    /\ Storage.results e = [Sample.aliceRow]
    /\ createdAt e = Some 10.
Proof.
  refine (later_put_does_not_supersede Sample.store
            {| insQueryHash := "h"; insDatabaseId := "db-1";
               insResults := [Sample.aliceRow];
               insExecutionTime := Some "5ms"; insRowCount := Some "1" |}
            {| insQueryHash := "h"; insDatabaseId := "db-1";
               insResults := [Sample.bobRow];
               insExecutionTime := Some "7ms"; insRowCount := Some "1" |}
            "entry-1" "entry-2" 10 20 _ _ _ _).
  - reflexivity.
  - reflexivity.
  - reflexivity.
  - simpl. intros [H|[]]. discriminate.
Defined.

(** A limit of 101 is rejected and nothing is sent. *)
Lemma invalid_page_rejected_before_remote_witness :
  exists resp,
    tableRowsRoute Sample.beyondSafe
      (Sample.tableEnv (Rejected "TypeError" "fetch failed"))
      "db-1" "users" (Some "101") None Sample.world = (Normal resp, Sample.world)
    /\ statusCode resp = 400
    /\ failureShape "rows" resp
    /\ calls (snd (tableRowsRoute Sample.beyondSafe
                     (Sample.tableEnv (Rejected "TypeError" "fetch failed"))
                     "db-1" "users" (Some "101") None Sample.world))
       = calls Sample.world.
Proof.
  apply invalid_page_rejected_before_remote.
  left. intros (z & Hz & Hr). vm_compute in Hz. inversion Hz; subst z. lia.
Defined.

(** C6 as the specification states it fails on the code: the limit 5abc is
    not a number, yet the request is answered 200 after two requests to the
    remote service, the second the SELECT with LIMIT 5. *)
Lemma non_numeric_limit_reaches_remote :
  numeral "5abc" = false
  /\ exists resp w',
       tableRowsRoute Sample.beyondSafe
         (Sample.tableEnv
            (Responded (Sample.answer (Sample.succeeded [Sample.aliceRow]))))
         "db-1" "users" (Some "5abc") None Sample.world = (Normal resp, w')
       /\ statusCode resp = 200
       /\ map sql (calls w')
          = [schemaQuery;
             "SELECT * FROM " ++ dquote ++ "users" ++ dquote ++ " LIMIT 5 OFFSET 0"].
Proof. split; [reflexivity|]. do 2 eexists. repeat split. Qed.

(** The view [recent] is not a table: 400, and only the schema was
    fetched. *)
Lemma unknown_table_rejected_without_select_witness :
  exists resp w',
    tableRowsRoute Sample.beyondSafe
      (Sample.tableEnv (Rejected "TypeError" "fetch failed"))
      "db-1" "recent" (Some "10") None Sample.world = (Normal resp, w')
    /\ statusCode resp = 400
    /\ prop (payload resp) "message" = JStr "Table 'recent' does not exist"
    /\ map sql (calls w') = [schemaQuery].
Proof.
  destruct (unknown_table_rejected_without_select Sample.beyondSafe
              (Sample.tableEnv (Rejected "TypeError" "fetch failed"))
              "db-1" "recent" (Some "10") None Sample.world Sample.key
              Sample.schemaRows
              (sent (queryRequest (serviceFor Sample.key) "db-1" schemaQuery)
                 Sample.world))
    as (resp & entry & H & Hs & Hm & _).
  - exists 10. split; [reflexivity | lia].
  - exists 0. split; [reflexivity | lia].
  - reflexivity.
  - reflexivity.
  - intros (item & Hin & Ht & Hn). simpl in Hin.
    destruct Hin as [<-|[<-|[]]]; simpl in Ht, Hn; discriminate.
  - rewrite H. do 2 eexists. split; [reflexivity|]. repeat split; assumption.
Defined.

(** Ten rows of [users] from the twentieth on. *)
Lemma browse_query_text_witness :
  map sql (calls (snd (tableRowsRoute Sample.beyondSafe
                         (Sample.tableEnv
                            (Responded (Sample.answer
                                          (Sample.succeeded [Sample.aliceRow]))))
                         "db-1" "users" (Some "10") (Some "20") Sample.world)))
  = [schemaQuery;
     "SELECT * FROM " ++ dquote ++ "users" ++ dquote ++ " LIMIT 10 OFFSET 20"].
Proof.
  destruct (browse_query_text Sample.beyondSafe
              (Sample.tableEnv
                 (Responded (Sample.answer (Sample.succeeded [Sample.aliceRow]))))
              "db-1" "users" (Some "10") (Some "20") Sample.world Sample.key
              Sample.schemaRows
              (sent (queryRequest (serviceFor Sample.key) "db-1" schemaQuery)
                 Sample.world))
    as [(l & o & Hl & Ho & Hc) _].
  - exists 10. split; [reflexivity | lia].
  - exists 20. split; [reflexivity | lia].
  - reflexivity.
  - reflexivity.
  - reflexivity.
  - exists (nth 0 Sample.schemaRows []). simpl. auto.
  - vm_compute in Hl, Ho. inversion Hl; subst l. inversion Ho; subst o.
    rewrite Hc. reflexivity.
Defined.


(** ** Further properties of the two handlers *)

Section GatewayMore.

Variable md5hex : string -> string.
Variable beyondSafe : Z -> string.

(** A call that reaches the remote service sends exactly one request and
    its answer is not marked as cached. *)
Lemma miss_sends_request env id q w key :
  reachesRemote md5hex env id q w key ->
  calls (snd (queryRoute md5hex beyondSafe env id (Some q) w))
  = (calls w ++ [queryRequest (serviceFor key) id q])%list
  /\ forall resp,
       fst (queryRoute md5hex beyondSafe env id (Some q) w) = Normal resp ->
       prop (payload resp) "cached" <> JBool true.
Proof.
  intros Hreach.
  pose proof (executeQuery_sends beyondSafe (serviceFor key) id q (qFetch env) w)
    as Hsent.
  destruct (executeQuery beyondSafe (serviceFor key) id q (qFetch env) w)
    as [[out|e] w1] eqn:Hex; cbn [snd] in Hsent; subst w1.
  - rewrite (queryRoute_remote_normal md5hex beyondSafe env id q w key out _ Hreach Hex).
    split; [reflexivity|]. intros resp [= <-]. simpl. discriminate.
  - rewrite (queryRoute_remote_throw md5hex beyondSafe env id q w key e _ Hreach Hex).
    destruct (queryCatch_world beyondSafe env id (md5hex q) e
                (sent (queryRequest (serviceFor key) id q) w))
      as (resp & entry & Hc & _ & _).
    rewrite Hc. split; [reflexivity|].
    intros resp2 [= <-].
    clear - Hc. unfold Routes.queryCatch in Hc. revert Hc. run.
    destruct e; simpl; intros Hc; inversion Hc; subst; simpl; discriminate.
Qed.

(** What one call of the query handler does to the store: nothing, or one
    entry created for the database of the call and the hash of its query. *)
Lemma queryRoute_store_effect env id query w :
  storage (snd (queryRoute md5hex beyondSafe env id query w)) = storage w
  \/ exists q i,
       query = Some q /\ insQueryHash i = md5hex q /\ insDatabaseId i = id
       /\ storage (snd (queryRoute md5hex beyondSafe env id query w))
          = snd (createQueryResult i (qUuid env) (qCreatedAt env) (storage w)).
Proof.
  unfold Routes.queryRoute.
  destruct query as [[|c q]|]; simpl; try (now left).
  run. destruct (getActiveApiKey (storage w)) as [key|]; simpl; try (now left).
  destruct (freshHit (qCheckTime env)
              (getQueryResult (md5hex (String c q)) id (storage w))) as [hit|];
    simpl; [now left|].
  destruct (isMock (qDevelopment env) key); simpl.
  - right. exists (String c q),
      {| insQueryHash := md5hex (String c q);
         insDatabaseId := id;
         insResults := mockResults id (String c q);
         insExecutionTime := Some (millis beyondSafe (qMockEnd env - qMockStart env));
         insRowCount :=
           Some (Number_toString beyondSafe
                   (lengthOf (mockResults id (String c q)))) |}.
    repeat split.
  - pose proof (executeQuery_sends beyondSafe (serviceFor key) id (String c q)
                  (qFetch env) w) as Hsent.
    destruct (executeQuery beyondSafe (serviceFor key) id (String c q) (qFetch env) w)
      as [[out|e] w1] eqn:Hex; simpl in Hsent; subst w1.
    + right. exists (String c q),
        {| insQueryHash := md5hex (String c q);
           insDatabaseId := id;
           insResults := results out;
           insExecutionTime :=
             Some (millis beyondSafe (qSuccessTime env - qStartTime env));
           insRowCount :=
             Some (Number_toString beyondSafe (lengthOf (results out))) |}.
      repeat split.
    + left.
      destruct (queryCatch_world beyondSafe env id (md5hex (String c q)) e
                  (sent (queryRequest (serviceFor key) id (String c q)) w))
        as (r & entry & Hc & _ & _).
      rewrite Hc. reflexivity.
Qed.

(** An entry created for another pair does not make a lookup succeed. *)
Lemma getQueryResult_create_other (h db : string) (i : InsertQueryResult)
    (uuid : string) (now : Z) (st : MemStorage) :
  insDatabaseId i <> db \/ insQueryHash i <> h ->
  getQueryResult h db st = None ->
  getQueryResult h db (snd (createQueryResult i uuid now st)) = None.
Proof.
  intros Hne. unfold getQueryResult, createQueryResult, Map_values. simpl.
  set (f := fun r => (String.eqb (queryHash r) h && String.eqb (databaseId r) db)%bool).
  set (e := {| id := uuid; queryHash := insQueryHash i;
               databaseId := insDatabaseId i; Storage.results := insResults i;
               executionTime := insExecutionTime i; rowCount := insRowCount i;
               createdAt := Some now |}).
  assert (He : f e = false).
  { unfold f, e. simpl. apply andb_false_iff.
    destruct Hne as [H|H]; [right | left]; now apply String.eqb_neq. }
  induction (queryResults st) as [|[k v] m IH]; simpl.
  - now rewrite He.
  - destruct (f v) eqn:Hv; [discriminate|]. intros Hm.
    destruct (String.eqb k uuid); simpl; [now rewrite He | rewrite Hv; auto].
Qed.

(** After the freshness window has elapsed, the same call is executed
    again: starting from a pair the cache has never seen, a second call
    made 300000 ms or more after the entry was created sends a second
    request and is not answered from the cache. *)
Theorem elapsed_window_executes_again env1 env2 id q w key r data :
  q <> "" ->
  getActiveApiKey (storage w) = Some key ->
  isMock (qDevelopment env1) key = false ->
  isMock (qDevelopment env2) key = false ->
  getQueryResult (md5hex q) id (storage w) = None ->
  qFetch env1 = Responded r ->
  ok r = true -> body r = Json data -> success data = true ->
  freshnessWindow <= qCheckTime env2 - qCreatedAt env1 ->
  let run1 := queryRoute md5hex beyondSafe env1 id (Some q) w in
  let run2 := queryRoute md5hex beyondSafe env2 id (Some q) (snd run1) in
  calls (snd run2)
  = (calls w ++ [queryRequest (serviceFor key) id q;
                 queryRequest (serviceFor key) id q])%list
  /\ forall resp2, fst run2 = Normal resp2 ->
       prop (payload resp2) "cached" <> JBool true.
Proof.
  intros Hq Hkey Hmock1 Hmock2 Hnone Hf Hok Hb Hs Hwin. cbv zeta.
  assert (Hreach1 : reachesRemote md5hex env1 id q w key).
  { repeat split; trivial. now rewrite Hnone. }
  destruct (first_execution md5hex beyondSafe env1 id q w key r data
              Hreach1 Hf Hok Hb Hs) as (out & _ & _ & _ & Hst & Hcalls).
  cbv zeta in Hst, Hcalls.
  destruct (queryRoute md5hex beyondSafe env1 id (Some q) w) as [c1 w1] eqn:H1.
  cbn [fst snd] in Hst, Hcalls |- *.
  set (ins := {| insQueryHash := md5hex q; insDatabaseId := id;
                 insResults := results out;
                 insExecutionTime :=
                   Some (millis beyondSafe (qSuccessTime env1 - qStartTime env1));
                 insRowCount :=
                   Some (Number_toString beyondSafe (lengthOf (results out))) |}) in *.
  assert (Hreach2 : reachesRemote md5hex env2 id q w1 key).
  { repeat split; trivial.
    - rewrite Hst. exact Hkey.
    - rewrite Hst.
      pose proof (getQueryResult_created ins (qUuid env1) (qCreatedAt env1)
                    (storage w) Hnone) as Hc.
      change (insQueryHash ins) with (md5hex q) in Hc.
      change (insDatabaseId ins) with id in Hc.
      rewrite Hc. unfold freshHit, isFresh. simpl.
      destruct (Z.ltb_spec (qCheckTime env2 - qCreatedAt env1) freshnessWindow);
        [lia | reflexivity]. }
  destruct (miss_sends_request env2 id q w1 key Hreach2) as [Hc2 Hn2].
  rewrite Hc2, Hcalls, <- app_assoc. split; [reflexivity | exact Hn2].
Qed.

(** A call on one database never prepares a hit for another: when the
    cache holds nothing for a query on database B, it still holds nothing
    after any call on a different database A, and the next call for the
    query on B is not answered from the cache. *)
Theorem other_database_never_hits env1 env2 idA idB query1 q w :
  idA <> idB ->
  getQueryResult (md5hex q) idB (storage w) = None ->
  let run1 := queryRoute md5hex beyondSafe env1 idA query1 w in
  let run2 := queryRoute md5hex beyondSafe env2 idB (Some q) (snd run1) in
  getQueryResult (md5hex q) idB (storage (snd run1)) = None
  /\ forall resp2, fst run2 = Normal resp2 ->
       prop (payload resp2) "cached" <> JBool true.
Proof.
  intros Hne Hnone. cbv zeta.
  assert (Hstill : getQueryResult (md5hex q) idB
                     (storage (snd (queryRoute md5hex beyondSafe env1 idA query1 w)))
                   = None).
  { destruct (queryRoute_store_effect env1 idA query1 w)
      as [Hsame|(q1 & i & _ & _ & Hdb & Hst)].
    - now rewrite Hsame.
    - rewrite Hst. apply getQueryResult_create_other; [left; congruence | exact Hnone]. }
  split; [exact Hstill|].
  intros resp2 Hrun Hcached.
  destruct (served_from_cache md5hex beyondSafe env2 idB (Some q) _ resp2 Hrun Hcached)
    as (q' & hit & [= <-] & Hget & _).
  congruence.
Qed.

(** With the mock token in development neither handler sends anything to
    the remote service. *)
Theorem mock_mode_sends_nothing
    qenv tenv id query databaseId tableName limitParam offsetParam w key :
  getActiveApiKey (storage w) = Some key ->
  isMock (qDevelopment qenv) key = true ->
  isMock (tDevelopment tenv) key = true ->
  calls (snd (queryRoute md5hex beyondSafe qenv id query w)) = calls w
  /\ calls (snd (tableRowsRoute beyondSafe tenv databaseId tableName
                   limitParam offsetParam w)) = calls w.
Proof.
  intros Hkey Hq Ht. split.
  - unfold Routes.queryRoute.
    destruct query as [[|c q]|]; simpl; try reflexivity.
    run. rewrite Hkey.
    destruct (freshHit (qCheckTime qenv)
                (getQueryResult (md5hex (String c q)) id (storage w))) as [hit|];
      simpl; [reflexivity|].
    rewrite Hq. reflexivity.
  - destruct (page_cases limitParam offsetParam) as [El|[[Hl Eo]|[Hl Ho]]].
    { now rewrite (tableRowsRoute_invalid_limit beyondSafe tenv databaseId tableName
                     _ _ w El). }
    { now rewrite (tableRowsRoute_invalid_offset beyondSafe tenv databaseId tableName
                     _ _ w Hl Eo). }
    assert (Hschema : getDatabaseSchema beyondSafe (serviceFor key) (tDevelopment tenv)
                        databaseId (tSchemaFetch tenv) w
                      = (Normal (mockSchema databaseId), w)).
    { unfold getDatabaseSchema. unfold isMock in Ht. simpl. now rewrite Ht. }
    rewrite (tableRowsRoute_checked beyondSafe tenv databaseId tableName limitParam
               offsetParam w key _ w Hl Ho Hkey Hschema).
    unfold browseChecked, tryCatch.
    destruct (tableExists (mockSchema databaseId) tableName); cbn [negb].
    + rewrite Ht.
      match goal with
      | |- context [tableRowsSuccess ?b ?e ?d ?t ?l ?o ?n ?r ?w] =>
          destruct (tableRowsSuccess_world b e d t l o n r w) as (resp & entry & H & _)
      end.
      now rewrite H.
    + reflexivity.
Qed.

(** Browsing a table never writes to the store: whatever the request and
    whatever the remote service answers, the store after the call is the
    store before it, so browsed rows are never cached. *)
Theorem table_browse_never_caches
    env databaseId tableName limitParam offsetParam w :
  storage (snd (tableRowsRoute beyondSafe env databaseId tableName
                  limitParam offsetParam w)) = storage w.
Proof.
  destruct (page_cases limitParam offsetParam) as [El|[[Hl Eo]|[Hl Ho]]].
  { now rewrite (tableRowsRoute_invalid_limit beyondSafe env databaseId tableName
                   _ _ w El). }
  { now rewrite (tableRowsRoute_invalid_offset beyondSafe env databaseId tableName
                   _ _ w Hl Eo). }
  destruct (getActiveApiKey (storage w)) as [key|] eqn:Hkey.
  2:{ now rewrite (tableRowsRoute_no_key beyondSafe env databaseId tableName
                     _ _ w Hl Ho Hkey). }
  destruct (getDatabaseSchema beyondSafe (serviceFor key) (tDevelopment env)
              databaseId (tSchemaFetch env) w) as [[schema|e] w1] eqn:Hschema.
  - destruct (getDatabaseSchema_calls _ _ _ _ _ _ _ _ Hschema) as (Hst & _ & _).
    rewrite (tableRowsRoute_checked beyondSafe env databaseId tableName limitParam
               offsetParam w key schema w1 Hl Ho Hkey Hschema).
    rewrite <- Hst. unfold browseChecked, tryCatch.
    destruct (tableExists schema tableName); cbn [negb]; [|reflexivity].
    destruct (isMock (tDevelopment env) key).
    + match goal with
      | |- context [tableRowsSuccess ?b ?e ?d ?t ?l ?o ?n ?r ?w] =>
          destruct (tableRowsSuccess_world b e d t l o n r w) as (resp & entry & H & _)
      end.
      now rewrite H.
    + unfold bind.
      match goal with
      | |- context [executeQuery ?b ?s ?d ?q ?o ?w] =>
          pose proof (executeQuery_sends b s d q o w) as Hsent;
          destruct (executeQuery b s d q o w) as [[out|e] w2]
      end; cbn [snd] in Hsent; subst w2.
      * match goal with
        | |- context [tableRowsSuccess ?b ?e ?d ?t ?l ?o ?n ?r ?w] =>
            destruct (tableRowsSuccess_world b e d t l o n r w) as (resp & entry & H & _)
        end.
        now rewrite H.
      * match goal with
        | |- context [tableRowsCatch ?b ?e' ?d ?t ?l ?x ?w] =>
            destruct (tableRowsCatch_world b e' d t l x w) as (resp & entry & H & _)
        end.
        now rewrite H.
  - destruct (getDatabaseSchema_calls _ _ _ _ _ _ _ _ Hschema) as (Hst & _ & _).
    rewrite (tableRowsRoute_schema_throw beyondSafe env databaseId tableName _ _ w key e w1
               Hl Ho Hkey Hschema).
    match goal with
    | |- context [tableRowsCatch ?b ?e' ?d ?t ?l ?x ?w] =>
        destruct (tableRowsCatch_world b e' d t l x w) as (resp & entry & H & _)
    end.
    now rewrite H.
Qed.

(** One digit more. *)
Lemma parseDigits_step (c : ascii) (s : string) (seen : bool) (acc d : Z) :
  digitValue c = Some d -> d < 10 ->
  parseDigits 10 (String c s) seen acc = parseDigits 10 s true (10 * acc + d).
Proof.
  intros Hc Hd. cbn [parseDigits]. rewrite Hc.
  destruct (Z.ltb_spec d 10); [reflexivity | lia].
Qed.

(** Reading back the digits of a positive number, after the digits that
    make [p]. *)
Lemma parseDigits_of_uint_acc (d : Decimal.uint) (p : positive) :
  parseDigits 10 (NilEmpty.string_of_uint d) true (Zpos p)
  = Num (Zpos (Pos.of_uint_acc d p)).
Proof.
  revert p. induction d; intros p;
    cbn [NilEmpty.string_of_uint Pos.of_uint_acc]; [reflexivity|..];
    erewrite parseDigits_step by (reflexivity || lia);
    rewrite <- IHd; f_equal;
    try match goal with
        | |- context [Z.of_nat ?n] =>
            let v := eval vm_compute in (Z.of_nat n) in change (Z.of_nat n) with v
        end; lia.
Qed.

Lemma parseDigits_of_uint (d : Decimal.uint) (seen : bool) :
  d <> Decimal.Nil ->
  parseDigits 10 (NilEmpty.string_of_uint d) seen 0 = Num (Z.of_N (Pos.of_uint d)).
Proof.
  revert seen. induction d; intros seen Hd;
    cbn [NilEmpty.string_of_uint Pos.of_uint]; [congruence|..];
    erewrite parseDigits_step by (reflexivity || lia).
  - destruct d; try (apply IHd; discriminate). reflexivity.
  - apply (parseDigits_of_uint_acc d 1).
  - apply (parseDigits_of_uint_acc d 2).
  - apply (parseDigits_of_uint_acc d 3).
  - apply (parseDigits_of_uint_acc d 4).
  - apply (parseDigits_of_uint_acc d 5).
  - apply (parseDigits_of_uint_acc d 6).
  - apply (parseDigits_of_uint_acc d 7).
  - apply (parseDigits_of_uint_acc d 8).
  - apply (parseDigits_of_uint_acc d 9).
Qed.

(** No white space starts with an ASCII character other than the six. *)
Lemma trimStart_ascii (c : ascii) (s : string) :
  (nat_of_ascii c < 128)%nat -> isWhiteSpace c = false ->
  trimStart (String c s) = String c s.
Proof.
  intros Hc Hw. cbn [trimStart]. rewrite Hw.
  destruct s as [|c2 s2]; [reflexivity|].
  unfold isWhiteSpace2.
  destruct (Nat.eqb_spec (nat_of_ascii c) 194) as [E|_]; [lia|]. cbn [andb].
  destruct s2 as [|c3 s3]; [reflexivity|].
  unfold isWhiteSpace3. cbv zeta.
  destruct (Nat.eqb_spec (nat_of_ascii c) 225) as [E|_]; [lia|].
  destruct (Nat.eqb_spec (nat_of_ascii c) 226) as [E|_]; [lia|].
  destruct (Nat.eqb_spec (nat_of_ascii c) 227) as [E|_]; [lia|].
  destruct (Nat.eqb_spec (nat_of_ascii c) 239) as [E|_]; [lia|].
  reflexivity.
Qed.

(** A decimal numeral has no white space, sign or 0x in front. *)
Lemma parseInt_of_uint (d : Decimal.uint) :
  d <> Decimal.Nil ->
  parseInt (NilEmpty.string_of_uint d) None = Num (Z.of_N (Pos.of_uint d)).
Proof.
  intros Hd. pose proof (parseDigits_of_uint d false Hd) as H.
  destruct d as [|d|d|d|d|d|d|d|d|d|d]; [congruence|..];
    try (unfold parseInt; cbn [NilEmpty.string_of_uint] in H |- *;
         rewrite trimStart_ascii by (vm_compute; (lia || reflexivity));
         cbv iota beta; rewrite H; reflexivity).
  destruct d; cbn [NilEmpty.string_of_uint] in H |- *;
    unfold parseInt; rewrite trimStart_ascii by (vm_compute; (lia || reflexivity));
    cbv iota beta; rewrite H; reflexivity.
Qed.

(** [parseInt] reads the decimal digits of a number back to that number. *)
Lemma parseInt_decimal (z : Z) : 0 <= z -> parseInt (decimal z) None = Num z.
Proof.
  intros Hz. destruct z as [|p|p]; [reflexivity| |lia].
  unfold decimal. simpl Z.to_int. cbn [NilZero.string_of_int].
  pose proof (DecimalPos.Unsigned.of_to p) as Hof.
  pose proof (DecimalPos.Unsigned.to_uint_nonnil p) as Hnil.
  assert (E : NilZero.string_of_uint (Pos.to_uint p)
              = NilEmpty.string_of_uint (Pos.to_uint p))
    by (destruct (Pos.to_uint p); [congruence | reflexivity ..]).
  rewrite E, (parseInt_of_uint _ Hnil), Hof. reflexivity.
Qed.

(** The row count survives the cache: it is stored as text and parsed back
    on a hit, and the answer served from the cache reports the same
    [rowCount], the number of rows, and the same rows as the answer of the
    execution that created the entry. *)
Theorem cached_row_count_round_trip env1 env2 id q w key r data :
  q <> "" ->
  getActiveApiKey (storage w) = Some key ->
  isMock (qDevelopment env1) key = false ->
  getQueryResult (md5hex q) id (storage w) = None ->
  qFetch env1 = Responded r ->
  ok r = true -> body r = Json data -> success data = true ->
  qCheckTime env2 - qCreatedAt env1 < freshnessWindow ->
  let rows := match result data with
              | Some res => match Wire.results res with
                            | Some rows => rows
                            | None => []
                            end
              | None => []
              end in
  lengthOf rows <= maxSafe ->
  let run1 := queryRoute md5hex beyondSafe env1 id (Some q) w in
  let run2 := queryRoute md5hex beyondSafe env2 id (Some q) (snd run1) in
  exists resp1 resp2,
    fst run1 = Normal resp1 /\ fst run2 = Normal resp2
    /\ prop (payload resp1) "results" = rowsValue rows
    /\ prop (payload resp2) "results" = rowsValue rows
    /\ prop (payload resp1) "rowCount" = JNum (lengthOf rows)
    /\ prop (payload resp2) "rowCount" = JNum (lengthOf rows).
Proof.
  intros Hq Hkey Hmock Hnone Hf Hok Hb Hs Hwin rows Hsafe. cbv zeta.
  assert (Hreach : reachesRemote md5hex env1 id q w key).
  { repeat split; trivial. now rewrite Hnone. }
  destruct (executeQuery_success beyondSafe (serviceFor key) id q r data w Hok Hb Hs)
    as (out & Hout & _ & Hrows).
  fold rows in Hrows.
  pose proof (executeQuery_sends beyondSafe (serviceFor key) id q (qFetch env1) w)
    as Hsent.
  rewrite <- Hf in Hout.
  destruct (executeQuery beyondSafe (serviceFor key) id q (qFetch env1) w)
    as [c w1] eqn:Hex.
  cbn [fst snd] in Hout, Hsent. subst c w1.
  rewrite (queryRoute_remote_normal md5hex beyondSafe env1 id q w key out _ Hreach Hex).
  cbn [fst snd]. rewrite Hrows.
  set (ins := {| insQueryHash := md5hex q; insDatabaseId := id;
                 insResults := rows;
                 insExecutionTime :=
                   Some (millis beyondSafe (qSuccessTime env1 - qStartTime env1));
                 insRowCount := Some (Number_toString beyondSafe (lengthOf rows)) |}).
  pose proof (getQueryResult_created ins (qUuid env1) (qCreatedAt env1) (storage w) Hnone)
    as Hc.
  change (insQueryHash ins) with (md5hex q) in Hc.
  change (insDatabaseId ins) with id in Hc.
  erewrite (queryRoute_hit md5hex beyondSafe env2 id q _ key
              (fst (createQueryResult ins (qUuid env1) (qCreatedAt env1) (storage w)))
              Hq).
  - do 2 eexists. split; [reflexivity|]. split; [reflexivity|].
    split; [reflexivity|]. split; [reflexivity|]. split; [reflexivity|].
    unfold cachedResponse. cbn [payload prop String.eqb Ascii.eqb Bool.eqb].
    cbn [createQueryResult fst Storage.rowCount ins insRowCount].
    assert (Hlen : 0 <= lengthOf rows) by (unfold lengthOf; lia).
    assert (Hts : Number_toString beyondSafe (lengthOf rows) = decimal (lengthOf rows)).
    { unfold Number_toString, isSafe. rewrite Z.abs_eq by exact Hlen.
      destruct (Z.leb_spec (lengthOf rows) maxSafe); [reflexivity | lia]. }
    rewrite Hts.
    pose proof (parseInt_decimal (lengthOf rows) Hlen) as Hp.
    destruct (decimal (lengthOf rows)) as [|c s] eqn:Ed; [discriminate Hp|].
    rewrite Hp. unfold orDefault.
    destruct (Z.eqb_spec (lengthOf rows) 0) as [->|_]; reflexivity.
  - exact Hkey.
  - unfold sent. cbn [snd storage]. rewrite Hc. unfold freshHit, isFresh. simpl.
    destruct (Z.ltb_spec (qCheckTime env2 - qCreatedAt env1) freshnessWindow);
      [reflexivity | lia].
Qed.

End GatewayMore.

(** ** The maps of the store *)

Import Store.

Section Maps.

Context {V : Type}.

Lemma Map_get_set_same (k : string) (v : V) (m : JSMap V) :
  Map_get k (Map_set k v m) = Some v.
Proof.
  induction m as [|[k' v'] m IH]; simpl.
  - now rewrite String.eqb_refl.
  - destruct (String.eqb k' k) eqn:E; simpl.
    + now rewrite String.eqb_refl.
    + now rewrite E.
Qed.

Lemma Map_get_set_other (k k' : string) (v : V) (m : JSMap V) :
  k' <> k -> Map_get k' (Map_set k v m) = Map_get k' m.
Proof.
  intros Hne. induction m as [|[k0 v0] m IH]; simpl.
  - destruct (String.eqb_spec k k'); [congruence | reflexivity].
  - destruct (String.eqb_spec k0 k) as [->|Hk]; simpl.
    + destruct (String.eqb_spec k k'); [congruence|].
      reflexivity.
    + destruct (String.eqb k0 k'); [reflexivity | exact IH].
Qed.

Lemma Map_get_delete_same (k : string) (m : JSMap V) :
  Map_get k (Map_delete k m) = None.
Proof.
  unfold Map_delete. induction m as [|[k' v'] m IH]; simpl; [reflexivity|].
  destruct (String.eqb k' k) eqn:E; simpl; [exact IH|]. now rewrite E.
Qed.

Lemma Map_get_delete_other (k k' : string) (m : JSMap V) :
  k' <> k -> Map_get k' (Map_delete k m) = Map_get k' m.
Proof.
  intros Hne. unfold Map_delete. induction m as [|[k0 v0] m IH]; simpl; [reflexivity|].
  destruct (String.eqb_spec k0 k) as [->|Hk]; simpl.
  - destruct (String.eqb_spec k k'); [congruence | exact IH].
  - destruct (String.eqb k0 k'); [reflexivity | exact IH].
Qed.

Lemma Map_get_In (k : string) (v : V) (m : JSMap V) :
  Map_get k m = Some v -> In (k, v) m.
Proof.
  induction m as [|[k' v'] m IH]; simpl; [discriminate|].
  destruct (String.eqb_spec k' k) as [->|Hk]; [intros [= ->]; now left | auto].
Qed.

Lemma Map_get_None (k : string) (m : JSMap V) :
  Map_get k m = None <-> ~ In k (map fst m).
Proof.
  induction m as [|[k' v'] m IH]; simpl; [tauto|].
  destruct (String.eqb_spec k' k) as [->|Hk].
  - split; [discriminate | intros H; elim H; now left].
  - rewrite IH. tauto.
Qed.

Lemma Map_delete_absent (k : string) (m : JSMap V) :
  Map_get k m = None -> Map_delete k m = m.
Proof.
  unfold Map_delete. induction m as [|[k' v'] m IH]; simpl; [reflexivity|].
  destruct (String.eqb k' k); [discriminate|]. intros H. simpl. now rewrite IH.
Qed.

(** Writing keeps the keys where they are, or adds the new key at the end. *)
Lemma Map_set_keys (k : string) (v : V) (m : JSMap V) :
  map fst (Map_set k v m)
  = if Map_has k m then map fst m else (map fst m ++ [k])%list.
Proof.
  unfold Map_has. induction m as [|[k' v'] m IH]; simpl; [reflexivity|].
  destruct (String.eqb_spec k' k) as [->|Hk]; simpl; [reflexivity|].
  rewrite IH. destruct (Map_get k m); reflexivity.
Qed.

Lemma wellFormed_set (k : string) (v : V) (m : JSMap V) :
  wellFormed m -> wellFormed (Map_set k v m).
Proof.
  unfold wellFormed. intros Hwf. rewrite Map_set_keys. unfold Map_has.
  destruct (Map_get k m) eqn:E; [exact Hwf|].
  apply Map_get_None in E.
  apply NoDup_rev in Hwf. rewrite <- (rev_involutive (map fst m ++ [k])).
  apply NoDup_rev. rewrite rev_app_distr. simpl. constructor; [|exact Hwf].
  now rewrite <- in_rev.
Qed.

Lemma wellFormed_delete (k : string) (m : JSMap V) :
  wellFormed m -> wellFormed (Map_delete k m).
Proof.
  unfold wellFormed, Map_delete. induction m as [|[k' v'] m IH]; simpl; [auto|].
  intros Hwf. inversion Hwf as [|? ? Hnin Hrest]; subst.
  destruct (String.eqb k' k); simpl; [auto|].
  constructor; [|auto].
  intros Hin. apply Hnin. apply in_map_iff in Hin. destruct Hin as (e & He & Hin).
  apply filter_In in Hin. apply in_map_iff. exists e. tauto.
Qed.

(** In a well-formed map an entry is found under its key, and written
    where it stands. *)
Lemma Map_get_middle (k : string) (v : V) (before after : JSMap V) :
  ~ In k (map fst before) ->
  Map_get k (before ++ (k, v) :: after)%list = Some v.
Proof.
  induction before as [|[k' v'] before IH]; simpl.
  - now rewrite String.eqb_refl.
  - intros Hnin. destruct (String.eqb_spec k' k) as [->|Hk]; [tauto | apply IH; tauto].
Qed.

Lemma Map_set_middle (k : string) (v v' : V) (before after : JSMap V) :
  ~ In k (map fst before) ->
  Map_set k v' (before ++ (k, v) :: after)%list = (before ++ (k, v') :: after)%list.
Proof.
  induction before as [|[k0 v0] before IH]; simpl.
  - now rewrite String.eqb_refl.
  - intros Hnin. destruct (String.eqb_spec k0 k) as [->|Hk]; [tauto|].
    rewrite IH; tauto.
Qed.

End Maps.

(** ** API keys *)

Import Listing Admin StoreSpec.

Lemma find_all_false {A : Type} (f : A -> bool) (l : list A) :
  (forall x, In x l -> f x = false) -> find f l = None.
Proof.
  induction l as [|x l IH]; simpl; [reflexivity|].
  intros H. rewrite (H x (or_introl eq_refl)). apply IH. auto.
Qed.

Lemma gatewayStore_active (apiKeys : JSMap ApiKeyRow) (cache : JSMap QueryResult) :
  Storage.getActiveApiKey (gatewayStore apiKeys cache)
  = option_map key (Store.getActiveApiKey apiKeys).
Proof.
  unfold Storage.getActiveApiKey, Store.getActiveApiKey, gatewayStore, Map_values.
  simpl. induction apiKeys as [|[k v] m IH]; simpl; [reflexivity|].
  unfold truthy. destruct (isActive (key v)) as [[|]|]; simpl; auto.
Qed.

Lemma deactivateAll_from (todo before : JSMap ApiKeyRow) :
  wellFormed (before ++ todo)%list -> keysOwnIds todo ->
  deactivateAll (Map_values todo) (before ++ todo)%list
  = (before ++ map (fun e => (fst e, applyKeyUpdates (snd e) deactivate)) todo)%list.
Proof.
  revert before. induction todo as [|[k v] rest IH]; intros before Hwf Hown.
  - reflexivity.
  - unfold deactivateAll in *. simpl.
    assert (Hk : keyId (key v) = k) by (apply Hown; now left).
    assert (Hnin : ~ In k (map fst before)).
    { unfold wellFormed in Hwf. rewrite map_app in Hwf. simpl in Hwf.
      apply NoDup_remove_2 in Hwf. intros Hin. apply Hwf. apply in_or_app. now left. }
    unfold updateApiKey at 2. rewrite Hk, (Map_get_middle k v before rest Hnin).
    cbn [snd]. rewrite (Map_set_middle k v _ before rest Hnin).
    change (before ++ (k, applyKeyUpdates v deactivate) :: rest)%list
      with (before ++ [(k, applyKeyUpdates v deactivate)] ++ rest)%list.
    rewrite app_assoc. rewrite IH.
    + rewrite <- app_assoc. reflexivity.
    + unfold wellFormed in *. rewrite <- app_assoc. simpl.
      rewrite map_app in *. exact Hwf.
    + intros k' v' Hin. apply Hown. now right.
Qed.

Lemma deactivateAll_all (apiKeys : JSMap ApiKeyRow) :
  wellFormed apiKeys -> keysOwnIds apiKeys ->
  deactivateAll (getApiKeys apiKeys) apiKeys
  = map (fun e => (fst e, applyKeyUpdates (snd e) deactivate)) apiKeys.
Proof. intros Hwf Hown. exact (deactivateAll_from apiKeys [] Hwf Hown). Qed.

Lemma listDatabases_accepted this outcome :
  listAccepted outcome <-> exists dbs, snd (listDatabases this outcome) = Normal dbs.
Proof.
  unfold listAccepted, listDatabases. split.
  - intros (response & errors & result & -> & [Hlo Hhi] & Hbody). simpl.
    apply Z.leb_le in Hlo, Hhi. rewrite Hlo, Hhi, Hbody. simpl. eauto.
  - intros [dbs H]. destruct outcome as [response|n m]; simpl in H; [|discriminate].
    destruct (200 <=? listStatus response) eqn:Hlo;
      destruct (listStatus response <=? 299) eqn:Hhi; simpl in H; try discriminate.
    destruct (listBody response) as [success errors result|m] eqn:Hb; [|discriminate].
    destruct success; simpl in H; [|discriminate].
    exists response, errors, result. apply Z.leb_le in Hlo, Hhi. auto.
Qed.

(** The entries of a map after a write. *)
Lemma Map_set_In {V : Type} (k0 : string) (v0 : V) (m : JSMap V) (k : string) (v : V) :
  In (k, v) (Map_set k0 v0 m) -> (k = k0 /\ v = v0) \/ In (k, v) m.
Proof.
  induction m as [|[k1 v1] m IH]; simpl; intros Hin.
  - destruct Hin as [[= <- <-]|[]]. now left.
  - destruct (String.eqb_spec k1 k0) as [->|Hne].
    + destruct Hin as [[= <- <-]|Hin]; [now left | right; now right].
    + destruct Hin as [[= <- <-]|Hin]; [right; now left|].
      destruct (IH Hin) as [H|H]; [now left | right; now right].
Qed.

Lemma Map_delete_In {V : Type} (k0 : string) (m : JSMap V) (k : string) (v : V) :
  In (k, v) (Map_delete k0 m) <-> In (k, v) m /\ k <> k0.
Proof.
  unfold Map_delete. rewrite filter_In. simpl.
  destruct (String.eqb_spec k k0); simpl; intuition congruence.
Qed.

(** The keys after the loop of [POST /api/api-keys]: each one as it was,
    but inactive. *)
Lemma deactivated_keys (apiKeys : JSMap ApiKeyRow) (k : string) (v : ApiKeyRow) :
  keysOwnIds apiKeys ->
  In (k, v) (map (fun e => (fst e, applyKeyUpdates (snd e) deactivate)) apiKeys) ->
  isActive (key v) = Some false /\ keyId (key v) = k.
Proof.
  intros Hown Hin. apply in_map_iff in Hin.
  destruct Hin as ([k0 v0] & [= <- <-] & Hin). simpl. split; [reflexivity|].
  now apply Hown.
Qed.

(** What [POST /api/api-keys] does once the remote service has accepted
    the credentials. *)
Lemma postApiKey_accepted (toISOString : Z -> string)
    (data : InsertApiKey) (outcome : ListOutcome) (uuid : string) (now : Z)
    (apiKeys : JSMap ApiKeyRow) :
  wellFormed apiKeys -> keysOwnIds apiKeys -> listAccepted outcome ->
  let posted := fst (createApiKey data uuid now []) in
  postApiKey toISOString (inr data) outcome uuid now apiKeys
  = ({| replyStatus := 200; replyBody := safeApiKey toISOString posted |},
     Map_set uuid posted
       (map (fun e => (fst e, applyKeyUpdates (snd e) deactivate)) apiKeys),
     [fst (listDatabases {| Cloudflare.accountId := newAccountId data;
                            apiToken := newToken data |} outcome)]).
Proof.
  intros Hwf Hown Hacc. unfold postApiKey.
  set (cloudflare := {| Cloudflare.accountId := newAccountId data;
                        apiToken := newToken data |}).
  destruct (proj1 (listDatabases_accepted cloudflare outcome) Hacc) as [dbs Hdbs].
  destruct (listDatabases cloudflare outcome) as [request c]. simpl in Hdbs. subst c.
  rewrite (deactivateAll_all apiKeys Hwf Hown). reflexivity.
Qed.

(** The key written by an accepted [POST /api/api-keys] is the active one. *)
Lemma postApiKey_active (toISOString : Z -> string)
    (data : InsertApiKey) (outcome : ListOutcome) (uuid : string) (now : Z)
    (apiKeys : JSMap ApiKeyRow) :
  wellFormed apiKeys -> keysOwnIds apiKeys -> listAccepted outcome ->
  Store.getActiveApiKey
    (snd (fst (postApiKey toISOString (inr data) outcome uuid now apiKeys)))
  = Some (fst (createApiKey data uuid now [])).
Proof.
  intros Hwf Hown Hacc.
  rewrite (postApiKey_accepted toISOString data outcome uuid now apiKeys Hwf Hown Hacc).
  cbv zeta. cbn [createApiKey fst snd].
  unfold Store.getActiveApiKey. apply find_Map_set_none; [reflexivity|].
  unfold Map_values. apply find_all_false. intros v Hv.
  apply in_map_iff in Hv. destruct Hv as ([k0 v0] & <- & Hin).
  simpl. destruct (deactivated_keys apiKeys k0 v0 Hown Hin) as [-> _]. reflexivity.
Qed.

(** After [POST /api/api-keys] has verified a key against the remote
    service, the stored key is the one active key: it has the identifier
    drawn for it and the credentials of the request, [getActiveApiKey]
    returns it (so the gateway uses it from then on), every other key is
    inactive, and the map is still well formed with every key under its own
    identifier. *)
Theorem posted_key_is_the_active_key
    (toISOString : Z -> string)
    (data : InsertApiKey) (outcome : ListOutcome) (uuid : string) (now : Z)
    (apiKeys : JSMap ApiKeyRow) (cache : JSMap QueryResult) :
  wellFormed apiKeys -> keysOwnIds apiKeys ->
  listAccepted outcome ->
  let '(reply, stored, _) := postApiKey toISOString (inr data) outcome uuid now apiKeys in
  let posted := {| keyId := uuid; keyName := newName data;
                   cloudflareToken := newToken data;
                   Storage.accountId := newAccountId data;
                   isActive := Some true |} in
  replyStatus reply = 200
  /\ Store.getActiveApiKey stored = Some {| key := posted; keyCreatedAt := Some now |}
  /\ Storage.getActiveApiKey (gatewayStore stored cache) = Some posted
  /\ (forall k v, In (k, v) stored -> k <> uuid -> isActive (key v) = Some false)
  /\ wellFormed stored /\ keysOwnIds stored.
Proof.
  intros Hwf Hown Hacc.
  rewrite (postApiKey_accepted toISOString data outcome uuid now apiKeys Hwf Hown Hacc).
  cbv zeta. cbn [createApiKey fst].
  set (off := map (fun e => (fst e, applyKeyUpdates (snd e) deactivate)) apiKeys).
  set (posted := {| key := {| keyId := uuid; keyName := newName data;
                              cloudflareToken := newToken data;
                              Storage.accountId := newAccountId data;
                              isActive := Some true |};
                    keyCreatedAt := Some now |}).
  pose proof (fun k v => deactivated_keys apiKeys k v Hown) as Hoff. fold off in Hoff.
  assert (Hactive : Store.getActiveApiKey (Map_set uuid posted off) = Some posted).
  { pose proof (postApiKey_active toISOString data outcome uuid now apiKeys
                  Hwf Hown Hacc) as H.
    rewrite (postApiKey_accepted toISOString data outcome uuid now apiKeys
               Hwf Hown Hacc) in H.
    exact H. }
  split; [reflexivity|]. split; [exact Hactive|].
  split; [rewrite gatewayStore_active, Hactive; reflexivity|].
  split; [|split].
  - intros k v Hin Hne. destruct (Map_set_In _ _ _ _ _ Hin) as [[H _]|H]; [congruence|].
    exact (proj1 (Hoff k v H)).
  - apply wellFormed_set. unfold wellFormed, off. rewrite map_map. simpl. exact Hwf.
  - intros k v Hin. destruct (Map_set_In _ _ _ _ _ Hin) as [[-> ->]|H]; [reflexivity|].
    exact (proj2 (Hoff k v H)).
Qed.

(** A key that is not verified is not stored.  [POST /api/api-keys]
    answers 200 exactly when the body parses and the remote service accepts
    the credentials; in every other case it answers 400 and the keys are as
    they were, the active one still active.  At most one request goes out. *)
Theorem unverified_key_changes_nothing
    (toISOString : Z -> string)
    (parsed : JSError + InsertApiKey) (outcome : ListOutcome) (uuid : string) (now : Z)
    (apiKeys : JSMap ApiKeyRow) :
  let '(reply, stored, requests) :=
    postApiKey toISOString parsed outcome uuid now apiKeys in
  (replyStatus reply = 200 <-> exists data, parsed = inr data /\ listAccepted outcome)
  /\ (replyStatus reply <> 200 -> replyStatus reply = 400 /\ stored = apiKeys)
  /\ (length requests <= 1)%nat.
Proof.
  unfold postApiKey. destruct parsed as [error|data].
  - simpl. split; [|split; [auto | lia]].
    split; [discriminate | intros (d & [=] & _)].
  - set (cloudflare := {| Cloudflare.accountId := newAccountId data;
                          apiToken := newToken data |}).
    pose proof (listDatabases_accepted cloudflare outcome) as Hacc.
    destruct (listDatabases cloudflare outcome) as [request [dbs|error]];
      simpl in Hacc |- *.
    + split; [|split; [congruence | lia]].
      split; [intros _; exists data; split; [reflexivity | apply Hacc; eauto] | reflexivity].
    + split; [|split; [auto | lia]].
      split; [discriminate|].
      intros (d & _ & H). apply Hacc in H. destruct H as [dbs H]. discriminate.
Qed.

(** The answers about keys do not depend on the tokens: two stores whose
    keys differ in their tokens only list the same keys, and a key posted
    with another token is answered the same way. *)
Theorem key_answers_hide_tokens
    (toISOString : Z -> string)
    (apiKeys1 apiKeys2 : JSMap ApiKeyRow)
    (data1 data2 : InsertApiKey) (outcome1 outcome2 : ListOutcome)
    (uuid : string) (now : Z) :
  Forall2 sameButToken (getApiKeys apiKeys1) (getApiKeys apiKeys2) ->
  newName data1 = newName data2 -> newAccountId data1 = newAccountId data2 ->
  listAccepted outcome1 -> listAccepted outcome2 ->
  getApiKeysRoute toISOString apiKeys1 = getApiKeysRoute toISOString apiKeys2
  /\ fst (fst (postApiKey toISOString (inr data1) outcome1 uuid now apiKeys1))
     = fst (fst (postApiKey toISOString (inr data2) outcome2 uuid now apiKeys2)).
Proof.
  intros Hsame Hname Hacct Hacc1 Hacc2. split.
  - unfold getApiKeysRoute. do 2 f_equal.
    induction Hsame as [|a b l1 l2 (Hid & Hn & Ha & Hact & Hc) _ IH]; [reflexivity|].
    simpl. rewrite IH. f_equal. unfold safeApiKey. now rewrite Hid, Hn, Ha, Hact, Hc.
  - unfold postApiKey.
    destruct (proj1 (listDatabases_accepted
                       {| Cloudflare.accountId := newAccountId data1;
                          apiToken := newToken data1 |} outcome1) Hacc1) as [d1 H1].
    destruct (proj1 (listDatabases_accepted
                       {| Cloudflare.accountId := newAccountId data2;
                          apiToken := newToken data2 |} outcome2) Hacc2) as [d2 H2].
    destruct (listDatabases _ outcome1) as [r1 c1]. simpl in H1. subst c1.
    destruct (listDatabases _ outcome2) as [r2 c2]. simpl in H2. subst c2.
    simpl. unfold safeApiKey. simpl. now rewrite Hname, Hacct.
Qed.

(** Deleting the key that was posted last leaves the gateway without
    credentials, whatever older keys the store holds: they were deactivated
    when the key was posted and nothing activates them again.  The route
    answers 200, no key is active afterwards, queries are refused with 400,
    and deleting the same key once more answers 404 and changes nothing. *)
Theorem deleting_posted_key_stops_gateway
    (md5hex : string -> string) (beyondSafe : Z -> string) (toISOString : Z -> string)
    (data : InsertApiKey) (outcome : ListOutcome) (uuid : string) (now : Z)
    (apiKeys : JSMap ApiKeyRow) (env : QueryEnv) (id q : string) (w : World) :
  wellFormed apiKeys -> keysOwnIds apiKeys -> listAccepted outcome ->
  q <> "" ->
  let stored := snd (fst (postApiKey toISOString (inr data) outcome uuid now apiKeys)) in
  let '(reply, remaining) := deleteApiKeyRoute uuid stored in
  replyStatus reply = 200
  /\ Store.getActiveApiKey remaining = None
  /\ (forall cache, storage w = gatewayStore remaining cache ->
      queryRoute md5hex beyondSafe env id (Some q) w
      = (Normal {| statusCode := 400;
                   payload := [("message", JStr "No active API key configured")] |}, w))
  /\ deleteApiKeyRoute uuid remaining = (messageReply 404 "API key not found", remaining).
Proof.
  intros Hwf Hown Hacc Hq.
  rewrite (postApiKey_accepted toISOString data outcome uuid now apiKeys Hwf Hown Hacc).
  cbv zeta. cbn [createApiKey fst snd].
  set (off := map (fun e => (fst e, applyKeyUpdates (snd e) deactivate)) apiKeys).
  set (posted := {| key := _; keyCreatedAt := Some now |}).
  unfold deleteApiKeyRoute at 1. unfold deleteApiKey, Map_has.
  rewrite Map_get_set_same. cbn [negb].
  assert (Hnone : Store.getActiveApiKey (Map_delete uuid (Map_set uuid posted off)) = None).
  { unfold Store.getActiveApiKey, Map_values. apply find_all_false. intros v Hv.
    apply in_map_iff in Hv. destruct Hv as ([k0 v0] & <- & Hin).
    apply Map_delete_In in Hin. destruct Hin as [Hin Hne].
    destruct (Map_set_In _ _ _ _ _ Hin) as [[H _]|H]; [congruence|].
    simpl. destruct (deactivated_keys apiKeys k0 v0 Hown H) as [-> _]. reflexivity. }
  split; [reflexivity|]. split; [exact Hnone|]. split.
  - intros cache Hst. apply no_credential_rejection; [exact Hq|].
    rewrite Hst, gatewayStore_active, Hnone. reflexivity.
  - unfold deleteApiKeyRoute, deleteApiKey, Map_has.
    rewrite Map_get_delete_same. cbn [negb].
    rewrite Map_delete_absent by apply Map_get_delete_same. reflexivity.
Qed.

(** After a key has been posted the gateway signs its requests with the
    new credentials, but the cache is not tied to a key: a query that the
    cache does not answer goes out once, to the account of the new key and
    with its token; a query with a fresh entry, stored while another key was
    active, is still answered from the cache and nothing is sent. *)
Theorem key_rotation_keeps_the_cache
    (md5hex : string -> string) (beyondSafe : Z -> string) (toISOString : Z -> string)
    (data : InsertApiKey) (outcome : ListOutcome) (uuid : string) (now : Z)
    (apiKeys : JSMap ApiKeyRow) (cache : JSMap QueryResult)
    (env : QueryEnv) (id q : string) (w : World) :
  wellFormed apiKeys -> keysOwnIds apiKeys -> listAccepted outcome ->
  q <> "" ->
  storage w
  = gatewayStore (snd (fst (postApiKey toISOString (inr data) outcome uuid now apiKeys)))
      cache ->
  (qDevelopment env && String.eqb (newToken data) "mock-token-for-testing")%bool = false ->
  match freshHit (qCheckTime env) (getQueryResult (md5hex q) id (storage w)) with
  | None =>
      calls (snd (queryRoute md5hex beyondSafe env id (Some q) w))
      = (calls w
         ++ [{| url := baseUrl ++ "/accounts/" ++ newAccountId data
                       ++ "/d1/database/" ++ id ++ "/query";
                bearer := newToken data;
                sql := q |}])%list
  | Some hit =>
      queryRoute md5hex beyondSafe env id (Some q) w = (Normal (cachedResponse hit), w)
  end.
Proof.
  intros Hwf Hown Hacc Hq Hst Hmock.
  pose proof (postApiKey_active toISOString data outcome uuid now apiKeys Hwf Hown Hacc)
    as Hactive.
  assert (Hkey : Storage.getActiveApiKey (storage w)
                 = Some (key (fst (createApiKey data uuid now [])))).
  { rewrite Hst, gatewayStore_active, Hactive. reflexivity. }
  destruct (freshHit (qCheckTime env) (getQueryResult (md5hex q) id (storage w)))
    as [hit|] eqn:Hhit.
  - exact (queryRoute_hit md5hex beyondSafe env id q w _ hit Hq Hkey Hhit).
  - assert (Hreach : reachesRemote md5hex env id q w
                       (key (fst (createApiKey data uuid now []))))
      by (repeat split; [exact Hq | exact Hkey | exact Hmock | exact Hhit]).
    destruct (miss_sends_request md5hex beyondSafe env id q w _ Hreach) as [Hcalls _].
    rewrite Hcalls. reflexivity.
Qed.

(** ** Databases *)

Lemma mirrorDatabases_other (accountId : string) (clock : nat -> Z)
    (remote : list RemoteDatabase) :
  forall (position : nat) (databases : JSMap Database) (id : string),
    ~ In id (map uuid remote) ->
    Map_get id (mirrorDatabases accountId clock position remote databases)
    = Map_get id databases.
Proof.
  induction remote as [|db rest IH]; intros position databases id Hnin;
    [reflexivity|].
  simpl in Hnin. cbn [mirrorDatabases]. rewrite IH by tauto.
  unfold createDatabase. cbn [snd dbId newDbId].
  apply Map_get_set_other. intros ->. tauto.
Qed.

Lemma mirrorDatabases_listed (accountId : string) (clock : nat -> Z)
    (remote : list RemoteDatabase) :
  forall (position : nat) (databases : JSMap Database) (id : string),
    In id (map uuid remote) ->
    exists d,
      Map_get id (mirrorDatabases accountId clock position remote databases) = Some d
      /\ dbId d = id /\ dbAccountId d = accountId /\ dbIsActive d = Some true.
Proof.
  induction remote as [|db rest IH]; intros position databases id Hin;
    [contradiction|].
  cbn [mirrorDatabases].
  destruct (in_dec string_dec id (map uuid rest)) as [Hrest|Hrest].
  - apply IH. exact Hrest.
  - destruct Hin as [<-|Hin]; [|contradiction].
    rewrite mirrorDatabases_other by exact Hrest.
    unfold createDatabase. cbn [snd dbId newDbId]. rewrite Map_get_set_same.
    eexists. repeat split.
Qed.

Lemma mirrorDatabases_wellFormed (accountId : string) (clock : nat -> Z)
    (remote : list RemoteDatabase) :
  forall (position : nat) (databases : JSMap Database),
    wellFormed databases ->
    wellFormed (mirrorDatabases accountId clock position remote databases).
Proof.
  induction remote as [|db rest IH]; intros position databases Hwf; [exact Hwf|].
  cbn [mirrorDatabases]. apply IH. unfold createDatabase. cbn [snd].
  now apply wellFormed_set.
Qed.

(** [GET /api/databases] with a real key mirrors the remote list into the
    store: the answer lists the remote databases, each of them is then
    stored under its identifier with the account of the active key and is
    returned by [getDatabases], the databases the remote list does not
    name are as they were, and the map stays well formed. *)
Theorem listed_databases_are_mirrored
    (toISOString : Z -> string) (development : bool) (outcome : ListOutcome)
    (clock : nat -> Z) (apiKeys : JSMap ApiKeyRow) (databases : JSMap Database)
    (apiKey : ApiKeyRow) (remote : list RemoteDatabase) :
  Store.getActiveApiKey apiKeys = Some apiKey ->
  isMock development (key apiKey) = false ->
  snd (listDatabases (serviceFor (key apiKey)) outcome) = Normal remote ->
  let '(reply, stored, _) :=
    getDatabasesRoute toISOString development outcome clock apiKeys databases in
  reply = {| replyStatus := 200; replyBody := JArr (map listedDatabase remote) |}
  /\ (forall db, In db remote ->
        exists d, getDatabase (uuid db) stored = Some d
                  /\ dbId d = uuid db
                  /\ dbAccountId d = Storage.accountId (key apiKey)
                  /\ In d (getDatabases stored))
  /\ (forall id, ~ In id (map uuid remote) ->
        getDatabase id stored = getDatabase id databases)
  /\ (wellFormed databases -> wellFormed stored).
Proof.
  intros Hkey Hmock Hlist. unfold getDatabasesRoute. rewrite Hkey, Hmock.
  destruct (listDatabases (serviceFor (key apiKey)) outcome) as [request c].
  simpl in Hlist. subst c.
  split; [reflexivity|]. split; [|split].
  - intros db Hin.
    destruct (mirrorDatabases_listed (Storage.accountId (key apiKey)) clock remote 0
                databases (uuid db) (in_map uuid _ _ Hin)) as (d & Hget & Hid & Hacc & Hact).
    exists d. unfold getDatabase, getDatabases. repeat split; trivial.
    apply filter_In. split.
    + unfold Map_values. apply in_map_iff. exists (uuid db, d).
      split; [reflexivity | now apply Map_get_In].
    + now rewrite Hact.
  - intros id Hnin. now apply mirrorDatabases_other.
  - apply mirrorDatabases_wellFormed.
Qed.

(** [GET /api/databases] never removes a database from the store: one that
    is stored before the call is stored after it, also when the remote list
    no longer names it.  An answer other than 200 leaves the store as it
    was, and a request that goes out bears the token of the active key. *)
Theorem databases_route_never_removes
    (toISOString : Z -> string) (development : bool) (outcome : ListOutcome)
    (clock : nat -> Z) (apiKeys : JSMap ApiKeyRow) (databases : JSMap Database) :
  let '(reply, stored, requests) :=
    getDatabasesRoute toISOString development outcome clock apiKeys databases in
  (forall id, getDatabase id databases <> None -> getDatabase id stored <> None)
  /\ (replyStatus reply <> 200 -> stored = databases)
  /\ (forall request, In request requests ->
        exists apiKey, Store.getActiveApiKey apiKeys = Some apiKey
                       /\ listBearer request = cloudflareToken (key apiKey)).
Proof.
  unfold getDatabasesRoute.
  destruct (Store.getActiveApiKey apiKeys) as [apiKey|];
    [|split; [auto | split; [auto | intros r []]]].
  destruct (isMock development (key apiKey));
    [split; [auto | split; [auto | intros r []]]|].
  destruct (listDatabases (serviceFor (key apiKey)) outcome) as [request c] eqn:Hlist.
  assert (Hreq : forall r, In r [request] ->
            exists k, Some apiKey = Some k /\ listBearer r = cloudflareToken (key k)).
  { intros r [<-|[]]. exists apiKey. split; [reflexivity|].
    apply (f_equal fst) in Hlist. simpl in Hlist. now subst request. }
  destruct c as [remote|error].
  - split; [|split; [simpl; congruence | exact Hreq]].
    intros id Hsome. unfold getDatabase in *.
    destruct (in_dec string_dec id (map uuid remote)) as [Hin|Hnin].
    + destruct (mirrorDatabases_listed (Storage.accountId (key apiKey)) clock remote 0
                  databases id Hin) as (d & -> & _). discriminate.
    + now rewrite mirrorDatabases_other.
  - split; [auto | split; [auto | exact Hreq]].
Qed.

(** ** Saved queries *)

Lemma Map_set_fresh {V : Type} (k : string) (v : V) (m : JSMap V) :
  Map_get k m = None -> Map_set k v m = (m ++ [(k, v)])%list.
Proof.
  induction m as [|[k' v'] m IH]; simpl; [reflexivity|].
  destruct (String.eqb k' k); [discriminate|]. intros H. now rewrite IH.
Qed.

Lemma getSavedQueries_of (db : string) (savedQueries : JSMap SavedQuery) :
  db <> "" ->
  getSavedQueries (Some db) savedQueries
  = filter (fun q => String.eqb (sqDatabaseId q) db) (Map_values savedQueries).
Proof. intros Hdb. destruct db; [contradiction | reflexivity]. Qed.

(** A query saved under a fresh identifier can be fetched by that
    identifier and comes last in the list of all queries and in the list of
    its own database; the lists of the other databases are as they were. *)
Theorem saved_query_is_listed
    (insertQuery : InsertSavedQuery) (uuid : string) (created updated : Z)
    (savedQueries : JSMap SavedQuery) (db : string) :
  getSavedQuery uuid savedQueries = None ->
  db <> "" ->
  let '(savedQuery, stored) :=
    createSavedQuery insertQuery uuid created updated savedQueries in
  getSavedQuery uuid stored = Some savedQuery
  /\ getSavedQueries None stored
     = (getSavedQueries None savedQueries ++ [savedQuery])%list
  /\ getSavedQueries (Some db) stored
     = if String.eqb (newSqDatabaseId insertQuery) db
       then (getSavedQueries (Some db) savedQueries ++ [savedQuery])%list
       else getSavedQueries (Some db) savedQueries.
Proof.
  intros Hfresh Hdb. unfold createSavedQuery, getSavedQuery in *.
  split; [apply Map_get_set_same|].
  rewrite !getSavedQueries_of by exact Hdb.
  unfold getSavedQueries, Map_values. rewrite (Map_set_fresh _ _ _ Hfresh).
  rewrite map_app. split; [reflexivity|].
  rewrite filter_app. cbn [map snd filter sqDatabaseId].
  destruct (String.eqb (newSqDatabaseId insertQuery) db);
    [reflexivity | apply app_nil_r].
Qed.

Lemma Map_values_delete (id : string) (savedQueries : JSMap SavedQuery) :
  queriesOwnIds savedQueries ->
  Map_values (Map_delete id savedQueries)
  = filter (fun q => negb (String.eqb (sqId q) id)) (Map_values savedQueries).
Proof.
  unfold Map_values, Map_delete.
  induction savedQueries as [|[k v] m IH]; intros Hown; [reflexivity|].
  assert (Hk : sqId v = k) by (apply Hown; now left).
  cbn [filter map fst snd]. rewrite Hk.
  rewrite <- IH by (intros k' v' Hin; apply Hown; now right).
  destruct (String.eqb k id); reflexivity.
Qed.

Lemma filter_filter_comm {A : Type} (f g : A -> bool) (l : list A) :
  filter f (filter g l) = filter g (filter f l).
Proof.
  induction l as [|x l IH]; [reflexivity|]. simpl.
  destruct (f x) eqn:Hf, (g x) eqn:Hg; simpl; rewrite ?Hf, ?Hg, IH; reflexivity.
Qed.

(** [DELETE /api/saved-queries/:id] answers 404 exactly when no query is
    stored under the identifier, and then changes nothing; in every case the
    query cannot be fetched afterwards, and each list of saved queries is the
    list of before without the query of that identifier, the others in
    their order. *)
Theorem deleted_saved_query_is_gone
    (id : string) (savedQueries : JSMap SavedQuery) (databaseId : option string) :
  queriesOwnIds savedQueries ->
  let '(reply, remaining) := deleteSavedQueryRoute id savedQueries in
  (replyStatus reply = 404 <-> getSavedQuery id savedQueries = None)
  /\ (replyStatus reply = 200 <-> getSavedQuery id savedQueries <> None)
  /\ (replyStatus reply = 404 -> remaining = savedQueries)
  /\ getSavedQuery id remaining = None
  /\ getSavedQueries databaseId remaining
     = filter (fun q => negb (String.eqb (sqId q) id))
         (getSavedQueries databaseId savedQueries).
Proof.
  intros Hown. unfold deleteSavedQueryRoute, deleteSavedQuery, Map_has, getSavedQuery.
  assert (Hlist : getSavedQueries databaseId (Map_delete id savedQueries)
                  = filter (fun q => negb (String.eqb (sqId q) id))
                      (getSavedQueries databaseId savedQueries)).
  { unfold getSavedQueries. rewrite (Map_values_delete id savedQueries Hown).
    destruct databaseId as [[|c db]|]; try reflexivity. apply filter_filter_comm. }
  destruct (Map_get id savedQueries) as [q|] eqn:Hget; cbn [negb].
  - split; [split; discriminate|]. split; [split; [discriminate | reflexivity]|].
    split; [discriminate|]. split; [apply Map_get_delete_same | exact Hlist].
  - split; [split; reflexivity|]. split; [split; [discriminate | congruence]|].
    split; [intros _; now apply Map_delete_absent|].
    split; [apply Map_get_delete_same | exact Hlist].
Qed.

(** ** Chat messages *)

Lemma insertByTime_perm (x : ChatMessage) (l : list ChatMessage) :
  Permutation (insertByTime x l) (x :: l).
Proof.
  induction l as [|y l IH]; simpl; [reflexivity|].
  destruct (timeOf x <=? timeOf y); [reflexivity|].
  rewrite IH. apply perm_swap.
Qed.

Lemma sortByTime_perm (l : list ChatMessage) : Permutation (sortByTime l) l.
Proof.
  induction l as [|x l IH]; simpl; [reflexivity|].
  rewrite insertByTime_perm. now constructor.
Qed.

Lemma insertByTime_sorted (x : ChatMessage) (l : list ChatMessage) :
  Sorted notLater l -> Sorted notLater (insertByTime x l).
Proof.
  induction l as [|y l IH]; simpl; intros Hs.
  - repeat constructor.
  - destruct (Z.leb_spec (timeOf x) (timeOf y)) as [Hle|Hgt].
    + constructor; [exact Hs | constructor; exact Hle].
    + inversion Hs as [|? ? Hl Hhd]; subst. constructor; [auto|].
      destruct l as [|z l]; simpl.
      * constructor. unfold notLater. lia.
      * destruct (Z.leb_spec (timeOf x) (timeOf z)); constructor;
          [unfold notLater; lia | now inversion Hhd].
Qed.

Lemma sortByTime_sorted (l : list ChatMessage) : StronglySorted notLater (sortByTime l).
Proof.
  apply Sorted_StronglySorted.
  - intros a b c. unfold notLater. lia.
  - induction l as [|x l IH]; simpl; [constructor | now apply insertByTime_sorted].
Qed.

(** The sort is stable: messages already in order stay where they are. *)
Lemma sortByTime_in_order (l : list ChatMessage) :
  Sorted notLater l -> sortByTime l = l.
Proof.
  induction l as [|x l IH]; [reflexivity|]. intros Hs.
  inversion Hs as [|? ? Hl Hhd]; subst. simpl. rewrite (IH Hl).
  destruct l as [|y l]; [reflexivity|]. simpl.
  inversion Hhd as [|? ? Hxy]; subst. unfold notLater in Hxy.
  destruct (Z.leb_spec (timeOf x) (timeOf y)); [reflexivity | lia].
Qed.

Lemma filteredMessages_In (databaseId : option string) (messages : list ChatMessage)
    (m : ChatMessage) :
  In m (filteredMessages databaseId messages) -> In m messages.
Proof.
  destruct databaseId as [[|c db]|]; simpl; trivial.
  intros H. now apply filter_In in H.
Qed.

(** When every stored message has its time of creation the comparator
    never fails. *)
Lemma getChatMessages_dated (databaseId : option string)
    (chatMessages : JSMap ChatMessage) :
  (forall k m, In (k, m) chatMessages -> msgCreatedAt m <> None) ->
  getChatMessages databaseId chatMessages
  = Some (sortByTime (filteredMessages databaseId (Map_values chatMessages))).
Proof.
  intros Hdated. unfold getChatMessages. cbv zeta.
  destruct (existsb _ (filteredMessages databaseId (Map_values chatMessages))) eqn:E.
  - apply existsb_exists in E. destruct E as (m & Hin & Hm).
    apply filteredMessages_In in Hin. unfold Map_values in Hin.
    apply in_map_iff in Hin. destruct Hin as ([k m'] & <- & Hin).
    specialize (Hdated k m' Hin). simpl in Hm.
    destruct (msgCreatedAt m'); [discriminate | congruence].
  - now rewrite andb_false_r.
Qed.

(** [getChatMessages] answers the messages of the database, or all of
    them, each one once, from the earliest to the latest; messages that are
    stored in that order already are answered in the order of the store,
    those of the same time included. *)
Theorem chat_messages_in_order
    (databaseId : option string) (chatMessages : JSMap ChatMessage) :
  (forall k m, In (k, m) chatMessages -> msgCreatedAt m <> None) ->
  exists messages,
    getChatMessages databaseId chatMessages = Some messages
    /\ StronglySorted notLater messages
    /\ Permutation messages (filteredMessages databaseId (Map_values chatMessages))
    /\ (Sorted notLater (filteredMessages databaseId (Map_values chatMessages)) ->
        messages = filteredMessages databaseId (Map_values chatMessages)).
Proof.
  intros Hdated. eexists. split; [now apply getChatMessages_dated|].
  split; [apply sortByTime_sorted|]. split; [apply sortByTime_perm|].
  apply sortByTime_in_order.
Qed.

Lemma Map_delete_middle {V : Type} (k : string) (v : V) (before after : JSMap V) :
  ~ In k (map fst before) -> ~ In k (map fst after) ->
  Map_delete k (before ++ (k, v) :: after)%list = (before ++ after)%list.
Proof.
  intros Hb Ha. unfold Map_delete. rewrite filter_app. cbn [filter fst].
  rewrite String.eqb_refl. cbn [negb].
  fold (Map_delete k before) (Map_delete k after).
  now rewrite !Map_delete_absent by (now apply Map_get_None).
Qed.

(** The loop of [clearChatHistory] over the entries that are still to be
    visited, after the entries [kept]. *)
Lemma clearChatHistory_from (db : string) (todo : JSMap ChatMessage) :
  forall kept : JSMap ChatMessage,
    wellFormed (kept ++ todo)%list ->
    fold_left (fun m e => if inDatabase db (snd e) then Map_delete (fst e) m else m)
      todo (kept ++ todo)%list
    = (kept ++ filter (fun e => negb (inDatabase db (snd e))) todo)%list.
Proof.
  induction todo as [|[k v] rest IH]; intros kept Hwf; [reflexivity|].
  cbn [fold_left filter fst snd].
  destruct (inDatabase db v) eqn:Hv; cbn [negb].
  - unfold wellFormed in Hwf. rewrite map_app in Hwf. cbn [map fst] in Hwf.
    pose proof (NoDup_remove_2 _ _ _ Hwf) as Hnin.
    pose proof (NoDup_remove_1 _ _ _ Hwf) as Hrest.
    rewrite Map_delete_middle
      by (intros Hin; apply Hnin; apply in_or_app; auto).
    apply IH. unfold wellFormed. now rewrite map_app.
  - change (kept ++ (k, v) :: rest)%list with (kept ++ [(k, v)] ++ rest)%list.
    rewrite app_assoc. rewrite IH.
    + now rewrite <- app_assoc.
    + now rewrite <- app_assoc.
Qed.

Lemma filter_out_then_in (db : string) (m : JSMap ChatMessage) :
  filter (inDatabase db)
    (Map_values (filter (fun e => negb (inDatabase db (snd e))) m)) = [].
Proof.
  unfold Map_values. induction m as [|[k v] m IH]; [reflexivity|].
  cbn [filter snd]. destruct (inDatabase db v) eqn:Hv; cbn [negb map snd filter];
    [exact IH | now rewrite Hv].
Qed.

Lemma inDatabase_one (db other : string) (m : ChatMessage) :
  other <> db -> inDatabase other m = true -> inDatabase db m = false.
Proof.
  unfold inDatabase. destruct (msgDatabaseId m) as [d|]; [|discriminate].
  intros Hne H. apply String.eqb_eq in H. subst d. now apply String.eqb_neq.
Qed.

(** [clearChatHistory] for a database removes the messages of that
    database and no other: the messages that remain are those of before that
    are not of the database, in their order; the history of the database is
    then empty, the history of every other database is as it was.  Without
    a database the whole map is emptied. *)
Theorem cleared_history_is_one_database
    (db : string) (chatMessages : JSMap ChatMessage) :
  wellFormed chatMessages -> db <> "" ->
  let remaining := snd (clearChatHistory (Some db) chatMessages) in
  remaining = filter (fun e => negb (inDatabase db (snd e))) chatMessages
  /\ getChatMessages (Some db) remaining = Some []
  /\ (forall other, other <> db -> other <> "" ->
        filteredMessages (Some other) (Map_values remaining)
        = filteredMessages (Some other) (Map_values chatMessages))
  /\ snd (clearChatHistory None chatMessages) = [].
Proof.
  intros Hwf Hdb. cbv zeta.
  assert (Hrem : snd (clearChatHistory (Some db) chatMessages)
                 = filter (fun e => negb (inDatabase db (snd e))) chatMessages).
  { destruct db as [|c db]; [contradiction|]. cbn [clearChatHistory snd].
    exact (clearChatHistory_from (String c db) chatMessages [] Hwf). }
  rewrite Hrem. split; [reflexivity|]. split; [|split; [|reflexivity]].
  - unfold getChatMessages. cbv zeta.
    destruct db as [|c db]; [contradiction|]. cbn [filteredMessages].
    rewrite filter_out_then_in. reflexivity.
  - intros other Hne Hother. destruct other as [|c other]; [contradiction|].
    cbn [filteredMessages]. unfold Map_values. clear Hrem Hwf.
    induction chatMessages as [|[k v] m IH]; [reflexivity|].
    cbn [filter map snd].
    destruct (inDatabase (String c other) v) eqn:Hv.
    + rewrite (inDatabase_one db _ v Hne Hv). cbn [negb map snd filter].
      rewrite Hv. now rewrite IH.
    + destruct (inDatabase db v); cbn [negb map snd filter]; [exact IH|].
      rewrite Hv. exact IH.
Qed.

Lemma clearChatHistory_In (databaseId : option string) (chatMessages : JSMap ChatMessage)
    (e : string * ChatMessage) :
  In e (snd (clearChatHistory databaseId chatMessages)) -> In e chatMessages.
Proof.
  destruct databaseId as [[|c db]|]; cbn [clearChatHistory snd]; try contradiction.
  generalize chatMessages at 1 as todo.
  intros todo. revert chatMessages.
  induction todo as [|[k v] rest IH]; intros acc; cbn [fold_left fst snd]; [trivial|].
  intros Hin. apply IH in Hin. destruct (inDatabase (String c db) v); [|exact Hin].
  destruct e as [k' v']. now apply Map_delete_In in Hin.
Qed.

(** Whatever messages are created and whatever histories are cleared,
    starting from the empty store, every stored message has its time of
    creation. *)
Lemma chat_store_dated (history : list ChatCall) :
  forall k m, In (k, m) (fold_left chatStep history []) -> msgCreatedAt m <> None.
Proof.
  assert (Hgen : forall store : JSMap ChatMessage,
             (forall k m, In (k, m) store -> msgCreatedAt m <> None) ->
             forall k m, In (k, m) (fold_left chatStep history store) ->
                         msgCreatedAt m <> None).
  { induction history as [|c history IH]; intros store Hstore; [exact Hstore|].
    cbn [fold_left]. apply IH. intros k m Hin. destruct c as [i uuid now|db].
    - cbn [chatStep createChatMessage snd] in Hin.
      destruct (Map_set_In _ _ _ _ _ Hin) as [[_ ->]|H]; [discriminate | eauto].
    - cbn [chatStep] in Hin. apply clearChatHistory_In in Hin. eauto. }
  apply Hgen. intros k m [].
Qed.

(** [GET /api/chat/messages] cannot fail on a store that the handlers have
    filled: after any sequence of created messages and cleared histories,
    [getChatMessages] answers a list, in order of time, of the stored
    messages it was asked for. *)
Theorem chat_history_is_always_answered
    (history : list ChatCall) (databaseId : option string) :
  let chatMessages := fold_left chatStep history [] in
  exists messages,
    getChatMessages databaseId chatMessages = Some messages
    /\ StronglySorted notLater messages
    /\ forall m, In m messages
                 <-> In m (filteredMessages databaseId (Map_values chatMessages)).
Proof.
  cbv zeta. eexists. split; [apply getChatMessages_dated, chat_store_dated|].
  split; [apply sortByTime_sorted|].
  intros m. split; apply Permutation_in;
    [apply sortByTime_perm | symmetry; apply sortByTime_perm].
Qed.

(** ** convertToCSV *)

Import Csv.

Lemma length_append (s t : string) :
  String.length (s ++ t) = (String.length s + String.length t)%nat.
Proof. induction s as [|c s IH]; simpl; [reflexivity | now rewrite IH]. Qed.

Lemma append_inv_tail (s s' t : string) : s ++ t = s' ++ t -> s = s'.
Proof.
  revert s'. induction s as [|c s IH]; intros [|d s'] H; simpl in H.
  - reflexivity.
  - apply (f_equal String.length) in H. simpl in H. rewrite length_append in H. lia.
  - apply (f_equal String.length) in H. simpl in H. rewrite length_append in H. lia.
  - inversion H. f_equal. auto.
Qed.

Lemma doubleQuotes_inj (a b : string) : doubleQuotes a = doubleQuotes b -> a = b.
Proof.
  revert b. induction a as [|c a IH]; intros [|d b]; simpl.
  - reflexivity.
  - destruct (Ascii.eqb d _); discriminate.
  - destruct (Ascii.eqb c _); discriminate.
  - destruct (Ascii.eqb_spec c (ascii_of_nat 34)) as [->|Hc],
             (Ascii.eqb_spec d (ascii_of_nat 34)) as [->|Hd];
      intros H; inversion H; try congruence; f_equal; auto.
Qed.

Lemma quoted_includes_quote (s : string) : includes (dquote ++ s) dquote = true.
Proof. rewrite includes_unfold. simpl. destruct s; reflexivity. Qed.

Section CsvProperties.

Variable beyondSafe : Z -> string.
Variable fractionToString : Z -> nat -> string.

(** The escaping of [convertToCSV] loses nothing of a text: two texts
    that are written the same way in a cell are the same text, whether or
    not they are wrapped in quotes. *)
Theorem escaped_text_is_recovered (a b : string) :
  cell beyondSafe fractionToString (JStr a) = cell beyondSafe fractionToString (JStr b) ->
  a = b.
Proof.
  unfold cell.
  destruct (includes a "," || includes a dquote)%bool eqn:Ea,
           (includes b "," || includes b dquote)%bool eqn:Eb; intros H.
  - apply doubleQuotes_inj. apply (append_inv_tail _ _ dquote).
    simpl in H. now inversion H.
  - rewrite <- H, quoted_includes_quote, orb_true_r in Eb. discriminate.
  - rewrite H, quoted_includes_quote, orb_true_r in Ea. discriminate.
  - exact H.
Qed.

(** The columns of the export are those of the first row.  The first line
    names them, and the lines of the other rows depend only on the values
    these rows have in those columns: a property that the first row lacks
    is never written. *)
Theorem csv_columns_of_first_row (first : JSObject) (rest rest' : list JSObject) :
  Forall2 (fun row row' => forall header, In header (map fst first) ->
                                          prop row header = prop row' header)
    rest rest' ->
  convertToCSV beyondSafe fractionToString (Some (first :: rest))
  = convertToCSV beyondSafe fractionToString (Some (first :: rest'))
  /\ exists lines,
       convertToCSV beyondSafe fractionToString (Some (first :: rest))
       = join "," (map fst first) ++ newline ++ lines.
Proof.
  intros Hsame. split.
  - unfold convertToCSV. do 2 f_equal. cbn [map]. f_equal.
    induction Hsame as [|row row' l l' Hrow _ IH]; [reflexivity|].
    cbn [map]. rewrite IH. f_equal. unfold rowLine. f_equal.
    apply map_ext_in. intros header Hin. now rewrite (Hrow header Hin).
  - eexists. unfold convertToCSV, join. cbn [map String.concat]. reflexivity.
Qed.

End CsvProperties.

(** ** The pages of the results table *)

Import Client.

Lemma firstn_add {A : Type} (a b : nat) (l : list A) :
  firstn (a + b) l = (firstn a l ++ firstn b (skipn a l))%list.
Proof.
  revert l. induction a as [|a IH]; intros [|x l]; simpl; try reflexivity.
  - now rewrite firstn_nil.
  - now rewrite IH.
Qed.

Lemma paginatedData_nat {A : Type} (data : list A) (i : nat) :
  paginatedData data (Z.of_nat (S i)) = firstn 10 (skipn (10 * i) data).
Proof.
  unfold paginatedData, slice, itemsPerPage. cbv zeta.
  replace (Z.to_nat ((Z.of_nat (S i) - 1) * 10 + 10 - (Z.of_nat (S i) - 1) * 10))
    with 10%nat by lia.
  replace (Z.to_nat ((Z.of_nat (S i) - 1) * 10)) with (10 * i)%nat by lia.
  reflexivity.
Qed.

Lemma pages_upto {A : Type} (data : list A) (n : nat) :
  concat (map (paginatedData data) (pageNumbers n)) = firstn (10 * n) data.
Proof.
  unfold pageNumbers. induction n as [|n IH]; [reflexivity|].
  rewrite seq_S, !map_app, concat_app, IH. cbn [map concat Nat.add].
  rewrite app_nil_r, paginatedData_nat.
  replace (10 * S n)%nat with (10 * n + 10)%nat by lia.
  now rewrite firstn_add.
Qed.

Lemma totalPages_bounds {A : Type} (data : list A) :
  10 * (totalPages data - 1) < Z.of_nat (length data) <= 10 * totalPages data
  \/ (length data = 0%nat /\ totalPages data = 0).
Proof.
  unfold totalPages, itemsPerPage.
  pose proof (Z.div_mod (Z.of_nat (length data) + 10 - 1) 10 ltac:(lia)) as Hd.
  pose proof (Z.mod_pos_bound (Z.of_nat (length data) + 10 - 1) 10 ltac:(lia)) as Hm.
  destruct (length data) as [|n]; [right; split; reflexivity|]. left. lia.
Qed.

(** The pages 1 to [totalPages] show every row once and in order: put one
    after the other they are the sorted rows. *)
Theorem pages_partition_the_rows {A : Type} (data : list A) :
  concat (map (paginatedData data) (pageNumbers (Z.to_nat (totalPages data)))) = data.
Proof.
  rewrite pages_upto. apply firstn_all2.
  destruct (totalPages_bounds data) as [H|[H _]]; lia.
Qed.

(** A page between 1 and [totalPages] shows between one and ten rows, as
    many as the line below the table announces (from [showingFrom] to
    [showingTo]), and the two arrows lead to a page in the same range. *)
Theorem page_in_range_is_shown {A : Type} (data : list A) (currentPage : Z) :
  1 <= currentPage <= totalPages data ->
  (1 <= length (paginatedData data currentPage) <= 10)%nat
  /\ Z.of_nat (length (paginatedData data currentPage))
     = showingTo data currentPage - showingFrom currentPage + 1
  /\ 1 <= previousPage currentPage <= totalPages data
  /\ 1 <= nextPage (totalPages data) currentPage <= totalPages data.
Proof.
  intros Hp.
  destruct (totalPages_bounds data) as [Hb|[_ H0]]; [|lia].
  unfold previousPage, nextPage, showingTo, showingFrom, itemsPerPage.
  replace currentPage with (Z.of_nat (S (Z.to_nat (currentPage - 1)))) at 1 2 3 by lia.
  rewrite paginatedData_nat, length_firstn, length_skipn.
  lia.
Qed.

(** ** The schema route *)

(** [GET /api/databases/:id/schema] always answers, never writes to the
    store and sends at most the schema query.  It answers 400 exactly when
    no key is active, and 500 with the message of the error for every error
    that reading the schema throws: here the errors of the user are not told
    from those of the system. *)
Theorem schema_route_outcomes
    (beyondSafe : Z -> string) (development : bool) (outcome : FetchOutcome)
    (id : string) (w : World) :
  let '(c, w') := schemaRoute beyondSafe development outcome id w in
  storage w' = storage w
  /\ (calls w' = calls w
      \/ exists key, Storage.getActiveApiKey (storage w) = Some key
                     /\ calls w' = (calls w ++ [queryRequest (serviceFor key) id schemaQuery])%list)
  /\ exists reply,
       c = Normal reply
       /\ (replyStatus reply = 400 <-> Storage.getActiveApiKey (storage w) = None)
       /\ forall key, Storage.getActiveApiKey (storage w) = Some key ->
            match fst (getDatabaseSchema beyondSafe (serviceFor key) development id
                         outcome w) with
            | Normal schema =>
                reply = {| replyStatus := 200; replyBody := rowsValue schema |}
            | Throw error => reply = messageReply 500 (errorMessage error)
            end.
Proof.
  unfold schemaRoute. run.
  destruct (Storage.getActiveApiKey (storage w)) as [key|] eqn:Hkey.
  - destruct (getDatabaseSchema beyondSafe (serviceFor key) development id outcome w)
      as [[schema|error] w1] eqn:Hschema;
      destruct (getDatabaseSchema_calls _ _ _ _ _ _ _ _ Hschema) as (Hst & _ & Hcalls);
      (split; [exact Hst|]);
      (split; [destruct Hcalls as [H|H]; [now left | right; exists key; now split]|]);
      eexists; (split; [reflexivity|]);
      (split; [split; [discriminate | discriminate]|]);
      intros key' [= <-]; rewrite Hschema; reflexivity.
  - split; [reflexivity|]. split; [now left|].
    eexists. split; [reflexivity|]. split; [split; reflexivity|].
    intros key' [=].
Qed.

(** ** The development seed *)

Import Startup.

(** Without real credentials the development seed stores the mock key and
    two databases.  Whether the handlers then work in mock mode depends on
    a second flag, read from NODE_ENV at each request: when it says
    development, [GET /api/databases] answers the two seeded databases and
    sends nothing; when it does not, the same store makes the handler send
    the mock token to the remote service. *)
Theorem seeded_mock_key_needs_development
    (toISOString : Z -> string) (accountIdVar tokenVar : option string)
    (uuid : string) (clock : nat -> Z)
    (development : bool) (outcome : ListOutcome) (routeClock : nat -> Z) :
  (isSet accountIdVar && isSet tokenVar)%bool = false ->
  let '(apiKeys, databases) := seed true accountIdVar tokenVar uuid clock in
  let '(reply, stored, requests) :=
    getDatabasesRoute toISOString development outcome routeClock apiKeys databases in
  if development then
    requests = [] /\ stored = databases
    /\ reply
       = {| replyStatus := 200;
            replyBody :=
              JArr [JObj [("id", JStr "db-test-1"); ("uuid", JStr "db-test-1");
                          ("name", JStr "Users Database");
                          ("created_at", JStr (toISOString (clock 1%nat)));
                          ("version", JStr "1.0"); ("running_in_region", JStr "dev")];
                    JObj [("id", JStr "db-test-2"); ("uuid", JStr "db-test-2");
                          ("name", JStr "Analytics Database");
                          ("created_at", JStr (toISOString (clock 2%nat)));
                          ("version", JStr "1.0"); ("running_in_region", JStr "dev")]] |}
  else
    requests = [{| listUrl := baseUrl ++ "/accounts/mock-account-id/d1/database";
                   listBearer := "mock-token-for-testing" |}].
Proof.
  intros Hunset. unfold seed. rewrite Hunset. cbv zeta.
  unfold getDatabasesRoute. cbn [createApiKey createDatabase snd Map_set dbId].
  destruct development.
  - repeat split.
  - change (Store.getActiveApiKey _) with
      (Some {| key := {| keyId := uuid; keyName := "Mock Development Key";
                         cloudflareToken := "mock-token-for-testing";
                         Storage.accountId := "mock-account-id";
                         isActive := Some true |};
               keyCreatedAt := Some (clock 0%nat) |}).
    cbv iota beta. cbn [isMock andb key].
    destruct (listDatabases _ outcome) as [request c] eqn:Hlist.
    apply (f_equal fst) in Hlist. cbn [fst listDatabases] in Hlist. subst request.
    destruct c; reflexivity.
Qed.

(** ** The further properties on concrete stores and requests *)

Lemma fixture_keys_wellFormed : wellFormed Fixture.keys.
Proof. unfold wellFormed. simpl. constructor; [intros [] | constructor]. Qed.

Lemma fixture_keys_own : keysOwnIds Fixture.keys.
Proof. intros k v [[= <- <-]|[]]. reflexivity. Qed.

Lemma fixture_accepted : listAccepted Fixture.accepted.
Proof.
  do 3 eexists. split; [reflexivity|]. split; [simpl; lia | reflexivity].
Qed.

(** The users query is executed at time 1000 and asked again at time
    400000: both calls reach the remote service. *)
Lemma elapsed_window_executes_again_witness :
  let env1 := Sample.queryEnv 1000 "entry-1"
                (Responded (Sample.answer (Sample.succeeded [Sample.bobRow]))) in
  let env2 := Sample.queryEnv 400000 "entry-2"
                (Responded (Sample.answer (Sample.succeeded [Sample.bobRow]))) in
  let run1 := queryRoute Sample.md5hex Sample.beyondSafe env1 "db-1"
                (Some Sample.usersQuery) Sample.world in
  let run2 := queryRoute Sample.md5hex Sample.beyondSafe env2 "db-1"
                (Some Sample.usersQuery) (snd run1) in
  calls (snd run2)
  = [queryRequest (serviceFor Sample.key) "db-1" Sample.usersQuery;
     queryRequest (serviceFor Sample.key) "db-1" Sample.usersQuery].
Proof.
  refine (proj1 (elapsed_window_executes_again Sample.md5hex Sample.beyondSafe
            (Sample.queryEnv 1000 "entry-1"
               (Responded (Sample.answer (Sample.succeeded [Sample.bobRow]))))
            (Sample.queryEnv 400000 "entry-2"
               (Responded (Sample.answer (Sample.succeeded [Sample.bobRow]))))
            "db-1" Sample.usersQuery Sample.world Sample.key
            (Sample.answer (Sample.succeeded [Sample.bobRow]))
            (Sample.succeeded [Sample.bobRow])
            _ _ _ _ _ _ _ _ _ _)).
  - discriminate.
  - reflexivity.
  - reflexivity.
  - reflexivity.
  - reflexivity.
  - reflexivity.
  - reflexivity.
  - reflexivity.
  - reflexivity.
  - simpl. unfold freshnessWindow. lia.
Defined.

(** The users query executed on db-1 leaves nothing in the cache for the
    same query on db-2. *)
Lemma other_database_never_hits_witness :
  getQueryResult (Sample.md5hex Sample.usersQuery) "db-2"
    (storage (snd (queryRoute Sample.md5hex Sample.beyondSafe
                     (Sample.queryEnv 1000 "entry-1"
                        (Responded (Sample.answer (Sample.succeeded [Sample.bobRow]))))
                     "db-1" (Some Sample.usersQuery) Sample.world)))
  = None.
Proof.
  refine (proj1 (other_database_never_hits Sample.md5hex Sample.beyondSafe
            (Sample.queryEnv 1000 "entry-1"
               (Responded (Sample.answer (Sample.succeeded [Sample.bobRow]))))
            (Sample.queryEnv 2000 "entry-2"
               (Responded (Sample.answer (Sample.succeeded [Sample.bobRow]))))
            "db-1" "db-2" (Some Sample.usersQuery) Sample.usersQuery Sample.world
            _ _)).
  - discriminate.
  - reflexivity.
Defined.

(** With the mock key in development, a query and a page of the users
    table are answered without a request, though no request could succeed. *)
Lemma mock_mode_sends_nothing_witness :
  calls (snd (queryRoute Sample.md5hex Sample.beyondSafe Fixture.mockQueryEnv
                "db-test-1" (Some Sample.usersQuery) Fixture.mockWorld)) = []
  /\ calls (snd (tableRowsRoute Sample.beyondSafe Fixture.mockTableEnv
                   "db-test-1" "users" None None Fixture.mockWorld)) = [].
Proof.
  refine (mock_mode_sends_nothing Sample.md5hex Sample.beyondSafe
            Fixture.mockQueryEnv Fixture.mockTableEnv "db-test-1"
            (Some Sample.usersQuery) "db-test-1" "users" None None
            Fixture.mockWorld Fixture.mockKey _ _ _).
  - reflexivity.
  - reflexivity.
  - reflexivity.
Defined.

(** Two rows are fetched at time 1000; the answer from the cache at time
    2000 reports two rows. *)
Lemma cached_row_count_round_trip_witness :
  let env1 := Sample.queryEnv 1000 "entry-1"
                (Responded (Sample.answer
                              (Sample.succeeded [Sample.aliceRow; Sample.bobRow]))) in
  let env2 := Sample.queryEnv 2000 "entry-2" (Rejected "TypeError" "fetch failed") in
  let run1 := queryRoute Sample.md5hex Sample.beyondSafe env1 "db-1"
                (Some Sample.usersQuery) Sample.world in
  let run2 := queryRoute Sample.md5hex Sample.beyondSafe env2 "db-1"
                (Some Sample.usersQuery) (snd run1) in
  exists resp2,
    fst run2 = Normal resp2 /\ prop (payload resp2) "rowCount" = JNum 2.
Proof.
  destruct (cached_row_count_round_trip Sample.md5hex Sample.beyondSafe
              (Sample.queryEnv 1000 "entry-1"
                 (Responded (Sample.answer
                               (Sample.succeeded [Sample.aliceRow; Sample.bobRow]))))
              (Sample.queryEnv 2000 "entry-2" (Rejected "TypeError" "fetch failed"))
              "db-1" Sample.usersQuery Sample.world Sample.key
              (Sample.answer (Sample.succeeded [Sample.aliceRow; Sample.bobRow]))
              (Sample.succeeded [Sample.aliceRow; Sample.bobRow]))
    as (resp1 & resp2 & _ & H2 & _ & _ & _ & Hcount).
  - discriminate.
  - reflexivity.
  - reflexivity.
  - reflexivity.
  - reflexivity.
  - reflexivity.
  - reflexivity.
  - reflexivity.
  - simpl. unfold freshnessWindow. lia.
  - vm_compute. discriminate.
  - exists resp2. split; [exact H2 | exact Hcount].
Defined.

(** A page of zero rows is refused with the shape of a failure. *)
Lemma table_failures_well_formed_witness :
  exists resp w',
    tableRowsRoute Sample.beyondSafe
      (Sample.tableEnv (Rejected "TypeError" "fetch failed"))
      "db-1" "users" (Some "0") None Sample.world = (Normal resp, w')
    /\ statusCode resp = 400
    /\ failureShape "rows" resp.
Proof.
  do 2 eexists. split; [reflexivity|]. split; [reflexivity|].
  eapply (table_failures_well_formed Sample.beyondSafe
            (Sample.tableEnv (Rejected "TypeError" "fetch failed"))
            "db-1" "users" (Some "0") None Sample.world).
  - reflexivity.
  - discriminate.
Defined.

(** A second key is posted over the key of [Sample]: the gateway then uses
    the second key. *)
Lemma posted_key_is_the_active_key_witness :
  Storage.getActiveApiKey
    (gatewayStore
       (snd (fst (postApiKey Fixture.toISOString (inr (Fixture.newKey "token-2"))
                    Fixture.accepted "key-2" 50 Fixture.keys)))
       [])
  = Some {| keyId := "key-2"; keyName := "staging"; cloudflareToken := "token-2";
            Storage.accountId := "account-2"; isActive := Some true |}.
Proof.
  generalize (posted_key_is_the_active_key Fixture.toISOString
                (Fixture.newKey "token-2") Fixture.accepted "key-2" 50 Fixture.keys []
                fixture_keys_wellFormed fixture_keys_own fixture_accepted).
  destruct (postApiKey Fixture.toISOString (inr (Fixture.newKey "token-2"))
              Fixture.accepted "key-2" 50 Fixture.keys) as [[reply stored] requests].
  cbn [fst snd]. intros (_ & _ & H & _). exact H.
Defined.

(** The list of keys is the same for two stores that differ in a token. *)
Lemma key_answers_hide_tokens_witness :
  getApiKeysRoute Fixture.toISOString Fixture.keys
  = getApiKeysRoute Fixture.toISOString Fixture.keysOtherToken.
Proof.
  refine (proj1 (key_answers_hide_tokens Fixture.toISOString
            Fixture.keys Fixture.keysOtherToken
            (Fixture.newKey "token-2") (Fixture.newKey "token-3")
            Fixture.accepted Fixture.accepted "key-2" 50 _ _ _ _ _)).
  - repeat constructor.
  - reflexivity.
  - reflexivity.
  - exact fixture_accepted.
  - exact fixture_accepted.
Defined.

(** The second key is posted and then deleted: the first key remains, but
    it is inactive and the users query is refused. *)
Lemma deleting_posted_key_stops_gateway_witness :
  let stored := snd (fst (postApiKey Fixture.toISOString (inr (Fixture.newKey "token-2"))
                            Fixture.accepted "key-2" 50 Fixture.keys)) in
  let remaining := snd (deleteApiKeyRoute "key-2" stored) in
  map fst remaining = ["key-1"]
  /\ fst (queryRoute Sample.md5hex Sample.beyondSafe
            (Sample.queryEnv 1000 "entry-1" (Rejected "TypeError" "fetch failed"))
            "db-1" (Some Sample.usersQuery) (Fixture.worldOf remaining []))
     = Normal {| statusCode := 400;
                 payload := [("message", JStr "No active API key configured")] |}.
Proof.
  cbv zeta. split; [reflexivity|].
  generalize (deleting_posted_key_stops_gateway Sample.md5hex Sample.beyondSafe
                Fixture.toISOString (Fixture.newKey "token-2") Fixture.accepted
                "key-2" 50 Fixture.keys
                (Sample.queryEnv 1000 "entry-1" (Rejected "TypeError" "fetch failed"))
                "db-1" Sample.usersQuery
                (Fixture.worldOf
                   (snd (deleteApiKeyRoute "key-2"
                           (snd (fst (postApiKey Fixture.toISOString
                                        (inr (Fixture.newKey "token-2"))
                                        Fixture.accepted "key-2" 50 Fixture.keys)))))
                   [])
                fixture_keys_wellFormed fixture_keys_own fixture_accepted
                ltac:(discriminate)).
  cbv zeta.
  destruct (deleteApiKeyRoute "key-2" _) as [reply remaining].
  cbn [snd]. intros (_ & _ & H & _). now rewrite (H [] eq_refl).
Defined.

(** After the second key has been posted, the users query goes out with
    its token to its account. *)
Lemma key_rotation_keeps_the_cache_witness :
  let stored := snd (fst (postApiKey Fixture.toISOString (inr (Fixture.newKey "token-2"))
                            Fixture.accepted "key-2" 50 Fixture.keys)) in
  map bearer
    (calls (snd (queryRoute Sample.md5hex Sample.beyondSafe
                   (Sample.queryEnv 1000 "entry-1" (Rejected "TypeError" "fetch failed"))
                   "db-1" (Some Sample.usersQuery) (Fixture.worldOf stored []))))
  = ["token-2"].
Proof.
  cbv zeta.
  rewrite (key_rotation_keeps_the_cache Sample.md5hex Sample.beyondSafe
             Fixture.toISOString (Fixture.newKey "token-2") Fixture.accepted
             "key-2" 50 Fixture.keys []
             (Sample.queryEnv 1000 "entry-1" (Rejected "TypeError" "fetch failed"))
             "db-1" Sample.usersQuery
             (Fixture.worldOf
                (snd (fst (postApiKey Fixture.toISOString
                             (inr (Fixture.newKey "token-2"))
                             Fixture.accepted "key-2" 50 Fixture.keys))) [])
             fixture_keys_wellFormed fixture_keys_own fixture_accepted
             ltac:(discriminate) eq_refl eq_refl).
  reflexivity.
Defined.

(** The remote service lists the database db-1: it is stored for the
    account of the active key. *)
Lemma listed_databases_are_mirrored_witness :
  let stored := snd (fst (getDatabasesRoute Fixture.toISOString false Fixture.accepted
                            (fun position => 100 + Z.of_nat position)
                            Fixture.keys [])) in
  exists d, getDatabase "db-1" stored = Some d /\ dbAccountId d = "account".
Proof.
  cbv zeta.
  generalize (listed_databases_are_mirrored Fixture.toISOString false Fixture.accepted
                (fun position => 100 + Z.of_nat position) Fixture.keys []
                Fixture.oldKey [Fixture.remoteUsers] eq_refl eq_refl eq_refl).
  destruct (getDatabasesRoute Fixture.toISOString false Fixture.accepted _
              Fixture.keys []) as [[reply stored] requests].
  cbn [fst snd]. intros (_ & H & _).
  destruct (H Fixture.remoteUsers (or_introl eq_refl)) as (d & Hget & _ & Hacc & _).
  exists d. split; [exact Hget | exact Hacc].
Defined.

(** A second query saved for db-1 comes after the first in the list of
    db-1. *)
Lemma saved_query_is_listed_witness :
  map sqId
    (getSavedQueries (Some "db-1")
       (snd (createSavedQuery Fixture.countUsers "q-2" 20 21 Fixture.savedQueries)))
  = ["q-1"; "q-2"].
Proof.
  generalize (saved_query_is_listed Fixture.countUsers "q-2" 20 21 Fixture.savedQueries
                "db-1" eq_refl ltac:(discriminate)).
  destruct (createSavedQuery Fixture.countUsers "q-2" 20 21 Fixture.savedQueries)
    as [savedQuery stored] eqn:Hcreate.
  cbn [snd]. intros (_ & _ & H). rewrite H.
  injection Hcreate as <- _. reflexivity.
Defined.

(** Deleting the saved query q-1 leaves no saved query. *)
Lemma deleted_saved_query_is_gone_witness :
  getSavedQueries None (snd (deleteSavedQueryRoute "q-1" Fixture.savedQueries)) = [].
Proof.
  generalize (deleted_saved_query_is_gone "q-1" Fixture.savedQueries None
                ltac:(intros k v [[= <- <-]|[]]; reflexivity)).
  destruct (deleteSavedQueryRoute "q-1" Fixture.savedQueries) as [reply remaining].
  cbn [snd]. intros (_ & _ & _ & _ & H). rewrite H. reflexivity.
Defined.

(** The three messages are answered in the order of their times, not in
    the order of the store. *)
Lemma chat_messages_in_order_witness :
  exists messages,
    getChatMessages None Fixture.chat = Some messages
    /\ StronglySorted notLater messages
    /\ map content messages = ["first"; "second"; "third"].
Proof.
  destruct (chat_messages_in_order None Fixture.chat) as (messages & Hget & Hs & _).
  - intros k m [[= <- <-]|[[= <- <-]|[[= <- <-]|[]]]]; discriminate.
  - exists messages. split; [exact Hget|]. split; [exact Hs|].
    vm_compute in Hget. injection Hget as <-. reflexivity.
Defined.

(** Clearing the history of db-1 leaves the message of db-2. *)
Lemma cleared_history_is_one_database_witness :
  map fst (snd (clearChatHistory (Some "db-1") Fixture.chat)) = ["m-3"].
Proof.
  destruct (cleared_history_is_one_database "db-1" Fixture.chat) as (H & _).
  - unfold wellFormed. simpl.
    repeat constructor; simpl; intuition discriminate.
  - discriminate.
  - rewrite H. reflexivity.
Defined.

(** A text with a comma and a quote. *)
Lemma escaped_text_is_recovered_witness :
  cell Sample.beyondSafe Fixture.fractionToString (JStr "a,b")
  = dquote ++ "a,b" ++ dquote
  /\ "a,b" = "a,b".
Proof.
  split; [reflexivity|].
  exact (escaped_text_is_recovered Sample.beyondSafe Fixture.fractionToString
           "a,b" "a,b" eq_refl).
Defined.

(** A second row with a column that the first row lacks is exported like a
    row without it. *)
Lemma csv_columns_of_first_row_witness :
  convertToCSV Sample.beyondSafe Fixture.fractionToString
    (Some [Sample.aliceRow; [("id", JNum 2); ("name", JStr "Bob"); ("age", JNum 30)]])
  = convertToCSV Sample.beyondSafe Fixture.fractionToString
      (Some [Sample.aliceRow; Sample.bobRow]).
Proof.
  refine (proj1 (csv_columns_of_first_row Sample.beyondSafe Fixture.fractionToString
            Sample.aliceRow
            [[("id", JNum 2); ("name", JStr "Bob"); ("age", JNum 30)]]
            [Sample.bobRow] _)).
  constructor; [|constructor].
  intros header [<-|[<-|[]]]; reflexivity.
Defined.

(** Twenty-three rows: the third page shows the last three. *)
Lemma page_in_range_is_shown_witness :
  length (paginatedData (seq 0 23) 3) = 3%nat
  /\ showingFrom 3 = 21 /\ showingTo (seq 0 23) 3 = 23.
Proof.
  destruct (page_in_range_is_shown (seq 0 23) 3) as (_ & H & _).
  - vm_compute. split; discriminate.
  - split; [reflexivity | split; reflexivity].
Defined.

(** The seed without credentials, then [GET /api/databases] outside
    development: the mock token is sent. *)
Lemma seeded_mock_key_needs_development_witness :
  map listBearer
    (snd (getDatabasesRoute Fixture.toISOString false Fixture.accepted
            (fun position => 100 + Z.of_nat position)
            (fst (seed true None None "key-0" (fun position => Z.of_nat position)))
            (snd (seed true None None "key-0" (fun position => Z.of_nat position)))))
  = ["mock-token-for-testing"].
Proof.
  generalize (seeded_mock_key_needs_development Fixture.toISOString None None "key-0"
                (fun position => Z.of_nat position) false Fixture.accepted
                (fun position => 100 + Z.of_nat position) eq_refl).
  destruct (seed true None None "key-0" (fun position => Z.of_nat position))
    as [apiKeys databases].
  cbn [fst snd].
  destruct (getDatabasesRoute Fixture.toISOString false Fixture.accepted _
              apiKeys databases) as [[reply stored] requests].
  cbn [snd]. intros ->. reflexivity.
Defined.
